(** * GSDMM: the Movie Group Process of [gsdmm/mgp.py]

    A shallow embedding of the class [MovieGroupProcess] (collapsed Gibbs
    sampling for a Dirichlet mixture model, Yin and Wang 2014) and proofs
    about its statistics, its scorer, its sweep loop and its summary.

    Conventions of the embedding.
    - Python [int]s are [Z]; [K], [n_iters] and loop indices, which only
      feed [range], are [nat].
    - Python [float]s are idealised as real numbers [R]: rounding, [nan],
      the infinities and the [OverflowError] of an [int] too large for a
      [float] are outside the model.
    - A Python [dict] is an association list in insertion order with one
      entry per key ([py.dict_get], [py.dict_set], [py.dict_del]).
    - A raised exception ([IndexError], [KeyError], [TypeError],
      [ValueError]) is [None] in the [option] monad.
    - [numpy]'s [log], [exp] and [argsort], and [numpy.random]'s
      [multinomial] with the generator state it draws from, are library
      code outside the repository: they are the fields of the classes
      [np.numpy] and [np.random]. *)

From Stdlib Require Import Reals Lra ZArith Lia String Permutation Sorted.
From stdpp Require Import base option list strings sorting.

Open Scope Z_scope.

(** ** Python built-ins used by the module *)

Module py.

(** A loop [for a in l: s = f(s, a)] whose body may raise. *)
Fixpoint foldM {A S : Type} (f : S → A → option S) (s : S) (l : list A) : option S :=
  match l with
  | [] => Some s
  | a :: l' => s' ← f s a; foldM f s' l'
  end.

(** The states a loop goes through, one after each iteration of its body. *)
Fixpoint foldM_history {A S : Type} (f : S → A → option S) (s : S) (l : list A)
  : option (list S) :=
  match l with
  | [] => Some []
  | a :: l' => s' ← f s a; h ← foldM_history f s' l'; Some (s' :: h)
  end.

(** [enumerate(l)] *)
Definition enumerate {A : Type} (l : list A) : list (nat * A) := imap pair l.

(** [d.get(k)]: [None] when [k] is not a key. *)
Fixpoint dict_get {Key V : Type} `{EqDecision Key} (d : list (Key * V)) (k : Key) : option V :=
  match d with
  | [] => None
  | (k', v) :: d' => if decide (k' = k) then Some v else dict_get d' k
  end.

(** [d[k] = v]: an existing key keeps its place, a new key goes last. *)
Fixpoint dict_set {Key V : Type} `{EqDecision Key} (d : list (Key * V)) (k : Key) (v : V)
  : list (Key * V) :=
  match d with
  | [] => [(k, v)]
  | (k', v') :: d' => if decide (k' = k) then (k', v) :: d' else (k', v') :: dict_set d' k v
  end.

(** [del d[k]] for a key that is present. *)
Fixpoint dict_del {Key V : Type} `{EqDecision Key} (d : list (Key * V)) (k : Key)
  : list (Key * V) :=
  match d with
  | [] => []
  | (k', v') :: d' => if decide (k' = k) then d' else (k', v') :: dict_del d' k
  end.

(** [sum(p)] over floats: starts from 0 and adds from the left. *)
Definition sum (p : list R) : R := fold_left Rplus p 0%R.

(** [max(p)]: the first maximal element; [ValueError] on an empty list. *)
Definition max (p : list R) : option R :=
  match p with
  | [] => None
  | x :: p' => Some (fold_left (λ best y, if Rlt_dec best y then y else best) p' x)
  end.

(** [a[start:]] *)
Definition slice_from {A : Type} (start : Z) (a : list A) : list A :=
  if start <? 0 then drop (Z.to_nat (Z.of_nat (length a) + start)) a
  else drop (Z.to_nat start) a.

(** [a[:stop]] *)
Definition slice_to {A : Type} (stop : Z) (a : list A) : list A :=
  if stop <? 0 then take (Z.to_nat (Z.of_nat (length a) + stop)) a
  else take (Z.to_nat stop) a.

(** [sorted(items, key=lambda k: k[1], reverse=True)]: a stable sort by
    descending count (items with equal counts keep their order). *)
Fixpoint insert_desc {Key : Type} (x : Key * Z) (l : list (Key * Z)) : list (Key * Z) :=
  match l with
  | [] => [x]
  | y :: l' => if x.2 <? y.2 then y :: insert_desc x l' else x :: y :: l'
  end.

Definition sorted_desc {Key : Type} (items : list (Key * Z)) : list (Key * Z) :=
  foldr insert_desc [] items.

End py.

(** A token-frequency table: [dict] from token to count. *)
Abbreviation dict := (list (string * Z)).

(** ** The numpy interface *)

Module np.

(** [numpy.log], [numpy.exp] and [ndarray.argsort]. *)
Class numpy := {
  log : R → R;
  exp : R → R;
  argsort : list Z → list nat
}.

(** [numpy.random.multinomial(n, pvals)] draws from the process-wide
    generator; its state is threaded explicitly. [None]: it raised. *)
Class random := {
  RandomState : Type;
  multinomial : Z → list R → RandomState → option (list Z * RandomState)
}.

(** [numpy.argmax(p)]: the index of the first occurrence of the maximum;
    [ValueError] on an empty sequence. *)
Fixpoint argmax_from (best_i : nat) (best : R) (i : nat) (p : list R) : nat :=
  match p with
  | [] => best_i
  | x :: p' =>
      if Rlt_dec best x then argmax_from i x (S i) p'
      else argmax_from best_i best (S i) p'
  end.

Definition argmax (p : list R) : option nat :=
  match p with
  | [] => None
  | x :: p' => Some (argmax_from 0 x 1 p')
  end.

End np.

(** ** The model object *)

Record MovieGroupProcess := {
  K : nat;
  alpha : R;
  beta : R;
  n_iters : nat;
  number_docs : option Z;
  vocab_size : option Z;
  cluster_doc_count : list Z;
  cluster_word_count : list Z;
  cluster_word_distribution : list dict
}.

(** [MovieGroupProcess(K, alpha, beta, n_iters)] *)
Definition __init__ (K : nat) (alpha beta : R) (n_iters : nat) : MovieGroupProcess :=
  {| K := K; alpha := alpha; beta := beta; n_iters := n_iters;
     number_docs := None; vocab_size := None;
     cluster_doc_count := replicate K 0;
     cluster_word_count := replicate K 0;
     cluster_word_distribution := replicate K [] |}.

(** The computed slots of [mgp] overwritten; the configuration stays. *)
Definition set_computed (mgp : MovieGroupProcess) (D V : option Z)
    (m_z n_z : list Z) (n_z_w : list dict) : MovieGroupProcess :=
  {| K := mgp.(K); alpha := mgp.(alpha); beta := mgp.(beta); n_iters := mgp.(n_iters);
     number_docs := D; vocab_size := V;
     cluster_doc_count := m_z; cluster_word_count := n_z;
     cluster_word_distribution := n_z_w |}.

(** [MovieGroupProcess.from_data]: a fresh object with [n_iters=30] whose
    computed slots are then overwritten. *)
Definition from_data (K : nat) (alpha beta : R) (D vocab_size : option Z)
    (cluster_doc_count cluster_word_count : list Z)
    (cluster_word_distribution : list dict) : MovieGroupProcess :=
  let mgp := __init__ K alpha beta 30 in
  set_computed mgp D vocab_size cluster_doc_count cluster_word_count
    cluster_word_distribution.

(** The three statistics of [mgp] replaced (the lists are updated in place). *)
Definition with_stats (mgp : MovieGroupProcess) (m_z n_z : list Z) (n_z_w : list dict)
  : MovieGroupProcess :=
  set_computed mgp mgp.(number_docs) mgp.(vocab_size) m_z n_z n_z_w.

(** ** Updating the statistics *)

(** [l[i] += d] *)
Definition list_add (l : list Z) (i : nat) (d : Z) : option (list Z) :=
  x ← l !! i; Some (<[i := x + d]> l).

(** Lines 145-147 and 180-182: one token added to cluster [z]. *)
Definition add_word (z : nat) (n_z_w : list dict) (word : string) : option (list dict) :=
  d ← n_z_w !! z;
  let d := match py.dict_get d word with None => py.dict_set d word 0 | Some _ => d end in
  c ← py.dict_get d word;
  Some (<[z := py.dict_set d word (c + 1)]> n_z_w).

(** Lines 141-147 and 176-182: a document added to cluster [z]. *)
Definition add_doc (z : nat) (doc : list string) (mgp : MovieGroupProcess)
  : option MovieGroupProcess :=
  m_z ← list_add mgp.(cluster_doc_count) z 1;
  n_z ← list_add mgp.(cluster_word_count) z (Z.of_nat (length doc));
  n_z_w ← py.foldM (add_word z) mgp.(cluster_word_distribution) doc;
  Some (with_stats mgp m_z n_z n_z_w).

(** Lines 161-165: one token removed from cluster [z_old]; an entry that
    reaches 0 is deleted. *)
Definition remove_word (z_old : nat) (n_z_w : list dict) (word : string)
  : option (list dict) :=
  d ← n_z_w !! z_old;
  c ← py.dict_get d word;
  let d := py.dict_set d word (c - 1) in
  Some (<[z_old := if decide (c - 1 = 0) then py.dict_del d word else d]> n_z_w).

(** Lines 157-165: a document removed from its cluster [z_old]. *)
Definition remove_doc (z_old : nat) (doc : list string) (mgp : MovieGroupProcess)
  : option MovieGroupProcess :=
  m_z ← list_add mgp.(cluster_doc_count) z_old (-1);
  n_z ← list_add mgp.(cluster_word_count) z_old (- Z.of_nat (length doc));
  n_z_w ← py.foldM (remove_word z_old) mgp.(cluster_word_distribution) doc;
  Some (with_stats mgp m_z n_z n_z_w).

Section Methods.
Context `{!np.numpy} `{!np.random}.

(** ** The sampler *)

(** [_sample(p)]: the index of the first non-zero entry of one
    single-trial multinomial draw; [IndexError] when there is none. *)
Definition _sample (p : list R) (g : np.RandomState) : option (nat * np.RandomState) :=
  '(draw, g') ← np.multinomial 1 p g;
  i ← head ((filter (λ ie, ie.2 ≠ 0) (py.enumerate draw)).*1);
  Some (i, g').

(** ** The scorer *)

(** Lines 237-244: the weight of cluster [label]. *)
Definition score_label (mgp : MovieGroupProcess) (doc : list string) (lD1 : R)
    (label : nat) : option R :=
  m ← mgp.(cluster_doc_count) !! label;
  let lN1 := np.log (IZR m + mgp.(alpha))%R in
  lN2 ← py.foldM (λ lN2 word,
           d ← mgp.(cluster_word_distribution) !! label;
           Some (lN2 + np.log (IZR (default 0%Z (py.dict_get d word)) + mgp.(beta)))%R)
         0%R doc;
  lD2 ← py.foldM (λ lD2 j,
           n ← mgp.(cluster_word_count) !! label;
           V ← mgp.(vocab_size);
           Some (lD2 + np.log (IZR n + IZR V * mgp.(beta) + INR j - 1))%R)
         0%R (seq 1 (length doc));
  Some (np.exp (lN1 - lD1 + lN2 - lD2)%R).

(** Lines 225-244: the vector [p] before normalisation. *)
Definition score_unnormalized (mgp : MovieGroupProcess) (doc : list string)
  : option (list R) :=
  D ← mgp.(number_docs);
  let lD1 := np.log (IZR D - 1 + INR mgp.(K) * mgp.(alpha))%R in
  py.foldM (λ p label, w ← score_label mgp doc lD1 label; Some (<[label := w]> p))
    (replicate mgp.(K) 0%R) (seq 0 mgp.(K)).

(** Lines 246-249: [p] divided by its sum, or by 1 when the sum is not
    positive. *)
Definition normalize (p : list R) : list R :=
  let pnorm := py.sum p in
  let pnorm := if Rlt_dec 0 pnorm then pnorm else 1%R in
  map (λ pp, pp / pnorm)%R p.

(** [score(doc)] *)
Definition score (mgp : MovieGroupProcess) (doc : list string) : option (list R) :=
  p ← score_unnormalized mgp doc;
  Some (normalize p).

(** [choose_best_label(doc)] *)
Definition choose_best_label (mgp : MovieGroupProcess) (doc : list string)
  : option (nat * R) :=
  p ← score mgp doc;
  i ← np.argmax p;
  v ← py.max p;
  Some (i, v).

(** ** The summary *)

(** [get_top_words(k_words, merge_token)]: the returned [dict], from
    cluster index to the joined tokens. *)
Definition get_top_words (mgp : MovieGroupProcess) (k_words : Z) (merge_token : string)
  : option (list (nat * string)) :=
  let doc_count := mgp.(cluster_doc_count) in
  let top_index := reverse (py.slice_from (- Z.of_nat mgp.(K)) (np.argsort doc_count)) in
  py.foldM (λ topic_words cluster,
      d ← mgp.(cluster_word_distribution) !! cluster;
      let sort_dicts := py.slice_to k_words (py.sorted_desc d) in
      let words := String.concat merge_token (sort_dicts.*1) in
      Some (py.dict_set topic_words cluster words))
    [] top_index.

(** ** Fitting *)

(** What [fit] prints, one event per [print]. *)
Inductive event :=
  | Stage (_iter total_transfers cluster_count_new : nat)
  | Converged.

(** The variables [fit] works on: the object, the labels [d_z], the
    generator and the printed lines. *)
Record fit_state := {
  self : MovieGroupProcess;
  d_z : list (option nat);
  gen : np.RandomState;
  stdout : list event
}.

(** Lines 138-147: document [i] gets a uniformly drawn first cluster. *)
Definition init_doc (s : fit_state) (idoc : nat * list string) : option fit_state :=
  let '(i, doc) := idoc in
  let K := s.(self).(K) in
  '(z, g) ← _sample (replicate K (1 / INR K)%R) s.(gen);
  mgp ← add_doc z doc s.(self);
  Some {| self := mgp; d_z := <[i := Some z]> s.(d_z); gen := g; stdout := s.(stdout) |}.

(** Lines 154-182: document [i] leaves its cluster, is scored against
    the remaining statistics and joins the cluster drawn from the score. *)
Definition reassign (st : fit_state * nat) (idoc : nat * list string)
  : option (fit_state * nat) :=
  let '(s, total_transfers) := st in
  let '(i, doc) := idoc in
  z_old ← mjoin (s.(d_z) !! i);
  mgp ← remove_doc z_old doc s.(self);
  p ← score mgp doc;
  '(z_new, g) ← _sample p s.(gen);
  let total_transfers :=
    if decide (z_new ≠ z_old) then S total_transfers else total_transfers in
  mgp ← add_doc z_new doc mgp;
  Some ({| self := mgp; d_z := <[i := Some z_new]> s.(d_z); gen := g;
           stdout := s.(stdout) |}, total_transfers).

(** Lines 150-182: one sweep over the corpus; returns [total_transfers]. *)
Definition sweep (docs : list (list string)) (s : fit_state) : option (fit_state * nat) :=
  py.foldM reassign (s, 0%nat) (py.enumerate docs).

(** [sum(v > 0 for v in m_z)] *)
Definition populated (m_z : list Z) : nat := length (filter (λ v, 0 < v) m_z).

Definition print (e : event) (s : fit_state) : fit_state :=
  {| self := s.(self); d_z := s.(d_z); gen := s.(gen); stdout := s.(stdout) ++ [e] |}.

(** Lines 149-196: the sweeps of [range(n_iters)] still to run, with the
    local [cluster_count]. *)
Fixpoint sweeps (docs : list (list string)) (iters : list nat) (cluster_count : nat)
    (s : fit_state) : option fit_state :=
  match iters with
  | [] => Some s
  | _iter :: iters' =>
      '(s, total_transfers) ← sweep docs s;
      let cluster_count_new := populated s.(self).(cluster_doc_count) in
      let s := print (Stage _iter total_transfers cluster_count_new) s in
      if decide (total_transfers = 0%nat ∧ cluster_count_new = cluster_count
                 ∧ (25 < _iter)%nat)
      then Some (print Converged s)
      else sweeps docs iters' cluster_count_new s
  end.

(** Lines 122-147: the slots set at entry and the initialisation pass. *)
Definition initialize (mgp : MovieGroupProcess) (docs : list (list string))
    (vocab_size : Z) (g : np.RandomState) : option fit_state :=
  let D := length docs in
  let mgp := set_computed mgp (Some (Z.of_nat D)) (Some vocab_size)
               mgp.(cluster_doc_count) mgp.(cluster_word_count)
               mgp.(cluster_word_distribution) in
  py.foldM init_doc {| self := mgp; d_z := replicate D None; gen := g; stdout := [] |}
    (py.enumerate docs).

(** [fit(docs, vocab_size)]: the returned labels are [d_z] of the result,
    the object after the call is its [self]. *)
Definition fit (mgp : MovieGroupProcess) (docs : list (list string)) (vocab_size : Z)
    (g : np.RandomState) : option fit_state :=
  s ← initialize mgp docs vocab_size g;
  sweeps docs (seq 0 mgp.(n_iters)) mgp.(K) s.

End Methods.

(** ** Executions of [fit], step by step *)

Section History.
Context `{!np.numpy} `{!np.random}.

(** The states after each reassignment step of the sweeps [sweeps] runs,
    in order; it follows [sweeps] branch for branch. *)
Fixpoint sweeps_history (docs : list (list string)) (iters : list nat)
    (cluster_count : nat) (s : fit_state) : option (list fit_state) :=
  match iters with
  | [] => Some []
  | _iter :: iters' =>
      h ← py.foldM_history reassign (s, 0%nat) (py.enumerate docs);
      '(s, total_transfers) ← sweep docs s;
      let cluster_count_new := populated s.(self).(cluster_doc_count) in
      let s := print (Stage _iter total_transfers cluster_count_new) s in
      if decide (total_transfers = 0%nat ∧ cluster_count_new = cluster_count
                 ∧ (25 < _iter)%nat)
      then Some (h.*1)
      else h' ← sweeps_history docs iters' cluster_count_new s; Some (h.*1 ++ h')
  end.

(** The states after each reassignment step of a call of [fit]. *)
Definition fit_history (mgp : MovieGroupProcess) (docs : list (list string))
    (vocab_size : Z) (g : np.RandomState) : option (list fit_state) :=
  s ← initialize mgp docs vocab_size g;
  sweeps_history docs (seq 0 mgp.(n_iters)) mgp.(K) s.

End History.

(** ** Specification vocabulary *)

(** The sum of a list of integers. *)
Definition total (l : list Z) : Z := foldr Z.add 0 l.

(** [sum(d.values())] *)
Definition dict_total (d : dict) : Z := total (d.*2).

(** The invariants of the statistics for a corpus of [D] documents. *)
Record stats_ok (D : Z) (mgp : MovieGroupProcess) : Prop := {
  docs_assigned : total mgp.(cluster_doc_count) = D;
  words_counted : mgp.(cluster_word_count) = dict_total <$> mgp.(cluster_word_distribution);
  counts_positive : Forall (Forall (λ wc, 0 < wc.2)) mgp.(cluster_word_distribution)
}.

(** [freq(z, w)]: the count of [w] in cluster [z], 0 when it is absent. *)
Definition freq (mgp : MovieGroupProcess) (z : nat) (w : string) : Z :=
  default 0 (d ← mgp.(cluster_word_distribution) !! z; py.dict_get d w).

(** The mathematical sum of a list of reals. *)
Definition Rsum (l : list R) : R := foldr Rplus 0%R l.

Section Posterior.
Context `{!np.numpy}.

(** Formula 3 of Yin and Wang as the specification writes it, for
    cluster [z], with [D] documents and vocabulary size [V]. *)
Definition posterior_weight (mgp : MovieGroupProcess) (D V : Z) (doc : list string)
    (z : nat) : R :=
  let lD1 := np.log (IZR D - 1 + INR mgp.(K) * mgp.(alpha))%R in
  let lN1 := np.log (IZR (default 0%Z (mgp.(cluster_doc_count) !! z)) + mgp.(alpha))%R in
  let lN2 := Rsum ((λ w, np.log (IZR (freq mgp z w) + mgp.(beta))%R) <$> doc) in
  let lD2 := Rsum ((λ j, np.log (IZR (default 0%Z (mgp.(cluster_word_count) !! z))
                                  + IZR V * mgp.(beta) + INR j - 1)%R)
                   <$> seq 1 (length doc)) in
  np.exp (lN1 - lD1 + lN2 - lD2)%R.

End Posterior.

(** ** The scorer with its calls of [log] recorded *)

Section Logged.
Context `{!np.numpy}.

(** Lines 237-244 with every argument passed to [log] appended to
    [trace]: the weight of cluster [label] and the extended trace. *)
Definition score_label_logged (mgp : MovieGroupProcess) (doc : list string) (lD1 : R)
    (label : nat) (trace : list R) : option (R * list R) :=
  m ← mgp.(cluster_doc_count) !! label;
  let a := (IZR m + mgp.(alpha))%R in
  let lN1 := np.log a in
  let trace := trace ++ [a] in
  '(lN2, trace) ← py.foldM (λ '(lN2, trace) word,
           d ← mgp.(cluster_word_distribution) !! label;
           let a := (IZR (default 0%Z (py.dict_get d word)) + mgp.(beta))%R in
           Some ((lN2 + np.log a)%R, trace ++ [a]))
         (0%R, trace) doc;
  '(lD2, trace) ← py.foldM (λ '(lD2, trace) j,
           n ← mgp.(cluster_word_count) !! label;
           V ← mgp.(vocab_size);
           let a := (IZR n + IZR V * mgp.(beta) + INR j - 1)%R in
           Some ((lD2 + np.log a)%R, trace ++ [a]))
         (0%R, trace) (seq 1 (length doc));
  Some (np.exp (lN1 - lD1 + lN2 - lD2)%R, trace).

(** [score(doc)] with the arguments of its calls of [log], in the order
    of evaluation: what it returns and what it passed to [log]. *)
Definition score_logged (mgp : MovieGroupProcess) (doc : list string)
  : option (list R * list R) :=
  D ← mgp.(number_docs);
  let a := (IZR D - 1 + INR mgp.(K) * mgp.(alpha))%R in
  let lD1 := np.log a in
  '(p, trace) ← py.foldM (λ '(p, trace) label,
           '(w, trace) ← score_label_logged mgp doc lD1 label trace;
           Some (<[label := w]> p, trace))
         (replicate mgp.(K) 0%R, [a]) (seq 0 mgp.(K));
  Some (normalize p, trace).

End Logged.

(** The arguments [score_logged] records for one cluster, and for a call,
    on a state [score] accepts, in closed form: line 234 once, then for
    each label line 237, line 241 for each token and line 243 for each
    position ([score_logged_scorable]). *)
Definition label_log_args (mgp : MovieGroupProcess) (V : Z) (doc : list string)
    (z : nat) : list R :=
  (IZR (default 0%Z (mgp.(cluster_doc_count) !! z)) + mgp.(alpha))%R ::
  ((λ w, (IZR (freq mgp z w) + mgp.(beta))%R) <$> doc) ++
  ((λ j, (IZR (default 0%Z (mgp.(cluster_word_count) !! z))
          + IZR V * mgp.(beta) + INR j - 1)%R) <$> seq 1 (length doc)).

Definition log_args (mgp : MovieGroupProcess) (D V : Z) (doc : list string) : list R :=
  (IZR D - 1 + INR mgp.(K) * mgp.(alpha))%R ::
  flat_map (label_log_args mgp V doc) (seq 0 mgp.(K)).

(** A state on which [score] raises no [IndexError] or [TypeError]: the
    slots are set and the statistics cover the [K] clusters. *)
Record scorable (mgp : MovieGroupProcess) (D V : Z) : Prop := {
  docs_set : mgp.(number_docs) = Some D;
  vocab_set : mgp.(vocab_size) = Some V;
  doc_count_covers : (mgp.(K) ≤ length mgp.(cluster_doc_count))%nat;
  word_count_covers : (mgp.(K) ≤ length mgp.(cluster_word_count))%nat;
  distribution_covers : (mgp.(K) ≤ length mgp.(cluster_word_distribution))%nat
}.

Section ConvergenceRule.
Context `{!np.numpy} `{!np.random}.

(** The sweep loop as the specification words it: stop after a sweep
    when nothing was transferred, the number of populated clusters is
    what it was before the sweep, and the sweep index exceeds 25. *)
Fixpoint sweeps_spec (docs : list (list string)) (iters : list nat) (s : fit_state)
  : option fit_state :=
  match iters with
  | [] => Some s
  | i :: iters' =>
      let populated_before := populated s.(self).(cluster_doc_count) in
      '(s', total_transfers) ← sweep docs s;
      let populated_after := populated s'.(self).(cluster_doc_count) in
      let s' := print (Stage i total_transfers populated_after) s' in
      if decide (total_transfers = 0%nat ∧ populated_after = populated_before
                 ∧ (25 < i)%nat)
      then Some (print Converged s')
      else sweeps_spec docs iters' s'
  end.

Definition fit_spec (mgp : MovieGroupProcess) (docs : list (list string))
    (vocab_size : Z) (g : np.RandomState) : option fit_state :=
  s ← initialize mgp docs vocab_size g;
  sweeps_spec docs (seq 0 mgp.(n_iters)) s.

End ConvergenceRule.

(** The sweep index of a printed stage line. *)
Definition stage_index (e : event) : option nat :=
  match e with Stage i _ _ => Some i | Converged => None end.

(** ** A concrete numpy, for running the model *)

Module example.

(** A stable argsort by insertion, ascending. *)
Fixpoint insert_asc (x : nat * Z) (l : list (nat * Z)) : list (nat * Z) :=
  match l with
  | [] => [x]
  | y :: l' => if y.2 <? x.2 then y :: insert_asc x l' else x :: y :: l'
  end.

Definition argsort (a : list Z) : list nat :=
  (foldr insert_asc [] (py.enumerate a)).*1.

#[export] Instance numpy : np.numpy :=
  {| np.log := ln; np.exp := Rtrigo_def.exp; np.argsort := argsort |}.

(** A generator whose state is a counter [g]: the draw puts its single
    trial in category [g mod len(pvals)] and the counter moves on. *)
Definition multinomial (n : Z) (pvals : list R) (g : nat)
  : option (list Z * nat) :=
  Some (<[(g mod length pvals)%nat := n]> (replicate (length pvals) 0), S g).

#[export] Instance random : np.random :=
  {| np.RandomState := nat; np.multinomial := multinomial |}.

(** Two documents over the vocabulary [{a, b, x}]. *)
Definition docs : list (list string) := [["a"; "b"; "a"]; ["x"]]%string.

(** A fitted state: three documents in two of three clusters. *)
Definition fitted : MovieGroupProcess :=
  set_computed (__init__ 3 (1/10) (1/10) 30) (Some 3) (Some 3)
    [2; 0; 1] [4; 0; 1] [[("a", 3); ("b", 1)]; []; [("x", 1)]]%string.

(** What [fit] leaves of a fresh model with [K = 2] and [n_iters = 1]
    on [docs], from the generator state 0. *)
Definition after_first_fit : fit_state :=
  {| self := set_computed (__init__ 2 (1/10) (1/10) 1) (Some 2) (Some 3)
               [1; 1] [3; 1] [[("a", 2); ("b", 1)]; [("x", 1)]]%string;
     d_z := [Some 0%nat; Some 1%nat];
     gen := 4%nat;
     stdout := [Stage 0 0 2] |}.

(** The same statistics under [alpha = 0]: cluster 1 holds no document. *)
Definition fitted_alpha_0 : MovieGroupProcess :=
  set_computed (__init__ 3 0 (1/10) 30) (Some 3) (Some 3)
    [2; 0; 1] [4; 0; 1] [[("a", 3); ("b", 1)]; []; [("x", 1)]]%string.

(** With [K = 1] and [alpha = 0], the state [fit] scores the first of the
    two documents [["a"], ["a"]] against: the other document fills the
    only cluster. *)
Definition one_cluster_alpha_0 : MovieGroupProcess :=
  set_computed (__init__ 1 0 (1/10) 30) (Some 2) (Some 1)
    [1] [1] [[("a", 1)]]%string.

End example.

Section FitStates.
Context `{!np.random}.

(** The invariants of a state of [fit] on a corpus of [D] documents. *)
Definition fit_ok (D : Z) (s : fit_state) : Prop :=
  stats_ok D s.(self) ∧ s.(self).(number_docs) = Some D.

(** Two states of [fit] that differ in the printed lines at most. *)
Definition same_run (x y : fit_state) : Prop :=
  x.(self) = y.(self) ∧ x.(d_z) = y.(d_z) ∧ x.(gen) = y.(gen).

(** What a call of [fit] keeps fixed from a state on: the slots set at
    entry and the number of assigned documents. *)
Definition counts (D : option Z) (n : Z) (s : fit_state) : Prop :=
  s.(self).(number_docs) = D ∧ total s.(self).(cluster_doc_count) = n.

End FitStates.

(** The number of occurrences of the token [w] in a document. *)
Definition occ (w : string) (doc : list string) : Z :=
  Z.of_nat (length (filter (λ w', w' = w) doc)).

(** The occurrences of [w] in the documents labelled [z]. *)
Definition assigned (docs : list (list string)) (d_z : list (option nat))
    (z : nat) (w : string) : Z :=
  total (zip_with (λ doc l, if decide (l = Some z) then occ w doc else 0) docs d_z).

(** The count of [w] in table [z] of [n_z_w], 0 when it is absent. *)
Definition table_freq (n_z_w : list dict) (z : nat) (w : string) : Z :=
  default 0 (d ← n_z_w !! z; py.dict_get d w).

(** The [pvals] that [multinomial] accepts: numpy raises [ValueError]
    unless every entry is in [[0, 1]] and [sum(pvals[:-1])] is at most
    1. *)
Definition valid_pvals (p : list R) : Prop :=
  Forall (λ x, (0 <= x <= 1)%R) p ∧ (Rsum (py.slice_to (-1) p) <= 1)%R.

Section WellFormed.
Context `{!np.random}.

(** A generator that answers as numpy's does on the [pvals] it accepts:
    the draw of [_sample] for [K] valid [pvals] selects one of the [K]
    categories. *)
Definition sampler_ok (K : nat) : Prop :=
  ∀ p g, length p = K → valid_pvals p →
    ∃ z g', _sample p g = Some (z, g') ∧ (z < K)%nat.

(** A state of [fit] on [docs] with [K] clusters: the statistics have [K]
    slots, every label is a cluster, and every table counts the tokens of
    the documents labelled with its cluster. *)
Record fit_wf (docs : list (list string)) (K0 : nat) (s : fit_state) : Prop := {
  wf_K : s.(self).(K) = K0;
  wf_docs : is_Some s.(self).(number_docs);
  wf_vocab : is_Some s.(self).(vocab_size);
  wf_doc_count : length s.(self).(cluster_doc_count) = K0;
  wf_word_count : length s.(self).(cluster_word_count) = K0;
  wf_distribution : length s.(self).(cluster_word_distribution) = K0;
  wf_keys : Forall (λ d : dict, NoDup d.*1) s.(self).(cluster_word_distribution);
  wf_length : length s.(d_z) = length docs;
  wf_labels : ∀ i z, s.(d_z) !! i = Some (Some z) → (z < K0)%nat;
  wf_freq : ∀ z w,
    table_freq s.(self).(cluster_word_distribution) z w = assigned docs s.(d_z) z w
}.

(** Every document has a label. *)
Definition all_labelled (docs : list (list string)) (s : fit_state) : Prop :=
  ∀ i, (i < length docs)%nat → ∃ z, s.(d_z) !! i = Some (Some z).

End WellFormed.

(** [v] at index [i] is the maximum of [p], and the first one. *)
Definition first_maximum (p : list R) (i : nat) (v : R) : Prop :=
  p !! i = Some v
  ∧ (∀ j x, p !! j = Some x → (x <= v)%R)
  ∧ (∀ j x, (j < i)%nat → p !! j = Some x → (x < v)%R).

(** The tokens [get_top_words] joins for a table [d]. *)
Definition top_words (k_words : Z) (d : dict) : dict :=
  py.slice_to k_words (py.sorted_desc d).

(** Two computations that both raise, or both return, with related
    results. *)
Definition option_rel {A B : Type} (R : A → B → Prop) (x : option A) (y : option B)
  : Prop :=
  match x, y with
  | Some a, Some b => R a b
  | None, None => True
  | _, _ => False
  end.

(** The two generators deliver the same draws: from states related by
    [sim], the same request is answered by the same counts (or both
    raise), and the states stay related. *)
Definition same_draws (R1 R2 : np.random)
    (sim : @np.RandomState R1 → @np.RandomState R2 → Prop) : Prop :=
  ∀ n pvals g1 g2, sim g1 g2 →
    option_rel (λ r1 r2, r1.1 = r2.1 ∧ sim r1.2 r2.2)
      (@np.multinomial R1 n pvals g1) (@np.multinomial R2 n pvals g2).

(** The two runs are at the same point: same labels, same object, same
    printed lines, related generators. *)
Definition same_state (R1 R2 : np.random)
    (sim : @np.RandomState R1 → @np.RandomState R2 → Prop)
    (s1 : @fit_state R1) (s2 : @fit_state R2) : Prop :=
  s1.(d_z) = s2.(d_z) ∧ s1.(self) = s2.(self) ∧ s1.(stdout) = s2.(stdout)
  ∧ sim s1.(gen) s2.(gen).

(** What lines 145-147 do to one table, and lines 161-165 to a table in
    which [w] has count [c]. *)
Definition count_up (d : dict) (w : string) : dict :=
  py.dict_set d w (default 0 (py.dict_get d w) + 1).

Definition count_down (d : dict) (w : string) (c : Z) : dict :=
  if decide (c - 1 = 0) then py.dict_del d w else py.dict_set d w (c - 1).

(** ** Vocabulary for the sweeps *)

(** The documents of [docs] labelled [z] by [d_z], each weighed by [f]:
    their number for [f = 1], their tokens for [f = len]. *)
Definition labelled_with (f : list string → Z) (docs : list (list string))
    (d_z : list (option nat)) (z : nat) : Z :=
  total (zip_with (λ doc l, if decide (l = Some z) then f doc else 0) docs d_z).

(** The number of indices of [l] at which two label lists differ. *)
Definition changed (a b : list (option nat)) (l : list nat) : nat :=
  length (filter (λ i, a !! i ≠ b !! i) l).

Section SimplerLoop.
Context `{!np.numpy} `{!np.random}.

(** The sweep loop of [fit] with the comparison of the cluster counts
    left out of the test of lines 189-193. *)
Fixpoint sweeps_by_transfers (docs : list (list string)) (iters : list nat)
    (s : fit_state) : option fit_state :=
  match iters with
  | [] => Some s
  | _iter :: iters' =>
      '(s, total_transfers) ← sweep docs s;
      let cluster_count_new := populated s.(self).(cluster_doc_count) in
      let s := print (Stage _iter total_transfers cluster_count_new) s in
      if decide (total_transfers = 0%nat ∧ (25 < _iter)%nat)
      then Some (print Converged s)
      else sweeps_by_transfers docs iters' s
  end.

Definition fit_by_transfers (mgp : MovieGroupProcess) (docs : list (list string))
    (vocab_size : Z) (g : np.RandomState) : option fit_state :=
  s ← initialize mgp docs vocab_size g;
  sweeps_by_transfers docs (seq 0 mgp.(n_iters)) s.

End SimplerLoop.

(** Two models with the same parameters and the same counts, whatever
    the order of the tokens in their tables. *)
Record same_model_counts (mgp mgp' : MovieGroupProcess) : Prop := {
  smc_K : mgp'.(K) = mgp.(K);
  smc_alpha : mgp'.(alpha) = mgp.(alpha);
  smc_beta : mgp'.(beta) = mgp.(beta);
  smc_docs : mgp'.(number_docs) = mgp.(number_docs);
  smc_vocab : mgp'.(vocab_size) = mgp.(vocab_size);
  smc_doc_count : mgp'.(cluster_doc_count) = mgp.(cluster_doc_count);
  smc_word_count : mgp'.(cluster_word_count) = mgp.(cluster_word_count);
  smc_tables : length mgp'.(cluster_word_distribution)
               = length mgp.(cluster_word_distribution);
  smc_freq : ∀ z w, freq mgp' z w = freq mgp z w
}.

Section Unchanged.
Context `{!np.random}.

(** Two states of [fit] with the same labels and the same counts; the
    tables hold the same count for every token (a Python [dict] has no
    key twice) but may list the tokens in another order. *)
Definition same_counts (s s' : fit_state) : Prop :=
  s'.(d_z) = s.(d_z)
  ∧ s'.(self).(cluster_doc_count) = s.(self).(cluster_doc_count)
  ∧ s'.(self).(cluster_word_count) = s.(self).(cluster_word_count)
  ∧ (Forall (λ d : dict, NoDup d.*1) s.(self).(cluster_word_distribution) →
     Forall (λ d : dict, NoDup d.*1) s'.(self).(cluster_word_distribution)
     ∧ same_model_counts s.(self) s'.(self)).

End Unchanged.

(** The number of documents labelled [z], and the number of their
    tokens. *)
Definition docs_in (docs : list (list string)) (d_z : list (option nat)) (z : nat) : Z :=
  labelled_with (λ _, 1) docs d_z z.

Definition tokens_in (docs : list (list string)) (d_z : list (option nat)) (z : nat) : Z :=
  labelled_with (λ doc, Z.of_nat (length doc)) docs d_z z.

Section CountsMatch.
Context `{!np.random}.

(** A state of [fit] on [docs] with [K] clusters whose counts are those
    of its labels. *)
Record counts_match (docs : list (list string)) (K0 : nat) (s : fit_state) : Prop := {
  cm_length : length s.(d_z) = length docs;
  cm_doc_count : length s.(self).(cluster_doc_count) = K0;
  cm_word_count : length s.(self).(cluster_word_count) = K0;
  cm_labels : ∀ i z, s.(d_z) !! i = Some (Some z) → (z < K0)%nat;
  cm_docs : ∀ z, (z < K0)%nat →
    s.(self).(cluster_doc_count) !! z = Some (docs_in docs s.(d_z) z);
  cm_tokens : ∀ z, (z < K0)%nat →
    s.(self).(cluster_word_count) !! z = Some (tokens_in docs s.(d_z) z)
}.

End CountsMatch.

(** [i] is the index of the first non-zero entry of a draw. *)
Definition first_nonzero (draw : list Z) (i : nat) : Prop :=
  (∃ e, draw !! i = Some e ∧ e ≠ 0) ∧ ∀ j, (j < i)%nat → draw !! j = Some 0.

(** [m_z[z]], 0 out of range. *)
Definition doc_count_of (mgp : MovieGroupProcess) (z : nat) : Z :=
  default 0 (mgp.(cluster_doc_count) !! z).

(** The number of clusters [get_top_words] lists: the slice [[-K:]]
    takes everything when [K] is 0 or more than there is. *)
Definition listed_clusters (mgp : MovieGroupProcess) : nat :=
  if decide (mgp.(K) = 0%nat) then length mgp.(cluster_doc_count)
  else (mgp.(K) `min` length mgp.(cluster_doc_count))%nat.

(** The number of entries [[:k_words]] keeps of [n]. *)
Definition kept (k_words : Z) (n : nat) : nat :=
  if k_words <? 0 then Z.to_nat (Z.of_nat n + k_words) else (Z.to_nat k_words `min` n)%nat.

(** What [fit] prints on an empty corpus with [pop] populated clusters:
    a line without transfers for each of the sweeps [0..26] that
    [n_iters] allows, and the closing line once sweep 26 is reached. *)
Definition empty_corpus_output (pop n_iters : nat) : list event :=
  ((λ i, Stage i 0 pop) <$> seq 0 (n_iters `min` 27))
  ++ (if decide (27 ≤ n_iters)%nat then [Converged] else []).

(** [sys.float_info.max] as an integer. An [int] of at most this
    magnitude converts to [float]; on one too large for a [float], Python
    raises [OverflowError] where an [int] meets a [float] in [+] or [*]. *)
Definition float_max : Z := 2 ^ 1024 - 2 ^ 971.

Definition in_float_range (n : Z) : Prop := - float_max ≤ n ≤ float_max.

(** The integers [score(doc)] combines with a float at lines 234-243 are
    within the range of [float]: [number_docs - 1], [K], the counts,
    [vocab_size] and the positions up to [len(doc)]. Floats are read as
    reals here, so the [OverflowError] outside this range is not in
    [score]; the theorems on when [score] raises assume it away. *)
Definition float_operands (mgp : MovieGroupProcess) (doc : list string) : Prop :=
  from_option (λ D, in_float_range (D - 1)) True mgp.(number_docs)
  ∧ in_float_range (Z.of_nat mgp.(K))
  ∧ Forall in_float_range mgp.(cluster_doc_count)
  ∧ Forall in_float_range mgp.(cluster_word_count)
  ∧ from_option in_float_range True mgp.(vocab_size)
  ∧ Forall (Forall (λ wc : string * Z, in_float_range wc.2))
      mgp.(cluster_word_distribution)
  ∧ in_float_range (Z.of_nat (length doc)).

(** The states on which a lookup of [score(doc)] raises ([TypeError],
    [IndexError]): [number_docs] is not set ([None - 1]), or for some
    cluster of [range(K)] there is no document count or, when the
    document has a token, no table, no word count or no [vocab_size]. *)
Definition score_lookup_raises (mgp : MovieGroupProcess) (doc : list string) : Prop :=
  mgp.(number_docs) = None
  ∨ ∃ label, (label < mgp.(K))%nat
      ∧ (mgp.(cluster_doc_count) !! label = None
         ∨ doc ≠ [] ∧ (mgp.(cluster_word_distribution) !! label = None
                       ∨ mgp.(cluster_word_count) !! label = None
                       ∨ mgp.(vocab_size) = None)).

(** The number of tokens of a corpus. *)
Definition corpus_tokens (docs : list (list string)) : Z :=
  total ((λ doc, Z.of_nat (length doc)) <$> docs).

(** What [fit] leaves of a model apart from the counts: the parameters
    and the number of slots of each statistic. *)
Record same_shape (mgp mgp' : MovieGroupProcess) : Prop := {
  ss_K : mgp'.(K) = mgp.(K);
  ss_alpha : mgp'.(alpha) = mgp.(alpha);
  ss_beta : mgp'.(beta) = mgp.(beta);
  ss_n_iters : mgp'.(n_iters) = mgp.(n_iters);
  ss_docs : mgp'.(number_docs) = mgp.(number_docs);
  ss_vocab : mgp'.(vocab_size) = mgp.(vocab_size);
  ss_doc_count : length mgp'.(cluster_doc_count) = length mgp.(cluster_doc_count);
  ss_word_count : length mgp'.(cluster_word_count) = length mgp.(cluster_word_count);
  ss_tables : length mgp'.(cluster_word_distribution)
              = length mgp.(cluster_word_distribution)
}.

(** ** More concrete states *)

Module more_examples.

(** [example.after_first_fit] with the generator one draw further: in
    the next sweep both documents change cluster. *)
Definition moving : @fit_state example.random :=
  @Build_fit_state example.random example.after_first_fit.(self)
    [Some 0%nat; Some 1%nat] 5%nat [Stage 0 0 2].

(** [example.fitted] with the tokens of the first table in the other
    order. *)
Definition reordered : MovieGroupProcess :=
  set_computed (__init__ 3 (1/10) (1/10) 30) (Some 3) (Some 3)
    [2; 0; 1] [4; 0; 1] [[("b", 1); ("a", 3)]; []; [("x", 1)]]%string.

(** A table with two pairs of tokens of equal count. *)
Definition tied : MovieGroupProcess :=
  set_computed (__init__ 1 (1/10) (1/10) 30) (Some 3) (Some 4)
    [3] [6] [[("a", 1); ("b", 2); ("c", 1); ("d", 2)]]%string.

End more_examples.

(** * Proofs *)

(** ** Loops *)

Lemma foldM_invariant {A S : Type} (f : S → A → option S) (P : S → Prop) l s s' :
  (∀ s a s', P s → f s a = Some s' → P s') →
  P s → py.foldM f s l = Some s' → P s'.
Proof.
  intros Hstep. revert s. induction l as [|a l IH]; simpl; intros s Hs Hrun.
  - by simplify_eq.
  - destruct (f s a) as [s1|] eqn:Hf; simplify_eq/=. eauto.
Qed.

Lemma foldM_history_invariant {A S : Type} (f : S → A → option S) (P : S → Prop) l s h :
  (∀ s a s', P s → f s a = Some s' → P s') →
  P s → py.foldM_history f s l = Some h → Forall P h.
Proof.
  intros Hstep. revert s h. induction l as [|a l IH]; simpl; intros s h Hs Hrun.
  - by simplify_eq.
  - destruct (f s a) as [s1|] eqn:Hf; simplify_eq/=.
    destruct (py.foldM_history f s1 l) as [h1|] eqn:Hh; simplify_eq/=.
    constructor; eauto.
Qed.

(** The history of a loop ends in the state the loop returns, and a loop
    has a history exactly when it returns. *)
Lemma foldM_history_last {A S : Type} (f : S → A → option S) l s :
  py.foldM f s l = (h ← py.foldM_history f s l; last (s :: h)).
Proof.
  revert s. induction l as [|a l IH]; simpl; intros s; first done.
  destruct (f s a) as [s1|] eqn:Hf; simpl; last done.
  rewrite IH. by destruct (py.foldM_history f s1 l) as [h|].
Qed.

Lemma foldM_history_length {A S : Type} (f : S → A → option S) l s h :
  py.foldM_history f s l = Some h → length h = length l.
Proof.
  revert s h. induction l as [|a l IH]; simpl; intros s h Hrun; first by simplify_eq.
  destruct (f s a) as [s1|]; simplify_eq/=.
  destruct (py.foldM_history f s1 l) as [h1|] eqn:Hh; simplify_eq/=. eauto.
Qed.

(** ** Dictionaries *)

(** Case analysis on the key comparisons of a dictionary operation. *)
Ltac dict_cases := simpl; repeat (case_decide; simplify_eq/=); try done.

Section Dict.
Context {Key V : Type} `{EqDecision Key}.
Implicit Types (d : list (Key * V)) (k : Key) (v : V).

Lemma dict_get_set_eq d k v : py.dict_get (py.dict_set d k v) k = Some v.
Proof. induction d as [|[k' v'] d IH]; dict_cases. Qed.

Lemma dict_get_set_ne d k k' v :
  k ≠ k' → py.dict_get (py.dict_set d k v) k' = py.dict_get d k'.
Proof. intros Hne. induction d as [|[k1 v1] d IH]; dict_cases. Qed.

Lemma dict_set_set d k v v' : py.dict_set (py.dict_set d k v) k v' = py.dict_set d k v'.
Proof. induction d as [|[k' w] d IH]; dict_cases. congruence. Qed.

Lemma dict_del_set d k v : py.dict_del (py.dict_set d k v) k = py.dict_del d k.
Proof. induction d as [|[k' w] d IH]; dict_cases. congruence. Qed.

Lemma dict_set_values (P : V → Prop) d k v :
  Forall (λ kv, P kv.2) d → P v → Forall (λ kv, P kv.2) (py.dict_set d k v).
Proof.
  intros Hd Hv. induction Hd as [|[k' w] d Hw Hd IH]; simpl; first by repeat constructor.
  destruct (decide (k' = k)); constructor; auto.
Qed.

Lemma dict_del_values (P : Key * V → Prop) d k :
  Forall P d → Forall P (py.dict_del d k).
Proof.
  induction 1 as [|[k' w] d Hw Hd IH]; simpl; first done.
  destruct (decide (k' = k)); auto.
Qed.

Lemma dict_get_values (P : V → Prop) d k v :
  Forall (λ kv, P kv.2) d → py.dict_get d k = Some v → P v.
Proof.
  induction 1 as [|[k' w] d Hw Hd IH]; simpl; first done.
  case_decide; intros; simplify_eq/=; auto.
Qed.

Lemma dict_get_keys d k : is_Some (py.dict_get d k) ↔ k ∈ d.*1.
Proof.
  induction d as [|[k' w] d IH]; simpl.
  - split; [by intros [? ?] | by intros ?%elem_of_nil].
  - rewrite elem_of_cons. case_decide; subst.
    + split; eauto.
    + rewrite IH. split; [by right | by intros [?|?]].
Qed.

Lemma dict_set_keys_old d k v : k ∈ d.*1 → (py.dict_set d k v).*1 = d.*1.
Proof.
  induction d as [|[k' w] d IH]; csimpl; first by intros ?%elem_of_nil.
  intros Hk. case_decide; csimpl; first done.
  f_equal. apply IH. apply elem_of_cons in Hk as [?|?]; [congruence | done].
Qed.

Lemma dict_set_keys_new d k v : k ∉ d.*1 → (py.dict_set d k v).*1 = d.*1 ++ [k].
Proof.
  induction d as [|[k' w] d IH]; csimpl; first done.
  intros [Hne Hk]%not_elem_of_cons. rewrite decide_False by done. csimpl.
  f_equal. by apply IH.
Qed.

End Dict.

(** ** Totals *)

Lemma total_alter (f : Z → Z) l i x :
  l !! i = Some x → total (alter f i l) = total l - x + f x.
Proof.
  revert i. induction l as [|y l IH]; intros [|i] Hi; simplify_eq/=; first lia.
  rewrite (IH i Hi). lia.
Qed.

Lemma list_add_alter l i d l' :
  list_add l i d = Some l' → is_Some (l !! i) ∧ l' = alter (λ x, x + d) i l.
Proof.
  unfold list_add. intros Hl. destruct (l !! i) as [x|] eqn:Hi; simplify_eq/=.
  split; first by eauto.
  revert i Hi. induction l as [|y l IH]; intros [|i] Hi; simplify_eq/=; first done.
  f_equal. by apply IH.
Qed.

Lemma list_add_total l i d l' : list_add l i d = Some l' → total l' = total l + d.
Proof.
  intros [[x Hx] ->]%list_add_alter. rewrite (total_alter _ _ _ x) by done. lia.
Qed.

Lemma list_add_length l i d l' : list_add l i d = Some l' → length l' = length l.
Proof. intros [_ ->]%list_add_alter. apply length_alter. Qed.

Lemma dict_total_set_Some (d : dict) w c v :
  py.dict_get d w = Some c → dict_total (py.dict_set d w v) = dict_total d - c + v.
Proof.
  unfold dict_total, total. induction d as [|[k x] d IH]; csimpl; first done.
  destruct (decide (k = w)); intros Hget; simplify_eq; csimpl; first lia.
  rewrite IH by done. lia.
Qed.

Lemma dict_total_set_None (d : dict) w v :
  py.dict_get d w = None → dict_total (py.dict_set d w v) = dict_total d + v.
Proof.
  unfold dict_total, total. induction d as [|[k x] d IH]; csimpl; first (intros _; lia).
  destruct (decide (k = w)); intros Hget; simplify_eq; csimpl.
  rewrite IH by done. lia.
Qed.

Lemma dict_total_del (d : dict) w c :
  py.dict_get d w = Some c → dict_total (py.dict_del d w) = dict_total d - c.
Proof.
  unfold dict_total, total. induction d as [|[k x] d IH]; csimpl; first done.
  destruct (decide (k = w)); intros Hget; simplify_eq; csimpl; first lia.
  rewrite IH by done. lia.
Qed.

Lemma list_insert_as_alter {A : Type} (f : A → A) (l : list A) i x :
  l !! i = Some x → <[i := f x]> l = alter f i l.
Proof.
  revert i. induction l as [|y l IH]; intros [|i] Hi; simplify_eq/=; first done.
  f_equal. by apply IH.
Qed.

(** ** One token, one document *)

Lemma add_word_eq z n_z_w w :
  add_word z n_z_w w = (d ← n_z_w !! z; Some (<[z := count_up d w]> n_z_w)).
Proof.
  unfold add_word, count_up. destruct (n_z_w !! z) as [d|]; simpl; last done.
  destruct (py.dict_get d w) as [c|] eqn:Hget; simpl.
  - by rewrite Hget.
  - rewrite dict_get_set_eq. simpl. by rewrite dict_set_set.
Qed.

Lemma remove_word_eq z n_z_w w :
  remove_word z n_z_w w =
  (d ← n_z_w !! z; c ← py.dict_get d w; Some (<[z := count_down d w c]> n_z_w)).
Proof.
  unfold remove_word, count_down. destruct (n_z_w !! z) as [d|]; simpl; last done.
  destruct (py.dict_get d w) as [c|]; simpl; last done.
  case_decide; by rewrite ?dict_del_set.
Qed.

Lemma count_up_total d w : dict_total (count_up d w) = dict_total d + 1.
Proof.
  unfold count_up. destruct (py.dict_get d w) as [c|] eqn:Hget; simpl.
  - rewrite (dict_total_set_Some _ _ c) by done. lia.
  - rewrite dict_total_set_None by done. lia.
Qed.

Lemma count_up_positive d w :
  Forall (λ wc, 0 < wc.2) d → Forall (λ wc, 0 < wc.2) (count_up d w).
Proof.
  intros Hd. apply (dict_set_values (λ c, 0 < c)); first done.
  destruct (py.dict_get d w) as [c|] eqn:Hget; simpl; last lia.
  pose proof (dict_get_values (λ c, 0 < c) _ _ _ Hd Hget) as Hc. simpl in Hc. lia.
Qed.

Lemma count_down_total d w c :
  py.dict_get d w = Some c → dict_total (count_down d w c) = dict_total d - 1.
Proof.
  intros Hget. unfold count_down. case_decide.
  - rewrite (dict_total_del _ _ c) by done. lia.
  - rewrite (dict_total_set_Some _ _ c) by done. lia.
Qed.

Lemma count_down_positive d w c :
  py.dict_get d w = Some c →
  Forall (λ wc, 0 < wc.2) d → Forall (λ wc, 0 < wc.2) (count_down d w c).
Proof.
  intros Hget Hd. unfold count_down. case_decide.
  - by apply dict_del_values.
  - apply (dict_set_values (λ c, 0 < c)); first done.
    pose proof (dict_get_values (λ c, 0 < c) _ _ _ Hd Hget) as Hc. simpl in Hc. lia.
Qed.

(** Adding the tokens of [doc] to cluster [z] raises its total by
    [len(doc)], keeps every stored count positive and touches no other
    table. *)
Lemma add_words_spec z doc n_z_w n_z_w' :
  py.foldM (add_word z) n_z_w doc = Some n_z_w' →
  dict_total <$> n_z_w' = alter (λ t, t + Z.of_nat (length doc)) z (dict_total <$> n_z_w)
  ∧ (Forall (Forall (λ wc, 0 < wc.2)) n_z_w → Forall (Forall (λ wc, 0 < wc.2)) n_z_w').
Proof.
  revert n_z_w. induction doc as [|w doc IH]; intros n_z_w Hrun; simplify_eq/=.
  { split; [|done]. symmetry. apply list_alter_id. intros; lia. }
  rewrite add_word_eq in Hrun.
  destruct (n_z_w !! z) as [d|] eqn:Hz; simplify_eq/=.
  destruct (IH _ Hrun) as [Htot Hpos]. split.
  - rewrite Htot, list_fmap_insert, count_up_total.
    rewrite (list_insert_as_alter (λ t, t + 1)) by (by rewrite list_lookup_fmap, Hz).
    rewrite list_alter_alter_eq. apply list_alter_ext; [|done]. intros; simpl; lia.
  - intros Hall. apply Hpos, Forall_insert; first done.
    apply count_up_positive. by eapply Forall_lookup_1.
Qed.

Lemma remove_words_spec z doc n_z_w n_z_w' :
  py.foldM (remove_word z) n_z_w doc = Some n_z_w' →
  dict_total <$> n_z_w' = alter (λ t, t - Z.of_nat (length doc)) z (dict_total <$> n_z_w)
  ∧ (Forall (Forall (λ wc, 0 < wc.2)) n_z_w → Forall (Forall (λ wc, 0 < wc.2)) n_z_w').
Proof.
  revert n_z_w. induction doc as [|w doc IH]; intros n_z_w Hrun; simplify_eq/=.
  { split; [|done]. symmetry. apply list_alter_id. intros; lia. }
  rewrite remove_word_eq in Hrun.
  destruct (n_z_w !! z) as [d|] eqn:Hz; simplify_eq/=.
  destruct (py.dict_get d w) as [c|] eqn:Hget; simplify_eq/=.
  destruct (IH _ Hrun) as [Htot Hpos]. split.
  - rewrite Htot, list_fmap_insert, (count_down_total _ _ c) by done.
    rewrite (list_insert_as_alter (λ t, t - 1)) by (by rewrite list_lookup_fmap, Hz).
    rewrite list_alter_alter_eq. apply list_alter_ext; [|done]. intros; simpl; lia.
  - intros Hall. apply Hpos, Forall_insert; first done.
    apply count_down_positive; first done. by eapply Forall_lookup_1.
Qed.

(** A document moved into or out of a cluster changes the number of
    assigned documents by one and keeps the other invariants. *)
Lemma add_doc_stats_ok D z doc mgp mgp' :
  stats_ok D mgp → add_doc z doc mgp = Some mgp' → stats_ok (D + 1) mgp'.
Proof.
  intros [Hdocs Hwords Hpos]. unfold add_doc. intros Hrun.
  destruct (list_add _ z 1) as [m_z|] eqn:Hm; simplify_eq/=.
  destruct (list_add _ z (Z.of_nat _)) as [n_z|] eqn:Hn; simplify_eq/=.
  destruct (py.foldM _ _ doc) as [n_z_w|] eqn:Hw; simplify_eq/=.
  apply add_words_spec in Hw as [Htot Hpos']. split; simpl.
  - rewrite (list_add_total _ _ _ _ Hm). lia.
  - apply list_add_alter in Hn as [_ ->]. by rewrite Htot, Hwords.
  - auto.
Qed.

Lemma remove_doc_stats_ok D z doc mgp mgp' :
  stats_ok D mgp → remove_doc z doc mgp = Some mgp' → stats_ok (D - 1) mgp'.
Proof.
  intros [Hdocs Hwords Hpos]. unfold remove_doc. intros Hrun.
  destruct (list_add _ z (-1)) as [m_z|] eqn:Hm; simplify_eq/=.
  destruct (list_add _ z (- Z.of_nat _)) as [n_z|] eqn:Hn; simplify_eq/=.
  destruct (py.foldM _ _ doc) as [n_z_w|] eqn:Hw; simplify_eq/=.
  apply remove_words_spec in Hw as [Htot Hpos']. split; simpl.
  - rewrite (list_add_total _ _ _ _ Hm). lia.
  - apply list_add_alter in Hn as [_ ->]. rewrite Htot, Hwords.
    apply list_alter_ext; [|done]. intros; lia.
  - auto.
Qed.

(** Neither touches the configuration or the two slots [fit] sets. *)
Lemma add_doc_config z doc mgp mgp' :
  add_doc z doc mgp = Some mgp' →
  mgp'.(K) = mgp.(K) ∧ mgp'.(alpha) = mgp.(alpha) ∧ mgp'.(beta) = mgp.(beta)
  ∧ mgp'.(n_iters) = mgp.(n_iters) ∧ mgp'.(number_docs) = mgp.(number_docs)
  ∧ mgp'.(vocab_size) = mgp.(vocab_size).
Proof.
  unfold add_doc. intros Hrun.
  destruct (list_add _ z 1) as [m_z|]; simplify_eq/=.
  destruct (list_add _ z (Z.of_nat _)) as [n_z|]; simplify_eq/=.
  destruct (py.foldM _ _ doc) as [n_z_w|]; by simplify_eq/=.
Qed.

Lemma remove_doc_config z doc mgp mgp' :
  remove_doc z doc mgp = Some mgp' →
  mgp'.(K) = mgp.(K) ∧ mgp'.(alpha) = mgp.(alpha) ∧ mgp'.(beta) = mgp.(beta)
  ∧ mgp'.(n_iters) = mgp.(n_iters) ∧ mgp'.(number_docs) = mgp.(number_docs)
  ∧ mgp'.(vocab_size) = mgp.(vocab_size).
Proof.
  unfold remove_doc. intros Hrun.
  destruct (list_add _ z (-1)) as [m_z|]; simplify_eq/=.
  destruct (list_add _ z (- Z.of_nat _)) as [n_z|]; simplify_eq/=.
  destruct (py.foldM _ _ doc) as [n_z_w|]; by simplify_eq/=.
Qed.

(** ** Invariants of the statistics during [fit] *)

Section Invariants.
Context `{!np.numpy} `{!np.random}.

Lemma init_doc_stats_ok D D0 s idoc s' :
  stats_ok D s.(self) → s.(self).(number_docs) = Some D0 →
  init_doc s idoc = Some s' →
  stats_ok (D + 1) s'.(self) ∧ s'.(self).(number_docs) = Some D0.
Proof.
  destruct idoc as [i doc]. unfold init_doc. intros Hok HD Hrun.
  destruct (_sample _ _) as [[z g]|]; simplify_eq/=.
  destruct (add_doc z doc (self s)) as [mgp|] eqn:Hadd; simplify_eq/=.
  split; first by eapply add_doc_stats_ok.
  destruct (add_doc_config _ _ _ _ Hadd) as (?&?&?&?&?&?). congruence.
Qed.

Lemma reassign_fit_ok D st idoc st' :
  fit_ok D st.1 → reassign st idoc = Some st' → fit_ok D st'.1.
Proof.
  destruct st as [s t], idoc as [i doc]. unfold reassign, fit_ok. simpl.
  intros [Hok HD] Hrun.
  destruct (mjoin (d_z s !! i)) as [z_old|]; simplify_eq/=.
  destruct (remove_doc z_old doc (self s)) as [mgp1|] eqn:Hrem; simplify_eq/=.
  destruct (score mgp1 doc) as [p|]; simplify_eq/=.
  destruct (_sample p (gen s)) as [[z_new g]|]; simplify_eq/=.
  destruct (add_doc z_new doc mgp1) as [mgp2|] eqn:Hadd; simplify_eq/=.
  split.
  - replace D with (D - 1 + 1) by lia.
    eapply add_doc_stats_ok; [by eapply remove_doc_stats_ok | done].
  - destruct (add_doc_config _ _ _ _ Hadd) as (?&?&?&?&?&?).
    destruct (remove_doc_config _ _ _ _ Hrem) as (?&?&?&?&?&?). congruence.
Qed.

Lemma sweep_fit_ok D docs s s' t :
  fit_ok D s → sweep docs s = Some (s', t) → fit_ok D s'.
Proof.
  intros Hok Hrun.
  apply (foldM_invariant reassign (λ st, fit_ok D st.1) (py.enumerate docs)
           (s, 0%nat) (s', t) (reassign_fit_ok D) Hok Hrun).
Qed.

Lemma init_docs_stats_ok l D D0 s s' :
  stats_ok D s.(self) → s.(self).(number_docs) = Some D0 →
  py.foldM init_doc s l = Some s' →
  stats_ok (D + Z.of_nat (length l)) s'.(self) ∧ s'.(self).(number_docs) = Some D0.
Proof.
  revert D s. induction l as [|idoc l IH]; intros D s Hok HD Hrun; simplify_eq/=.
  { split; [by rewrite Z.add_0_r | done]. }
  destruct (init_doc s idoc) as [s1|] eqn:Hinit; simplify_eq/=.
  destruct (init_doc_stats_ok _ _ _ _ _ Hok HD Hinit) as [Hok1 HD1].
  replace (D + Z.of_nat (S (length l))) with ((D + 1) + Z.of_nat (length l)) by lia.
  by apply (IH _ s1).
Qed.

Lemma initialize_fit_ok mgp docs V g s :
  stats_ok 0 mgp → initialize mgp docs V g = Some s →
  fit_ok (Z.of_nat (length docs)) s.
Proof.
  unfold initialize, py.enumerate. intros [Hdocs Hwords Hpos] Hrun.
  eapply init_docs_stats_ok in Hrun as [Hok HD]; [|by split|done].
  rewrite length_imap, Z.add_0_l in Hok. by split.
Qed.

Lemma fresh_stats_ok K alpha beta n_iters : stats_ok 0 (__init__ K alpha beta n_iters).
Proof.
  split; simpl.
  - induction K as [|K IH]; [done | by rewrite replicate_S].
  - by rewrite fmap_replicate.
  - by apply Forall_replicate.
Qed.

Lemma sweeps_history_fit_ok D docs iters cluster_count s h :
  fit_ok D s → sweeps_history docs iters cluster_count s = Some h → Forall (fit_ok D) h.
Proof.
  revert cluster_count s h.
  induction iters as [|i iters IH]; intros cc s h Hok Hrun; first by simplify_eq/=.
  cbn [sweeps_history] in Hrun.
  apply bind_Some in Hrun as (h1 & Hh1 & Hrun).
  apply bind_Some in Hrun as ([s1 t] & Hsweep & Hrun). cbv beta iota zeta in Hrun.
  assert (Forall (fit_ok D) h1.*1) as Hh.
  { apply Forall_fmap.
    apply (foldM_history_invariant reassign (λ st, fit_ok D st.1) (py.enumerate docs)
             (s, 0%nat) h1 (reassign_fit_ok D) Hok Hh1). }
  case_decide; simplify_eq; first exact Hh.
  apply bind_Some in Hrun as (h2 & Hh2 & Hrun). simplify_eq.
  apply Forall_app; split; first exact Hh.
  eapply IH; [|done]. exact (sweep_fit_ok _ _ _ _ _ Hok Hsweep).
Qed.

Lemma sweeps_history_sound docs iters cluster_count s :
  match sweeps docs iters cluster_count s, sweeps_history docs iters cluster_count s with
  | Some s', Some h => ∃ x, last (s :: h) = Some x ∧ same_run x s'
  | None, None => True
  | _, _ => False
  end.
Proof.
  revert cluster_count s. induction iters as [|i iters IH]; intros cc s.
  { simpl. by exists s. }
  cbn [sweeps sweeps_history]. unfold sweep.
  rewrite foldM_history_last.
  destruct (py.foldM_history _ _ _) as [h1|] eqn:Hh1; cbn [mbind option_bind]; last done.
  destruct (last ((s, 0%nat) :: h1)) as [[s1 t]|] eqn:Hlast; cbn [mbind option_bind].
  2: { by apply last_None in Hlast. }
  assert (last (s :: h1.*1) = Some s1) as Hlast1.
  { change (s :: h1.*1) with (((s, 0%nat) :: h1).*1). by rewrite fmap_last, Hlast. }
  set (s2 := print _ s1). case_decide.
  - exists s1. by split.
  - specialize (IH (populated (cluster_doc_count (self s1))) s2).
    destruct (sweeps _ _ _ s2) as [s'|], (sweeps_history _ _ _ s2) as [h2|];
      cbn [mbind option_bind]; try done.
    destruct IH as (x & Hx & Hsame).
    rewrite app_comm_cons, last_app.
    destruct h2 as [|y h2].
    + exists s1. simpl in Hx. by simplify_eq.
    + exists x. rewrite last_cons_cons in Hx. by rewrite Hx.
Qed.

Lemma fit_history_sound mgp docs V g :
  match fit mgp docs V g, fit_history mgp docs V g with
  | Some s', Some h => ∀ x, last h = Some x → same_run x s'
  | None, None => True
  | _, _ => False
  end.
Proof.
  unfold fit, fit_history.
  destruct (initialize mgp docs V g) as [s0|]; cbn [mbind option_bind]; last done.
  pose proof (sweeps_history_sound docs (seq 0 (n_iters mgp)) (K mgp) s0) as Hs.
  destruct (sweeps _ _ _ s0) as [s'|], (sweeps_history _ _ _ s0) as [h|]; try done.
  destruct Hs as (x & Hx & Hsame). intros y Hy.
  rewrite last_cons, Hy in Hx. by simplify_eq.
Qed.

(** C1. After every reassignment step of every sweep of [fit] on a fresh
    model, the document counts add up to [D = len(docs)] (which is also
    [number_docs]), every [cluster_word_count[z]] is the sum of the values
    of [cluster_word_distribution[z]], and every stored token count is
    positive. *)
Theorem fit_preserves_invariants K alpha beta n_iters docs V g h :
  fit_history (__init__ K alpha beta n_iters) docs V g = Some h →
  Forall (λ s,
    total s.(self).(cluster_doc_count) = Z.of_nat (length docs)
    ∧ s.(self).(number_docs) = Some (Z.of_nat (length docs))
    ∧ s.(self).(cluster_word_count) = dict_total <$> s.(self).(cluster_word_distribution)
    ∧ Forall (Forall (λ wc, 0 < wc.2)) s.(self).(cluster_word_distribution)) h.
Proof.
  unfold fit_history. intros Hrun.
  apply bind_Some in Hrun as (s0 & Hinit & Hrun).
  apply initialize_fit_ok in Hinit; last apply fresh_stats_ok.
  eapply Forall_impl; first by eapply sweeps_history_fit_ok.
  intros s [[? ? ?] ?]. auto.
Qed.

End Invariants.

(** ** Calling [fit] on a model that already holds counts *)

Section Refit.
Context `{!np.numpy} `{!np.random}.

Lemma add_doc_total z doc mgp mgp' :
  add_doc z doc mgp = Some mgp' →
  total mgp'.(cluster_doc_count) = total mgp.(cluster_doc_count) + 1.
Proof.
  unfold add_doc. intros Hrun.
  apply bind_Some in Hrun as (m_z & Hm & Hrun).
  apply bind_Some in Hrun as (n_z & Hn & Hrun).
  apply bind_Some in Hrun as (n_z_w & Hw & Hrun). simplify_eq/=.
  exact (list_add_total _ _ _ _ Hm).
Qed.

Lemma remove_doc_total z doc mgp mgp' :
  remove_doc z doc mgp = Some mgp' →
  total mgp'.(cluster_doc_count) = total mgp.(cluster_doc_count) - 1.
Proof.
  unfold remove_doc. intros Hrun.
  apply bind_Some in Hrun as (m_z & Hm & Hrun).
  apply bind_Some in Hrun as (n_z & Hn & Hrun).
  apply bind_Some in Hrun as (n_z_w & Hw & Hrun). simplify_eq/=.
  apply list_add_total in Hm. lia.
Qed.

Lemma init_docs_counts l D n s s' :
  counts D n s → py.foldM init_doc s l = Some s' → counts D (n + Z.of_nat (length l)) s'.
Proof.
  revert n s. induction l as [|[i doc] l IH]; intros n s [HD Hn] Hrun; simplify_eq/=.
  { split; [done | lia]. }
  apply bind_Some in Hrun as (s1 & Hinit & Hrun). unfold init_doc in Hinit.
  apply bind_Some in Hinit as ([z g'] & Hz & Hinit).
  apply bind_Some in Hinit as (mgp & Hadd & Hinit). simplify_eq/=.
  replace (total (cluster_doc_count (self s)) + Z.of_nat (S (length l)))
    with ((total (cluster_doc_count (self s)) + 1) + Z.of_nat (length l)) by lia.
  eapply IH; [|done]. split; simpl.
  - by destruct (add_doc_config _ _ _ _ Hadd) as (?&?&?&?&?&?).
  - exact (add_doc_total _ _ _ _ Hadd).
Qed.

Lemma reassign_counts D n st idoc st' :
  counts D n st.1 → reassign st idoc = Some st' → counts D n st'.1.
Proof.
  destruct st as [s t], idoc as [i doc]. unfold reassign. simpl. intros [HD Hn] Hrun.
  apply bind_Some in Hrun as (z_old & Hz & Hrun).
  apply bind_Some in Hrun as (mgp1 & Hrem & Hrun).
  apply bind_Some in Hrun as (p & Hp & Hrun).
  apply bind_Some in Hrun as ([z_new g'] & Hnew & Hrun).
  apply bind_Some in Hrun as (mgp2 & Hadd & Hrun). simplify_eq/=.
  split; simpl.
  - destruct (add_doc_config _ _ _ _ Hadd) as (?&?&?&?&?&?).
    destruct (remove_doc_config _ _ _ _ Hrem) as (?&?&?&?&?&?). congruence.
  - apply add_doc_total in Hadd. apply remove_doc_total in Hrem. lia.
Qed.

Lemma sweeps_counts D n docs iters cluster_count s s' :
  counts D n s → sweeps docs iters cluster_count s = Some s' → counts D n s'.
Proof.
  revert cluster_count s.
  induction iters as [|i iters IH]; intros cc s Hs Hrun; first by simplify_eq/=.
  cbn [sweeps] in Hrun.
  apply bind_Some in Hrun as ([s1 t] & Hsweep & Hrun). cbv beta iota zeta in Hrun.
  pose proof (foldM_invariant reassign (λ st, counts D n st.1) (py.enumerate docs)
                (s, 0%nat) (s1, t) (reassign_counts D n) Hs Hsweep) as Hs1.
  case_decide; simplify_eq; first exact Hs1.
  eapply IH; [|done]. exact Hs1.
Qed.

Lemma initialize_counts mgp docs V g s :
  initialize mgp docs V g = Some s →
  counts (Some (Z.of_nat (length docs)))
    (total mgp.(cluster_doc_count) + Z.of_nat (length docs)) s.
Proof.
  unfold initialize, py.enumerate. intros Hrun.
  eapply init_docs_counts in Hrun; [|by split].
  by rewrite length_imap in Hrun.
Qed.

(** C10. [fit] does not reset the statistics at entry: after the
    initialisation pass, and still when [fit] returns, the document counts
    add up to what they added up to at entry plus [D = len(docs)], while
    [number_docs] is [D]. So [sum(cluster_doc_count) == number_docs] holds
    exactly when the counts added up to zero at entry, as on a fresh
    model; after a first [fit] of [docs0] a second [fit] on the same object
    ends with [len(docs0) + len(docs)] counted documents, which differs
    from [number_docs] unless [docs0] was empty. *)
Theorem fit_accumulates_counts mgp docs V g s :
  let D := Z.of_nat (length docs) in
  (initialize mgp docs V g = Some s ∨ fit mgp docs V g = Some s) →
  s.(self).(number_docs) = Some D
  ∧ total s.(self).(cluster_doc_count) = total mgp.(cluster_doc_count) + D
  ∧ (total s.(self).(cluster_doc_count) = D ↔ total mgp.(cluster_doc_count) = 0)
  ∧ ∀ K alpha beta n_iters docs0 V0 g0 s0,
      fit (__init__ K alpha beta n_iters) docs0 V0 g0 = Some s0 → mgp = s0.(self) →
      total s.(self).(cluster_doc_count) = Z.of_nat (length docs0) + D
      ∧ (total s.(self).(cluster_doc_count) = D ↔ docs0 = []).
Proof.
  intros D Hrun.
  assert (counts (Some D) (total mgp.(cluster_doc_count) + D) s) as [HD Hn].
  { destruct Hrun as [Hrun|Hrun]; first by eapply initialize_counts.
    unfold fit in Hrun. apply bind_Some in Hrun as (s1 & Hinit & Hrun).
    eapply sweeps_counts; [|done]. by eapply initialize_counts. }
  split; [done|]. split; [done|]. split; [lia|].
  intros K0 a b n docs0 V0 g0 s0 Hfit0 ->.
  unfold fit in Hfit0. apply bind_Some in Hfit0 as (s1 & Hinit & Hfit0).
  apply initialize_counts in Hinit.
  destruct (sweeps_counts _ _ _ _ _ _ _ Hinit Hfit0) as [_ Hn0].
  assert (total (cluster_doc_count (__init__ K0 a b n)) = 0) as Hfresh
    by apply (docs_assigned _ _ (fresh_stats_ok K0 a b n)).
  rewrite Hfresh in Hn0. split; first lia.
  rewrite Hn, Hn0. destruct docs0; simpl; split; intros; simplify_eq; try done; lia.
Qed.

End Refit.

(** ** The convergence rule *)

Section Convergence.
Context `{!np.numpy} `{!np.random}.

Lemma sweeps_refines docs n i cluster_count s :
  ((25 < i)%nat → cluster_count = populated s.(self).(cluster_doc_count)) →
  sweeps docs (seq i n) cluster_count s = sweeps_spec docs (seq i n) s.
Proof.
  revert i cluster_count s. induction n as [|n IH]; intros i cc s Hcc; first done.
  cbn [seq sweeps sweeps_spec].
  destruct (sweep docs s) as [[s1 t]|]; cbn [mbind option_bind]; last done.
  cbv beta iota zeta. destruct (decide (25 < i)%nat) as [Hi|Hi].
  - rewrite (Hcc Hi). case_decide; [done | by apply IH].
  - rewrite !decide_False by (intros (_&_&?); done). by apply IH.
Qed.

Lemma reassign_stdout st idoc st' :
  reassign st idoc = Some st' → st'.1.(stdout) = st.1.(stdout).
Proof.
  destruct st as [s t], idoc as [i doc]. unfold reassign. intros Hrun.
  apply bind_Some in Hrun as (z_old & Hz & Hrun).
  apply bind_Some in Hrun as (mgp1 & Hrem & Hrun).
  apply bind_Some in Hrun as (p & Hp & Hrun).
  apply bind_Some in Hrun as ([z_new g'] & Hnew & Hrun).
  apply bind_Some in Hrun as (mgp2 & Hadd & Hrun). by simplify_eq/=.
Qed.

Lemma sweep_stdout docs s s' t : sweep docs s = Some (s', t) → s'.(stdout) = s.(stdout).
Proof.
  intros Hrun.
  apply (foldM_invariant reassign (λ st, st.1.(stdout) = s.(stdout)) (py.enumerate docs)
           (s, 0%nat) (s', t)); [|done..].
  intros st a st' Hst Hstep. by rewrite (reassign_stdout _ _ _ Hstep).
Qed.

Lemma initialize_stdout mgp docs V g s :
  initialize mgp docs V g = Some s → s.(stdout) = [].
Proof.
  unfold initialize. intros Hrun.
  apply (foldM_invariant init_doc (λ s, s.(stdout) = []) _ _ _) in Hrun; [done| |done].
  intros s1 [i doc] s2 Hs1 Hstep. unfold init_doc in Hstep.
  apply bind_Some in Hstep as ([z g'] & Hz & Hstep).
  apply bind_Some in Hstep as (mgp' & Hadd & Hstep). by simplify_eq/=.
Qed.

(** What the sweeps of [range(i, i + n)] print: one stage line per sweep
    run, with consecutive indices from [i], then the convergence line if
    the loop was left by [break], which takes a sweep index above 25. *)
Lemma sweeps_stdout docs n i cluster_count s s' :
  sweeps docs (seq i n) cluster_count s = Some s' →
  ∃ stages (broke : bool),
    s'.(stdout) = s.(stdout) ++ stages ++ (if broke then [Converged] else [])
    ∧ stage_index <$> stages = Some <$> seq i (length stages)
    ∧ (length stages ≤ n)%nat
    ∧ if broke then (26 < i + length stages)%nat else length stages = n.
Proof.
  revert i cluster_count s. induction n as [|n IH]; intros i cc s Hrun.
  { simplify_eq/=. exists [], false. by rewrite app_nil_r. }
  cbn [seq sweeps] in Hrun.
  apply bind_Some in Hrun as ([s1 t] & Hsweep & Hrun). cbv beta iota zeta in Hrun.
  apply sweep_stdout in Hsweep. case_decide as Hconv.
  - simplify_eq. eexists [_], true. simpl. rewrite Hsweep, <-app_assoc.
    repeat split; [lia|]. destruct Hconv as (_&_&?). lia.
  - apply IH in Hrun as (stages & broke & Hout & Hidx & Hlen & Hbroke).
    eexists (_ :: stages), broke. simpl in Hout. rewrite Hout, Hsweep, <-app_assoc.
    split; [done|]. split; [csimpl; by rewrite Hidx|]. cbn [length].
    split; [lia|]. destruct broke; lia.
Qed.

(** C4. [fit] runs the sweep loop of the specification: it leaves the
    loop by [break] after a sweep exactly when that sweep transferred
    nothing, left as many populated clusters as there were before it, and
    has an index above 25. So a call that returns has printed one stage
    line per sweep, for the indices [0, 1, ...], at most [n_iters] of them;
    if it broke out, at least 27 sweeps (indices 0 to 26) ran, and if not,
    exactly [n_iters]. *)
Theorem fit_convergence_rule mgp docs V g :
  fit mgp docs V g = fit_spec mgp docs V g
  ∧ ∀ s, fit mgp docs V g = Some s →
      ∃ stages (broke : bool),
        s.(stdout) = stages ++ (if broke then [Converged] else [])
        ∧ stage_index <$> stages = Some <$> seq 0 (length stages)
        ∧ (length stages ≤ mgp.(n_iters))%nat
        ∧ if broke then (26 < length stages)%nat else length stages = mgp.(n_iters).
Proof.
  unfold fit, fit_spec. split.
  - destruct (initialize mgp docs V g) as [s0|]; cbn [mbind option_bind]; last done.
    apply sweeps_refines. lia.
  - intros s Hrun. apply bind_Some in Hrun as (s0 & Hinit & Hrun).
    apply initialize_stdout in Hinit.
    apply sweeps_stdout in Hrun as (stages & broke & Hout & Hrest).
    exists stages, broke. by rewrite Hout, Hinit.
Qed.

End Convergence.

(** ** The scorer *)

Lemma foldM_ext {A S : Type} (f g : S → A → option S) l s :
  (∀ s a, a ∈ l → f s a = g s a) → py.foldM f s l = py.foldM g s l.
Proof.
  revert s. induction l as [|a l IH]; intros s Hfg; simpl; first done.
  rewrite Hfg by left. destruct (g s a) as [s'|]; simpl; last done.
  apply IH. intros s1 b Hb. apply Hfg. by right.
Qed.

(** A loop [acc += g(a)] computes the sum of the [g(a)]. *)
Lemma foldM_accumulate {A : Type} (g : A → R) l acc :
  py.foldM (λ acc a, Some (acc + g a)%R) acc l = Some (acc + Rsum (g <$> l))%R.
Proof.
  unfold Rsum. revert acc. induction l as [|a l IH]; intros acc; csimpl.
  - f_equal. lra.
  - rewrite IH. f_equal. lra.
Qed.

(** A loop [p[i] = g(i)] over [range(n)] fills a list of length [n]. *)
Lemma foldM_fill {A : Type} (f : nat → option A) (g : nat → A) (x0 : A) n :
  (∀ i, (i < n)%nat → f i = Some (g i)) →
  py.foldM (λ p i, w ← f i; Some (<[i := w]> p)) (replicate n x0) (seq 0 n)
  = Some (g <$> seq 0 n).
Proof.
  intros Hf.
  cut (∀ m k, (k + m = n)%nat →
         py.foldM (λ p i, w ← f i; Some (<[i := w]> p))
           ((g <$> seq 0 k) ++ replicate m x0) (seq k m) = Some (g <$> seq 0 n)).
  { intros Hgen. apply (Hgen n 0%nat). lia. }
  induction m as [|m IH]; intros k Hk; simpl.
  - rewrite app_nil_r. do 3 f_equal. lia.
  - rewrite Hf by lia. simpl.
    rewrite insert_app_r_alt by (rewrite length_fmap, length_seq; lia).
    rewrite length_fmap, length_seq, Nat.sub_diag. simpl.
    rewrite (cons_middle (g k)), app_assoc.
    replace ((g <$> seq 0 k) ++ [g k]) with (g <$> seq 0 (S k))
      by (by rewrite seq_S, fmap_app).
    apply IH. lia.
Qed.

Lemma py_sum_Rsum p : py.sum p = Rsum p.
Proof.
  unfold py.sum. cut (∀ a, fold_left Rplus p a = (a + Rsum p)%R).
  { intros ->. lra. }
  unfold Rsum. induction p as [|x p IH]; intros a; simpl; [lra | rewrite IH; lra].
Qed.

Lemma Rsum_scale (c : R) p : Rsum ((λ x, x / c)%R <$> p) = (Rsum p / c)%R.
Proof. unfold Rsum. induction p as [|x p IH]; csimpl; [lra | rewrite IH; lra]. Qed.

Section Scorer.
Context `{!np.numpy}.

Lemma score_label_spec mgp D V doc label :
  scorable mgp D V → (label < mgp.(K))%nat →
  score_label mgp doc (np.log (IZR D - 1 + INR mgp.(K) * mgp.(alpha))%R) label
  = Some (posterior_weight mgp D V doc label).
Proof.
  intros [HD HV Hm Hn Hw] Hlabel. unfold score_label, posterior_weight, freq.
  destruct (lookup_lt_is_Some_2 mgp.(cluster_doc_count) label) as [m ->]; first lia.
  destruct (lookup_lt_is_Some_2 mgp.(cluster_word_count) label) as [n ->]; first lia.
  destruct (lookup_lt_is_Some_2 mgp.(cluster_word_distribution) label) as [d ->];
    first lia.
  rewrite HV. simpl.
  rewrite (foldM_accumulate
             (λ w, np.log (IZR (default 0%Z (py.dict_get d w)) + beta mgp)%R)).
  simpl.
  rewrite (foldM_accumulate (λ j, np.log (IZR n + IZR V * beta mgp + INR j - 1)%R)).
  simpl. by rewrite !Rplus_0_l.
Qed.

Lemma score_unnormalized_spec mgp D V doc :
  scorable mgp D V →
  score_unnormalized mgp doc = Some (posterior_weight mgp D V doc <$> seq 0 mgp.(K)).
Proof.
  intros Hok. unfold score_unnormalized. rewrite (docs_set _ _ _ Hok). simpl.
  apply foldM_fill. intros i Hi. by apply score_label_spec.
Qed.

(** C2. On a state with [number_docs = D], [vocab_size = V] and
    statistics covering the [K] clusters, the vector [score] computes
    before normalising holds, for each cluster [z] of [range(K)], the
    weight [exp(lN1 - lD1 + lN2 - lD2)] of the specification, with a
    frequency of 0 for a token absent from the cluster; [score] returns
    that vector normalised. *)
Theorem score_computes_posterior mgp D V doc :
  scorable mgp D V →
  score_unnormalized mgp doc = Some (posterior_weight mgp D V doc <$> seq 0 mgp.(K))
  ∧ score mgp doc = Some (normalize (posterior_weight mgp D V doc <$> seq 0 mgp.(K)))
  ∧ ∀ z w, (z < mgp.(K))%nat →
      (∀ d, mgp.(cluster_word_distribution) !! z = Some d → w ∉ d.*1) →
      freq mgp z w = 0.
Proof.
  intros Hok. pose proof (score_unnormalized_spec mgp D V doc Hok) as Hp.
  split; [done|]. split.
  { unfold score. by rewrite Hp. }
  intros z w Hz Hw. unfold freq.
  destruct (cluster_word_distribution mgp !! z) as [d|]; simpl; last done.
  destruct (py.dict_get d w) as [c|] eqn:Hget; simpl; last done.
  destruct (Hw d eq_refl). apply dict_get_keys. by eauto.
Qed.

Lemma score_length mgp D V doc :
  scorable mgp D V → ∃ p, score mgp doc = Some p ∧ length p = mgp.(K).
Proof.
  intros Hok. unfold score. rewrite (score_unnormalized_spec mgp D V doc Hok). simpl.
  eexists. split; [done|]. unfold normalize.
  by rewrite length_map, length_fmap, length_seq.
Qed.

(** C3. On such a state [score] returns a vector of exactly [K] entries.
    When the weights sum to a positive number, each entry is its weight
    divided by that sum and the entries sum to 1; when they sum to 0 or
    less, the weights are returned as they are, so an all-zero vector
    stays all-zero. *)
Theorem score_normalizes mgp D V doc :
  scorable mgp D V →
  ∃ w p, score_unnormalized mgp doc = Some w ∧ score mgp doc = Some p
    ∧ length w = mgp.(K) ∧ length p = mgp.(K)
    ∧ ((0 < Rsum w)%R → p = (λ x, x / Rsum w)%R <$> w ∧ Rsum p = 1%R)
    ∧ ((Rsum w <= 0)%R → p = w)
    ∧ (Forall (λ x, x = 0%R) w → Forall (λ x, x = 0%R) p).
Proof.
  intros Hok. pose proof (score_unnormalized_spec mgp D V doc Hok) as Hw.
  set (w := posterior_weight mgp D V doc <$> seq 0 (K mgp)) in *.
  assert (length w = K mgp) as Hlen by (unfold w; by rewrite length_fmap, length_seq).
  assert ((Rsum w <= 0)%R → normalize w = w) as Hfallback.
  { intros Hle. unfold normalize. rewrite py_sum_Rsum.
    destruct (Rlt_dec 0 (Rsum w)); first lra.
    rewrite <-(list_fmap_id w) at 2. apply list_fmap_ext. intros _ x _. simpl. lra. }
  exists w, (normalize w). unfold score. rewrite Hw. simpl.
  split; [done|]. split; [done|]. split; [done|].
  split; [by unfold normalize; rewrite length_map|]. split; [|split; [done|]].
  - intros Hpos. unfold normalize. rewrite py_sum_Rsum.
    destruct (Rlt_dec 0 (Rsum w)); last lra. split; first done.
    change (map ?f w) with (f <$> w). rewrite Rsum_scale. field. lra.
  - intros Hzero. rewrite Hfallback; first done.
    clear -Hzero. induction Hzero as [|x l -> _ IH]; simpl; lra.
Qed.

End Scorer.

(** ** The best label *)

(** The scan of [argmax] and of [max] after the prefix [seen], whose
    first maximum [best] stands at [best_i]. *)
Lemma argmax_from_spec seen rest best_i best :
  first_maximum seen best_i best →
  first_maximum (seen ++ rest)
    (np.argmax_from best_i best (length seen) rest)
    (fold_left (λ best y, if Rlt_dec best y then y else best) rest best).
Proof.
  revert seen best_i best.
  induction rest as [|x rest IH]; intros seen bi b Hmax; simpl.
  { by rewrite app_nil_r. }
  destruct Hmax as (Hb & Hle & Hlt).
  assert (bi < length seen)%nat as Hbi by (by eapply lookup_lt_Some).
  rewrite (cons_middle x), app_assoc.
  replace (S (length seen)) with (length (seen ++ [x])) by (rewrite length_app; simpl; lia).
  destruct (Rlt_dec b x) as [Hbx|Hbx]; apply IH; repeat split.
  - by rewrite lookup_app_r, Nat.sub_diag.
  - intros j y [Hy|[_ Hy]]%lookup_app_Some.
    + specialize (Hle _ _ Hy). lra.
    + destruct (j - length seen)%nat; simplify_eq/=. lra.
  - intros j y Hj Hy. rewrite lookup_app_l in Hy by done.
    specialize (Hle _ _ Hy). lra.
  - by rewrite lookup_app_l.
  - intros j y [Hy|[_ Hy]]%lookup_app_Some; first by eauto.
    destruct (j - length seen)%nat; simplify_eq/=. lra.
  - intros j y Hj Hy. rewrite lookup_app_l in Hy by lia. by eauto.
Qed.

Lemma argmax_max_spec p :
  p ≠ [] → ∃ i v, np.argmax p = Some i ∧ py.max p = Some v ∧ first_maximum p i v.
Proof.
  destruct p as [|x p]; first done. intros _. simpl.
  eexists _, _. split; [done|]. split; [done|].
  apply (argmax_from_spec [x] p 0 x). repeat split.
  - intros [|j] y Hy; simplify_eq/=; lra.
  - intros j y Hj. lia.
Qed.

Section BestLabel.
Context `{!np.numpy}.

(** C7. On a state that [score] accepts and with [K >= 1],
    [choose_best_label] returns the index and the value of the maximum
    entry of [score(doc)], the lowest index among tied maxima. It is a
    function of the model that returns no model: the embedding of a
    method that assigns no attribute and updates no list or dictionary. *)
Theorem choose_best_label_spec mgp D V doc :
  scorable mgp D V → (0 < mgp.(K))%nat →
  ∃ p i v, score mgp doc = Some p ∧ choose_best_label mgp doc = Some (i, v)
    ∧ p !! i = Some v
    ∧ (∀ j x, p !! j = Some x → (x <= v)%R)
    ∧ (∀ j x, (j < i)%nat → p !! j = Some x → (x < v)%R).
Proof.
  intros Hok HK.
  destruct (score_length mgp D V doc Hok) as (p & Hp & Hlen).
  destruct (argmax_max_spec p) as (i & v & Hi & Hv & Hmax).
  { intros ->. simpl in Hlen. lia. }
  exists p, i, v. unfold choose_best_label. rewrite Hp. simpl. rewrite Hi, Hv. simpl.
  by destruct Hmax as (?&?&?).
Qed.

End BestLabel.

(** ** Reconstruction *)

Section Reconstruction.
Context `{!np.numpy}.

(** C5. The model [from_data] builds from the state of a model (its
    [K], [alpha], [beta], [number_docs], [vocab_size] and the three
    statistics) scores every document, chooses every best label and
    summarises its clusters as that model does; only [n_iters], which none
    of the three reads, may differ. *)
Theorem from_data_equivalent mgp doc k_words merge_token :
  let mgp' := from_data mgp.(K) mgp.(alpha) mgp.(beta) mgp.(number_docs)
                mgp.(vocab_size) mgp.(cluster_doc_count) mgp.(cluster_word_count)
                mgp.(cluster_word_distribution) in
  score mgp' doc = score mgp doc
  ∧ choose_best_label mgp' doc = choose_best_label mgp doc
  ∧ get_top_words mgp' k_words merge_token = get_top_words mgp k_words merge_token
  ∧ mgp'.(n_iters) = 30%nat.
Proof. by destruct mgp. Qed.

End Reconstruction.

(** ** The summary *)

Section Sorting.
Context {Key : Type}.
Implicit Types (x : Key * Z) (l : list (Key * Z)).

Lemma insert_desc_perm x l : py.insert_desc x l ≡ₚ x :: l.
Proof.
  induction l as [|y l IH]; simpl; first done.
  destruct (x.2 <? y.2); [|done]. by rewrite IH, Permutation_swap.
Qed.

Lemma sorted_desc_perm l : py.sorted_desc l ≡ₚ l.
Proof.
  induction l as [|x l IH]; simpl; first done.
  by rewrite insert_desc_perm, IH.
Qed.

Lemma insert_desc_sorted x l :
  StronglySorted (λ a b, b.2 ≤ a.2) l →
  StronglySorted (λ a b, b.2 ≤ a.2) (py.insert_desc x l).
Proof.
  induction 1 as [|y l Hl IH Hy]; simpl; first by repeat constructor.
  destruct (Z.ltb_spec x.2 y.2) as [Hlt|Hge].
  - constructor; first done.
    rewrite insert_desc_perm. constructor; [lia | done].
  - constructor; first by constructor.
    constructor; first done. eapply Forall_impl; [done|]. simpl. intros; lia.
Qed.

Lemma sorted_desc_sorted l : StronglySorted (λ a b, b.2 ≤ a.2) (py.sorted_desc l).
Proof.
  induction l as [|x l IH]; simpl; [constructor | by apply insert_desc_sorted].
Qed.

End Sorting.

(** A loop [out[k] = g(k)] over distinct keys builds the dictionary of
    the pairs [(k, g(k))] in the order of the keys. *)
Lemma foldM_dict_fill {V : Type} (f : nat → option V) (g : nat → V) keys :
  NoDup keys → (∀ k, k ∈ keys → f k = Some (g k)) →
  py.foldM (λ out k, w ← f k; Some (py.dict_set out k w)) [] keys
  = Some ((λ k, (k, g k)) <$> keys).
Proof.
  intros Hnodup Hf.
  cut (∀ out, (∀ k, k ∈ keys → k ∉ out.*1) →
         py.foldM (λ out k, w ← f k; Some (py.dict_set out k w)) out keys
         = Some (out ++ ((λ k, (k, g k)) <$> keys))).
  { intros Hgen. apply (Hgen []). intros k _. apply not_elem_of_nil. }
  induction Hnodup as [|k keys Hk Hnodup IH]; intros out Hout; simpl.
  { by rewrite app_nil_r. }
  rewrite Hf by left. simpl.
  assert (py.dict_set out k (g k) = out ++ [(k, g k)]) as ->.
  { specialize (Hout k (list_elem_of_here _ _)). clear -Hout.
    induction out as [|[k' v] out IH]; simpl; first done.
    apply not_elem_of_cons in Hout as [Hne Hout].
    rewrite decide_False by done. f_equal. by apply IH. }
  rewrite IH.
  - by rewrite <-app_assoc.
  - intros k' Hk'. by apply Hf; right.
  - intros k' Hk'. rewrite fmap_app, elem_of_app. simpl.
    intros [Hin|Hin%list_elem_of_singleton].
    + by apply (Hout k'); [right|].
    + by subst.
Qed.

Lemma slice_from_all {A : Type} (a : list A) :
  py.slice_from (- Z.of_nat (length a)) a = a.
Proof.
  unfold py.slice_from. destruct (Z.ltb_spec (- Z.of_nat (length a)) 0).
  - by replace (Z.of_nat (length a) + - Z.of_nat (length a)) with 0 by lia.
  - by replace (- Z.of_nat (length a)) with 0 by lia.
Qed.

Lemma dict_get_fmap_keys {V : Type} (g : nat → V) keys k :
  k ∈ keys → py.dict_get ((λ k, (k, g k)) <$> keys) k = Some (g k).
Proof.
  induction keys as [|k' keys IH]; csimpl; first by intros ?%elem_of_nil.
  intros Hk. case_decide; first by subst.
  apply IH. by apply elem_of_cons in Hk as [?|?].
Qed.

Section Summary.
Context `{!np.numpy}.

Lemma get_top_words_eq mgp k_words merge_token :
  np.argsort mgp.(cluster_doc_count) ≡ₚ seq 0 (length mgp.(cluster_doc_count)) →
  length mgp.(cluster_doc_count) = mgp.(K) →
  (mgp.(K) ≤ length mgp.(cluster_word_distribution))%nat →
  get_top_words mgp k_words merge_token
  = Some ((λ z, (z, String.concat merge_token
                      (top_words k_words
                         (default [] (mgp.(cluster_word_distribution) !! z))).*1))
          <$> reverse (np.argsort mgp.(cluster_doc_count))).
Proof.
  intros Hperm Hlen Hcover. unfold get_top_words.
  assert (length (np.argsort mgp.(cluster_doc_count)) = mgp.(K)) as Hlen'.
  { by rewrite Hperm, length_seq. }
  rewrite <-Hlen' at 1. rewrite slice_from_all.
  set (top_index := reverse _).
  assert (top_index ≡ₚ seq 0 mgp.(K)) as Htop.
  { unfold top_index. by rewrite reverse_Permutation, Hperm, Hlen. }
  rewrite <-(foldM_dict_fill
    (λ z, d ← mgp.(cluster_word_distribution) !! z;
          Some (String.concat merge_token (top_words k_words d).*1))).
  - apply foldM_ext. intros out z _.
    by destruct (cluster_word_distribution mgp !! z).
  - rewrite Htop. apply NoDup_seq.
  - intros z Hz. rewrite Htop, elem_of_seq in Hz.
    by destruct (lookup_lt_is_Some_2 mgp.(cluster_word_distribution) z) as [d ->];
      first lia.
Qed.

(** C6. With an [argsort] that returns the indices of its argument in
    some order, statistics of [K] slots and [k_words >= 0],
    [get_top_words] returns a dictionary whose keys are exactly the
    cluster indices [0..K-1]; the value of cluster [z] joins, with the
    separator, the tokens of [min(k_words, len(d))] entries of its table
    [d], in descending order of count, none of them with a smaller count
    than an entry left out; an empty table gives the empty string. *)
Theorem get_top_words_spec mgp k_words merge_token :
  np.argsort mgp.(cluster_doc_count) ≡ₚ seq 0 (length mgp.(cluster_doc_count)) →
  length mgp.(cluster_doc_count) = mgp.(K) →
  (mgp.(K) ≤ length mgp.(cluster_word_distribution))%nat →
  0 ≤ k_words →
  ∃ topic_words,
    get_top_words mgp k_words merge_token = Some topic_words
    ∧ NoDup topic_words.*1
    ∧ (∀ z, z ∈ topic_words.*1 ↔ (z < mgp.(K))%nat)
    ∧ (∀ z d, (z < mgp.(K))%nat → mgp.(cluster_word_distribution) !! z = Some d →
         ∃ top rest,
           py.dict_get topic_words z = Some (String.concat merge_token top.*1)
           ∧ top ++ rest ≡ₚ d
           ∧ length top = (Z.to_nat k_words `min` length d)%nat
           ∧ StronglySorted (λ a b, b.2 ≤ a.2) top
           ∧ ∀ a b, a ∈ top → b ∈ rest → b.2 ≤ a.2)
    ∧ (∀ z, (z < mgp.(K))%nat → mgp.(cluster_word_distribution) !! z = Some [] →
         py.dict_get topic_words z = Some ""%string).
Proof.
  intros Hperm Hlen Hcover Hk. eexists. split; first by apply get_top_words_eq.
  set (top_index := reverse _).
  assert (top_index ≡ₚ seq 0 mgp.(K)) as Htop.
  { unfold top_index. by rewrite reverse_Permutation, Hperm, Hlen. }
  assert (∀ (g : nat → string), ((λ z, (z, g z)) <$> top_index).*1 = top_index) as Hkeys.
  { intros g. rewrite <-list_fmap_compose. apply list_fmap_id. }
  rewrite Hkeys. split; [rewrite Htop; apply NoDup_seq|].
  split; [intros z; rewrite Htop, elem_of_seq; lia|].
  assert (∀ z d, (z < mgp.(K))%nat → mgp.(cluster_word_distribution) !! z = Some d →
    py.dict_get ((λ z, (z, String.concat merge_token
                      (top_words k_words
                         (default [] (mgp.(cluster_word_distribution) !! z))).*1))
                 <$> top_index) z
    = Some (String.concat merge_token (top_words k_words d).*1)) as Hget.
  { intros z d Hz Hd.
    rewrite (dict_get_fmap_keys _ top_index z) by (rewrite Htop, elem_of_seq; lia).
    by rewrite Hd. }
  split.
  - intros z d Hz Hd. rewrite (Hget z d Hz Hd). unfold top_words, py.slice_to.
    rewrite (proj2 (Z.ltb_ge k_words 0) Hk).
    pose proof (sorted_desc_sorted d) as Hsorted.
    rewrite <-(take_drop (Z.to_nat k_words) (py.sorted_desc d)) in Hsorted.
    exists (take (Z.to_nat k_words) (py.sorted_desc d)),
           (drop (Z.to_nat k_words) (py.sorted_desc d)).
    split; [done|]. split; [by rewrite take_drop, sorted_desc_perm|].
    split; [by rewrite length_take, sorted_desc_perm|].
    split; [by eapply StronglySorted_app_1_l|].
    intros a b Ha Hb. by eapply (StronglySorted_app_1_elem_of _ _ _ a b Hsorted).
  - intros z Hz Hd. rewrite (Hget z [] Hz Hd). unfold top_words, py.slice_to.
    simpl. by rewrite !take_nil, Tauto.if_same.
Qed.

End Summary.

(** ** Two runs of [fit] *)

Lemma option_rel_bind {A B A' B' : Type} (R : A → B → Prop) (R' : A' → B' → Prop)
    (x : option A) (y : option B) (f : A → option A') (g : B → option B') :
  option_rel R x y → (∀ a b, R a b → option_rel R' (f a) (g b)) →
  option_rel R' (x ≫= f) (y ≫= g).
Proof. destruct x, y; simpl; intros Hxy Hfg; try done. by apply Hfg. Qed.

Lemma foldM_rel {A S1 S2 : Type} (R : S1 → S2 → Prop)
    (f1 : S1 → A → option S1) (f2 : S2 → A → option S2) l s1 s2 :
  (∀ a s1 s2, R s1 s2 → option_rel R (f1 s1 a) (f2 s2 a)) →
  R s1 s2 → option_rel R (py.foldM f1 s1 l) (py.foldM f2 s2 l).
Proof.
  intros Hstep. revert s1 s2. induction l as [|a l IH]; intros s1 s2 Hs; simpl; first done.
  eapply option_rel_bind; [by apply Hstep | done].
Qed.

Section TwoRuns.
Context `{!np.numpy} (R1 R2 : np.random).
Variable sim : @np.RandomState R1 → @np.RandomState R2 → Prop.

Hypothesis draws : same_draws R1 R2 sim.

#[local] Abbreviation same_state := (same_state R1 R2 sim).

Lemma sample_rel p g1 g2 :
  sim g1 g2 →
  option_rel (λ r1 r2, r1.1 = r2.1 ∧ sim r1.2 r2.2)
    (@_sample R1 p g1) (@_sample R2 p g2).
Proof.
  intros Hg. unfold _sample.
  eapply option_rel_bind; first by apply draws.
  intros [c1 g1'] [c2 g2'] [Hc Hg']. simpl in *. subst c2.
  by destruct (head _).
Qed.

Lemma init_doc_rel idoc s1 s2 :
  same_state s1 s2 → option_rel same_state (init_doc s1 idoc) (init_doc s2 idoc).
Proof.
  destruct idoc as [i doc]. intros (Hd & Hself & Hout & Hg). unfold init_doc.
  rewrite Hself. eapply option_rel_bind; first by apply sample_rel.
  intros [z g1'] [z2 g2'] [Hz Hg']. simpl in *. subst z2.
  destruct (add_doc z doc (self s2)); simpl; last done.
  by rewrite Hd, Hout.
Qed.

Lemma reassign_rel idoc (st1 : @fit_state R1 * nat) (st2 : @fit_state R2 * nat) :
  same_state st1.1 st2.1 ∧ st1.2 = st2.2 →
  option_rel (λ st1 st2, same_state st1.1 st2.1 ∧ st1.2 = st2.2)
    (reassign st1 idoc) (reassign st2 idoc).
Proof.
  destruct idoc as [i doc], st1 as [s1 t1], st2 as [s2 t2]. simpl.
  intros [(Hd & Hself & Hout & Hg) <-]. unfold reassign. rewrite Hd, Hself.
  destruct (mjoin (d_z s2 !! i)) as [z_old|]; simpl; last done.
  destruct (remove_doc z_old doc (self s2)) as [mgp1|]; simpl; last done.
  destruct (score mgp1 doc) as [p|]; simpl; last done.
  eapply option_rel_bind; first by apply sample_rel.
  intros [z g1'] [z2 g2'] [Hz Hg']. simpl in *. subst z2.
  destruct (add_doc z doc mgp1); simpl; last done.
  by rewrite Hout.
Qed.

Lemma sweeps_rel docs iters cluster_count s1 s2 :
  same_state s1 s2 →
  option_rel same_state (sweeps docs iters cluster_count s1)
    (sweeps docs iters cluster_count s2).
Proof.
  revert cluster_count s1 s2.
  induction iters as [|i iters IH]; intros cc s1 s2 Hs; first done.
  cbn [sweeps]. eapply option_rel_bind.
  { apply (foldM_rel (λ st1 st2, same_state st1.1 st2.1 ∧ st1.2 = st2.2));
      [intros; by apply reassign_rel | done]. }
  intros [s1' t] [s2' t2] [(Hd & Hself & Hout & Hg) Ht]. simpl in *. subst t2.
  cbv beta iota zeta. rewrite Hself.
  assert (∀ e x1 x2, same_state x1 x2 → same_state (print e x1) (print e x2)) as Hprint.
  { intros e x1 x2 (?&?&Hx&?). unfold same_state. simpl. by rewrite Hx. }
  case_decide; [simpl|apply IH]; repeat apply Hprint; done.
Qed.

(** C8. Two runs of [fit] on the same model, corpus and vocabulary size
    whose generators deliver the same draws end alike: both raise, or
    both return the same label sequence [d_z] and leave the same object
    (hence the same cluster statistics), after printing the same lines. *)
Theorem fit_deterministic mgp docs V g1 g2 :
  sim g1 g2 →
  option_rel (λ s1 s2,
      s1.(d_z) = s2.(d_z) ∧ s1.(self) = s2.(self) ∧ s1.(stdout) = s2.(stdout)
      ∧ sim s1.(gen) s2.(gen))
    (@fit _ R1 mgp docs V g1) (@fit _ R2 mgp docs V g2).
Proof.
  intros Hg. unfold fit. eapply option_rel_bind; last by apply sweeps_rel.
  unfold initialize. apply (foldM_rel same_state).
  - intros. by apply init_doc_rel.
  - by split.
Qed.

End TwoRuns.

(** ** The arguments of [log] *)

Lemma log_args_elem mgp D V doc x :
  x ∈ log_args mgp D V doc ↔
  x = (IZR D - 1 + INR mgp.(K) * mgp.(alpha))%R
  ∨ ∃ z, (z < mgp.(K))%nat ∧
      (x = (IZR (default 0%Z (mgp.(cluster_doc_count) !! z)) + mgp.(alpha))%R
       ∨ (∃ w, w ∈ doc ∧ x = (IZR (freq mgp z w) + mgp.(beta))%R)
       ∨ (∃ j, (1 ≤ j ≤ length doc)%nat
            ∧ x = (IZR (default 0%Z (mgp.(cluster_word_count) !! z))
                   + IZR V * mgp.(beta) + INR j - 1)%R)).
Proof.
  unfold log_args, label_log_args.
  rewrite elem_of_cons, list_elem_of_In, in_flat_map.
  apply or_iff_compat_l. split.
  - intros (z & Hz%list_elem_of_In%elem_of_seq & Hx%list_elem_of_In).
    exists z. split; [lia|].
    rewrite elem_of_cons, elem_of_app, !list_elem_of_fmap in Hx.
    destruct Hx as [->|[(w & -> & Hw)|(j & -> & Hj%elem_of_seq)]]; eauto 6.
    right; right. exists j. split; [lia|done].
  - intros (z & Hz & Hx). exists z.
    split; [apply list_elem_of_In, elem_of_seq; lia|].
    apply list_elem_of_In. rewrite elem_of_cons, elem_of_app, !list_elem_of_fmap.
    destruct Hx as [->|[(w & Hw & ->)|(j & Hj & ->)]]; eauto 6.
    right; right. exists j. split; [done|]. apply elem_of_seq. lia.
Qed.

Section LogArguments.
Context (N1 N2 : np.numpy).

(** [score] uses [log] at the arguments of [log_args] only: two [log]s
    that agree there give the same weights. *)
Lemma score_reads_log_at_log_args mgp D V doc :
  scorable mgp D V →
  (∀ x, @np.exp N1 x = @np.exp N2 x) →
  (∀ x, x ∈ log_args mgp D V doc → @np.log N1 x = @np.log N2 x) →
  @score_unnormalized N1 mgp doc = @score_unnormalized N2 mgp doc.
Proof.
  intros Hok Hexp Hlog.
  rewrite !(score_unnormalized_spec mgp D V doc Hok). f_equal.
  apply list_fmap_ext. intros z ? [-> Hz]%lookup_seq. simpl.
  assert ((λ w, @np.log N1 (IZR (freq mgp z w) + beta mgp)%R) <$> doc
          = (λ w, @np.log N2 (IZR (freq mgp z w) + beta mgp)%R) <$> doc) as Hdoc.
  { apply list_fmap_ext. intros _ w Hw%list_elem_of_lookup_2.
    apply Hlog, log_args_elem. eauto 8. }
  assert ((λ j, @np.log N1 (IZR (default 0%Z (cluster_word_count mgp !! z))
                            + IZR V * beta mgp + INR j - 1)%R) <$> seq 1 (length doc)
          = (λ j, @np.log N2 (IZR (default 0%Z (cluster_word_count mgp !! z))
                            + IZR V * beta mgp + INR j - 1)%R) <$> seq 1 (length doc))
    as Hpos.
  { apply list_fmap_ext. intros i j Hj%lookup_seq.
    apply Hlog, log_args_elem. right. exists z. split; [done|].
    right; right. exists j. split; [lia | done]. }
  unfold posterior_weight. rewrite Hexp, Hdoc, Hpos.
  by rewrite !Hlog by (apply log_args_elem; eauto 6).
Qed.

End LogArguments.

(** *** The recorded calls *)

Lemma foldM_erase {A St T : Type} (f : St → A → option St)
    (F : St * T → A → option (St * T)) l s t :
  (∀ s t a, fst <$> F (s, t) a = f s a) →
  fst <$> py.foldM F (s, t) l = py.foldM f s l.
Proof.
  intros Hstep. revert s t. induction l as [|a l IH]; intros s t; simpl; first done.
  rewrite <-(Hstep s t a). destruct (F (s, t) a) as [[s1 t1]|]; simpl; [apply IH | done].
Qed.

(** A loop that adds [log(g(a))] for each [a] records the [g(a)]. *)
Lemma foldM_accumulate_logged {A : Type} (lg : R → R) (g : A → R) l acc trace :
  py.foldM (λ '(acc, trace) a, Some ((acc + lg (g a))%R, trace ++ [g a])) (acc, trace) l
  = Some ((acc + Rsum ((λ a, lg (g a)) <$> l))%R, trace ++ (g <$> l)).
Proof.
  revert acc trace. induction l as [|a l IH]; intros acc trace; csimpl.
  - by rewrite Rplus_0_r, app_nil_r.
  - rewrite IH, <-app_assoc. do 2 f_equal. lra.
Qed.

(** A loop [p[i] = g(i)] whose body appends [h(i)] to the trace. *)
Lemma foldM_fill_logged {A : Type} (f : nat → list R → option (A * list R))
    (g : nat → A) (h : nat → list R) l (p : list A) trace :
  (∀ i trace, i ∈ l → f i trace = Some (g i, trace ++ h i)) →
  py.foldM (λ '(p, trace) i, '(w, trace) ← f i trace; Some (<[i := w]> p, trace))
    (p, trace) l
  = (p' ← py.foldM (λ p i, w ← Some (g i); Some (<[i := w]> p)) p l;
     Some (p', trace ++ flat_map h l)).
Proof.
  revert p trace. induction l as [|i l IH]; intros p trace Hf; simpl.
  { by rewrite app_nil_r. }
  rewrite Hf by left. simpl. rewrite IH by (intros; apply Hf; by right).
  by rewrite <-app_assoc.
Qed.

Section Logged.
Context `{!np.numpy}.

(** Recording changes nothing: forgetting the trace gives [score]. *)
Lemma score_label_logged_erase mgp doc lD1 label trace :
  fst <$> score_label_logged mgp doc lD1 label trace = score_label mgp doc lD1 label.
Proof.
  unfold score_label_logged, score_label.
  destruct (cluster_doc_count mgp !! label) as [m|]; simpl; [|done].
  match goal with
  | |- context [py.foldM ?F (0%R, ?t) doc] =>
      pose proof (foldM_erase
        (λ lN2 word,
           d ← mgp.(cluster_word_distribution) !! label;
           Some (lN2 + np.log (IZR (default 0%Z (py.dict_get d word)) + mgp.(beta)))%R)
        F doc 0%R t) as HN2
  end.
  rewrite <-HN2 by (intros; by destruct (cluster_word_distribution mgp !! label)).
  clear HN2. destruct (py.foldM _ _ doc) as [[lN2 trace1]|]; simpl; [|done].
  match goal with
  | |- context [py.foldM ?F (0%R, ?t) (seq 1 (length doc))] =>
      pose proof (foldM_erase
        (λ lD2 j,
           n ← mgp.(cluster_word_count) !! label;
           V ← mgp.(vocab_size);
           Some (lD2 + np.log (IZR n + IZR V * mgp.(beta) + INR j - 1))%R)
        F (seq 1 (length doc)) 0%R t) as HD2
  end.
  rewrite <-HD2
    by (intros; by destruct (cluster_word_count mgp !! label), (vocab_size mgp)).
  clear HD2. by destruct (py.foldM _ _ (seq 1 (length doc))) as [[lD2 trace2]|].
Qed.

Lemma score_logged_erase mgp doc : fst <$> score_logged mgp doc = score mgp doc.
Proof.
  unfold score_logged, score, score_unnormalized.
  destruct (number_docs mgp) as [D|]; simpl; [|done].
  match goal with
  | |- context [py.foldM ?F (?p0, ?t0) (seq 0 (K mgp))] =>
      pose proof (foldM_erase
        (λ p label,
           w ← score_label mgp doc
                 (np.log (IZR D - 1 + INR (K mgp) * alpha mgp)) label;
           Some (<[label := w]> p))
        F (seq 0 (K mgp)) p0 t0) as Hp
  end.
  rewrite <-Hp.
  - by destruct (py.foldM _ _ (seq 0 (K mgp))) as [[p trace]|].
  - intros p trace label. rewrite <-(score_label_logged_erase mgp doc _ label trace).
    by destruct (score_label_logged mgp doc _ label trace) as [[w trace1]|].
Qed.

Lemma score_label_logged_scorable mgp D V doc label trace :
  scorable mgp D V → (label < mgp.(K))%nat →
  score_label_logged mgp doc (np.log (IZR D - 1 + INR mgp.(K) * mgp.(alpha))%R) label
    trace
  = Some (posterior_weight mgp D V doc label, trace ++ label_log_args mgp V doc label).
Proof.
  intros [HD HV Hm Hn Hw] Hlabel.
  unfold score_label_logged, posterior_weight, label_log_args, freq.
  destruct (lookup_lt_is_Some_2 mgp.(cluster_doc_count) label) as [m ->]; first lia.
  destruct (lookup_lt_is_Some_2 mgp.(cluster_word_count) label) as [n ->]; first lia.
  destruct (lookup_lt_is_Some_2 mgp.(cluster_word_distribution) label) as [d ->];
    first lia.
  rewrite HV. simpl.
  rewrite (foldM_accumulate_logged np.log
             (λ w, (IZR (default 0%Z (py.dict_get d w)) + beta mgp)%R)).
  simpl.
  rewrite (foldM_accumulate_logged np.log
             (λ j, (IZR n + IZR V * beta mgp + INR j - 1)%R)).
  simpl. rewrite !Rplus_0_l, <-!app_assoc. done.
Qed.

(** On a state [score] accepts, the recorded arguments are those of
    [log_args]. *)
Lemma score_logged_scorable mgp D V doc :
  scorable mgp D V →
  score_logged mgp doc
  = Some (normalize (posterior_weight mgp D V doc <$> seq 0 mgp.(K)),
          log_args mgp D V doc).
Proof.
  intros Hok. unfold score_logged, log_args. rewrite (docs_set _ _ _ Hok). simpl.
  rewrite (foldM_fill_logged _ (posterior_weight mgp D V doc)
             (label_log_args mgp V doc)).
  - rewrite (foldM_fill (λ i, Some (posterior_weight mgp D V doc i))
               (posterior_weight mgp D V doc)) by done.
    done.
  - intros label trace Hlabel%elem_of_seq.
    apply score_label_logged_scorable; [done | lia].
Qed.


End Logged.

(** ** [fit] returns *)

Lemma occ_nil w : occ w [] = 0.
Proof. done. Qed.

Lemma occ_cons w w' doc :
  occ w (w' :: doc) = (if decide (w' = w) then 1 else 0) + occ w doc.
Proof.
  unfold occ. rewrite filter_cons. case_decide; simpl; lia.
Qed.

Lemma occ_nonneg w doc : 0 ≤ occ w doc.
Proof. unfold occ. lia. Qed.

Lemma dict_get_del_eq {Key V : Type} `{EqDecision Key} (d : list (Key * V)) k :
  NoDup d.*1 → py.dict_get (py.dict_del d k) k = None.
Proof.
  induction d as [|[k' v] d IH]; csimpl; first done.
  intros [Hk' Hd]%NoDup_cons. case_decide; subst; simpl.
  - destruct (py.dict_get d k) eqn:Hget; [|done].
    destruct Hk'. apply dict_get_keys. by eauto.
  - rewrite decide_False by done. by apply IH.
Qed.

Lemma dict_get_del_ne {Key V : Type} `{EqDecision Key} (d : list (Key * V)) k k' :
  k ≠ k' → py.dict_get (py.dict_del d k) k' = py.dict_get d k'.
Proof.
  intros Hne. induction d as [|[k1 v] d IH]; dict_cases.
Qed.

Lemma dict_del_keys {Key V : Type} `{EqDecision Key} (d : list (Key * V)) k :
  NoDup d.*1 → NoDup (py.dict_del d k).*1.
Proof.
  induction d as [|[k' v] d IH]; csimpl; first done.
  intros [Hk' Hd]%NoDup_cons. case_decide; first done. csimpl.
  apply NoDup_cons. split; [|by apply IH].
  intros Hin. apply Hk'. clear -Hin. induction d as [|[k1 v1] d IH]; csimpl in *; first done.
  case_decide; first by right. csimpl in *.
  apply elem_of_cons in Hin as [->|Hin]; [left | right; by apply IH].
Qed.

Lemma dict_set_keys_nodup {Key V : Type} `{EqDecision Key} (d : list (Key * V)) k v :
  NoDup d.*1 → NoDup (py.dict_set d k v).*1.
Proof.
  intros Hd. destruct (decide (k ∈ d.*1)).
  - by rewrite dict_set_keys_old.
  - rewrite dict_set_keys_new by done. apply NoDup_app. split; [done|].
    split; [|apply NoDup_singleton].
    intros x Hx ->%list_elem_of_singleton. done.
Qed.

Lemma table_freq_insert n_z_w z d z' w :
  (z < length n_z_w)%nat →
  table_freq (<[z := d]> n_z_w) z' w
  = if decide (z' = z) then default 0 (py.dict_get d w) else table_freq n_z_w z' w.
Proof.
  intros Hz. unfold table_freq. case_decide; subst.
  - by rewrite list_lookup_insert_eq.
  - by rewrite list_lookup_insert_ne.
Qed.

Lemma count_up_get d w w' :
  default 0 (py.dict_get (count_up d w) w')
  = default 0 (py.dict_get d w') + (if decide (w = w') then 1 else 0).
Proof.
  unfold count_up. case_decide; subst.
  - rewrite dict_get_set_eq. simpl. lia.
  - rewrite dict_get_set_ne by done. lia.
Qed.

Lemma count_down_get d w c w' :
  NoDup d.*1 → py.dict_get d w = Some c →
  default 0 (py.dict_get (count_down d w c) w')
  = default 0 (py.dict_get d w') - (if decide (w = w') then 1 else 0).
Proof.
  intros Hd Hget. unfold count_down. destruct (decide (w = w')) as [<-|Hne].
  - rewrite Hget. case_decide; simpl.
    + rewrite dict_get_del_eq by done. simpl. lia.
    + by rewrite dict_get_set_eq.
  - case_decide; [rewrite dict_get_del_ne by done | rewrite dict_get_set_ne by done]; lia.
Qed.

Lemma count_down_keys d w c : NoDup d.*1 → NoDup (count_down d w c).*1.
Proof.
  intros Hd. unfold count_down.
  case_decide; [by apply dict_del_keys | by apply dict_set_keys_nodup].
Qed.

Lemma add_words_freq z doc n_z_w :
  (z < length n_z_w)%nat →
  ∃ n_z_w', py.foldM (add_word z) n_z_w doc = Some n_z_w'
    ∧ length n_z_w' = length n_z_w
    ∧ (Forall (λ d : dict, NoDup d.*1) n_z_w → Forall (λ d : dict, NoDup d.*1) n_z_w')
    ∧ ∀ z' w, table_freq n_z_w' z' w
              = table_freq n_z_w z' w + (if decide (z' = z) then occ w doc else 0).
Proof.
  revert n_z_w. induction doc as [|w0 doc IH]; intros n_z_w Hz; simpl.
  { exists n_z_w. repeat split; [done|]. intros z' w. rewrite occ_nil. case_decide; lia. }
  rewrite add_word_eq.
  destruct (lookup_lt_is_Some_2 n_z_w z Hz) as [d Hd]. rewrite Hd. simpl.
  destruct (IH (<[z := count_up d w0]> n_z_w)) as (n' & Hrun & Hlen & Hkeys & Hfreq).
  { by rewrite length_insert. }
  exists n'. split; [done|]. split; [by rewrite Hlen, length_insert|]. split.
  - intros Hall. apply Hkeys, Forall_insert; [done|].
    apply dict_set_keys_nodup. by apply (Forall_lookup_1 _ _ _ _ Hall Hd).
  - intros z' w. rewrite Hfreq, table_freq_insert, occ_cons by done.
    case_decide; [subst|lia]. rewrite count_up_get. unfold table_freq. rewrite Hd. simpl.
    lia.
Qed.

Lemma remove_words_freq z doc n_z_w :
  (z < length n_z_w)%nat → Forall (λ d : dict, NoDup d.*1) n_z_w →
  (∀ w, occ w doc ≤ table_freq n_z_w z w) →
  ∃ n_z_w', py.foldM (remove_word z) n_z_w doc = Some n_z_w'
    ∧ length n_z_w' = length n_z_w
    ∧ Forall (λ d : dict, NoDup d.*1) n_z_w'
    ∧ ∀ z' w, table_freq n_z_w' z' w
              = table_freq n_z_w z' w - (if decide (z' = z) then occ w doc else 0).
Proof.
  revert n_z_w. induction doc as [|w0 doc IH]; intros n_z_w Hz Hall Hocc; simpl.
  { exists n_z_w. repeat split; [done..|]. intros z' w. rewrite occ_nil. case_decide; lia. }
  rewrite remove_word_eq.
  destruct (lookup_lt_is_Some_2 n_z_w z Hz) as [d Hd]. rewrite Hd. simpl.
  pose proof (Forall_lookup_1 _ _ _ _ Hall Hd) as Hnodup.
  destruct (py.dict_get d w0) as [c|] eqn:Hget; simpl.
  2: { specialize (Hocc w0). rewrite occ_cons, decide_True in Hocc by done.
       unfold table_freq in Hocc. rewrite Hd in Hocc. simpl in Hocc.
       rewrite Hget in Hocc. simpl in Hocc. pose proof (occ_nonneg w0 doc). lia. }
  destruct (IH (<[z := count_down d w0 c]> n_z_w)) as (n' & Hrun & Hlen & Hkeys & Hfreq).
  { by rewrite length_insert. }
  { apply Forall_insert; [done|]. by apply count_down_keys. }
  { intros w. rewrite table_freq_insert, decide_True by done.
    rewrite (count_down_get d w0 c w) by done.
    specialize (Hocc w). rewrite occ_cons in Hocc.
    unfold table_freq in Hocc. rewrite Hd in Hocc. simpl in Hocc.
    case_decide; lia. }
  exists n'. split; [done|]. split; [by rewrite Hlen, length_insert|]. split; [done|].
  intros z' w. rewrite Hfreq, table_freq_insert, occ_cons by done.
  case_decide; [subst|lia]. rewrite (count_down_get d w0 c w) by done.
  unfold table_freq. rewrite Hd. simpl. repeat case_decide; lia.
Qed.

Lemma assigned_insert docs d_z i doc l l' z w :
  docs !! i = Some doc → d_z !! i = Some l →
  assigned docs (<[i := l']> d_z) z w
  = assigned docs d_z z w
    - (if decide (l = Some z) then occ w doc else 0)
    + (if decide (l' = Some z) then occ w doc else 0).
Proof.
  unfold assigned, total. revert d_z i.
  induction docs as [|doc0 docs IH]; intros [|l0 d_z] [|i] Hdoc Hl; simplify_eq/=.
  - lia.
  - rewrite (IH d_z i) by done. lia.
Qed.

Lemma assigned_ge docs d_z i doc z w :
  docs !! i = Some doc → d_z !! i = Some (Some z) → occ w doc ≤ assigned docs d_z z w.
Proof.
  unfold assigned, total.
  assert (∀ docs d_z,
    0 ≤ foldr Z.add 0
          (zip_with (λ doc l, if decide (l = Some z) then occ w doc else 0) docs d_z))
    as Hnonneg.
  { clear. induction docs as [|doc0 docs IH]; intros [|l0 d_z]; simpl; try lia.
    specialize (IH d_z). pose proof (occ_nonneg w doc0). case_decide; lia. }
  revert d_z i.
  induction docs as [|doc0 docs IH]; intros [|l0 d_z] [|i] Hdoc Hl; simplify_eq/=.
  - rewrite decide_True by done. specialize (Hnonneg docs d_z). lia.
  - specialize (IH d_z i Hdoc Hl). pose proof (occ_nonneg w doc0). case_decide; lia.
Qed.

Lemma assigned_unlabelled docs z w : assigned docs (replicate (length docs) None) z w = 0.
Proof. unfold assigned, total. induction docs as [|doc docs IH]; simpl; [done | lia]. Qed.

Lemma list_add_Some l i d :
  (i < length l)%nat → ∃ l', list_add l i d = Some l' ∧ length l' = length l.
Proof.
  intros Hi. unfold list_add. destruct (lookup_lt_is_Some_2 l i Hi) as [x ->]. simpl.
  eexists. split; [done|]. by rewrite length_insert.
Qed.

(** A document can join any of the clusters. *)
Lemma add_doc_Some z doc mgp :
  (z < length mgp.(cluster_doc_count))%nat →
  (z < length mgp.(cluster_word_count))%nat →
  (z < length mgp.(cluster_word_distribution))%nat →
  ∃ m_z n_z n_z_w,
    add_doc z doc mgp = Some (with_stats mgp m_z n_z n_z_w)
    ∧ length m_z = length mgp.(cluster_doc_count)
    ∧ length n_z = length mgp.(cluster_word_count)
    ∧ length n_z_w = length mgp.(cluster_word_distribution)
    ∧ (Forall (λ d : dict, NoDup d.*1) mgp.(cluster_word_distribution) →
       Forall (λ d : dict, NoDup d.*1) n_z_w)
    ∧ ∀ z' w, table_freq n_z_w z' w
              = table_freq mgp.(cluster_word_distribution) z' w
                + (if decide (z' = z) then occ w doc else 0).
Proof.
  intros Hm Hn Hw. unfold add_doc.
  destruct (list_add_Some _ z 1 Hm) as (m_z & -> & Hm').
  destruct (list_add_Some _ z (Z.of_nat (length doc)) Hn) as (n_z & -> & Hn').
  destruct (add_words_freq z doc _ Hw) as (n_z_w & -> & Hw' & Hkeys & Hfreq).
  simpl. by exists m_z, n_z, n_z_w.
Qed.

(** A document can leave a cluster whose table counts its tokens. *)
Lemma remove_doc_Some z doc mgp :
  (z < length mgp.(cluster_doc_count))%nat →
  (z < length mgp.(cluster_word_count))%nat →
  (z < length mgp.(cluster_word_distribution))%nat →
  Forall (λ d : dict, NoDup d.*1) mgp.(cluster_word_distribution) →
  (∀ w, occ w doc ≤ table_freq mgp.(cluster_word_distribution) z w) →
  ∃ m_z n_z n_z_w,
    remove_doc z doc mgp = Some (with_stats mgp m_z n_z n_z_w)
    ∧ length m_z = length mgp.(cluster_doc_count)
    ∧ length n_z = length mgp.(cluster_word_count)
    ∧ length n_z_w = length mgp.(cluster_word_distribution)
    ∧ Forall (λ d : dict, NoDup d.*1) n_z_w
    ∧ ∀ z' w, table_freq n_z_w z' w
              = table_freq mgp.(cluster_word_distribution) z' w
                - (if decide (z' = z) then occ w doc else 0).
Proof.
  intros Hm Hn Hw Hkeys Hocc. unfold remove_doc.
  destruct (list_add_Some _ z (-1) Hm) as (m_z & -> & Hm').
  destruct (list_add_Some _ z (- Z.of_nat (length doc)) Hn) as (n_z & -> & Hn').
  destruct (remove_words_freq z doc _ Hw Hkeys Hocc) as (n_z_w & -> & Hw' & Hkeys' & Hfreq).
  simpl. by exists m_z, n_z, n_z_w.
Qed.

Lemma foldM_total {A S : Type} (f : S → A → option S) (P : S → Prop) l s :
  (∀ s a, a ∈ l → P s → ∃ s', f s a = Some s' ∧ P s') →
  P s → ∃ s', py.foldM f s l = Some s' ∧ P s'.
Proof.
  revert s. induction l as [|a l IH]; intros s Hstep Hs; simpl; first by eauto.
  destruct (Hstep s a) as (s1 & -> & Hs1); [left | done |]. simpl.
  apply IH; [|done]. intros s2 b Hb. apply Hstep. by right.
Qed.

(** *** Valid [pvals] *)

Lemma Rsum_nonneg l : Forall (λ x, (0 <= x)%R) l → (0 <= Rsum l)%R.
Proof. induction 1 as [|x l Hx _ IH]; simpl; lra. Qed.

Lemma Rsum_ge_elem l x : Forall (λ x, (0 <= x)%R) l → x ∈ l → (x <= Rsum l)%R.
Proof.
  induction 1 as [|y l Hy Hl IH]; [by intros ?%elem_of_nil|]. simpl.
  pose proof (Rsum_nonneg l Hl).
  intros [->|Hx]%elem_of_cons; [lra|]. specialize (IH Hx). lra.
Qed.

Lemma Rsum_take_le l n : Forall (λ x, (0 <= x)%R) l → (Rsum (take n l) <= Rsum l)%R.
Proof.
  intros Hl. revert n. induction Hl as [|x l Hx Hl IH]; intros [|n]; simpl; try lra.
  - pose proof (Rsum_nonneg l Hl). lra.
  - specialize (IH n). lra.
Qed.

Lemma Rsum_replicate n x : Rsum (replicate n x) = (INR n * x)%R.
Proof.
  induction n as [|n IH]; [simpl; lra|]. rewrite S_INR. simpl. rewrite IH. lra.
Qed.

(** Non-negative entries that sum to 1 or less are valid. *)
Lemma valid_pvals_of_sum p :
  Forall (λ x, (0 <= x)%R) p → (Rsum p <= 1)%R → valid_pvals p.
Proof.
  intros Hp Hsum. split.
  - apply Forall_forall. intros x Hx.
    pose proof (proj1 (Forall_forall _ _) Hp x Hx).
    pose proof (Rsum_ge_elem p x Hp Hx). lra.
  - unfold py.slice_to. simpl. pose proof (Rsum_take_le p (Z.to_nat (Z.of_nat (length p) + -1)) Hp).
    lra.
Qed.

(** The [pvals] of the initialisation pass. *)
Lemma uniform_valid K0 : (1 ≤ K0)%nat → valid_pvals (replicate K0 (1 / INR K0)%R).
Proof.
  intros HK. assert (0 < INR K0)%R as HK' by (apply (lt_INR 0); lia).
  apply valid_pvals_of_sum.
  - apply Forall_replicate. apply Rlt_le, Rdiv_lt_0_compat; lra.
  - rewrite Rsum_replicate. apply Req_le. field. lra.
Qed.

(** What [score] normalises is valid when no weight is negative. *)
Lemma normalize_valid w : Forall (λ x, (0 <= x)%R) w → valid_pvals (normalize w).
Proof.
  intros Hw. unfold normalize. rewrite py_sum_Rsum.
  change (map ?f w) with (f <$> w).
  pose proof (Rsum_nonneg w Hw) as Hsum. apply valid_pvals_of_sum.
  - apply Forall_fmap. eapply Forall_impl; [exact Hw|]. simpl. intros x Hx.
    destruct (Rlt_dec 0 (Rsum w)).
    + apply Rmult_le_pos; [done|]. apply Rlt_le, Rinv_0_lt_compat. done.
    + lra.
  - rewrite Rsum_scale. destruct (Rlt_dec 0 (Rsum w)).
    + apply Req_le. field. lra.
    + lra.
Qed.

Section Returns.
Context `{!np.numpy} `{!np.random}.
Variables (docs : list (list string)) (K0 : nat).
Hypothesis exp_nonneg : ∀ x, (0 <= np.exp x)%R.
Hypothesis K_pos : (1 ≤ K0)%nat.
Hypothesis sampler : sampler_ok K0.

(** On a state [score] accepts it returns [K] valid [pvals]. *)
Lemma score_valid mgp D V doc :
  scorable mgp D V →
  ∃ p, score mgp doc = Some p ∧ length p = mgp.(K) ∧ valid_pvals p.
Proof.
  intros Hok. unfold score. rewrite (score_unnormalized_spec mgp D V doc Hok). simpl.
  eexists. split; [done|]. split.
  - unfold normalize. by rewrite length_map, length_fmap, length_seq.
  - apply normalize_valid, Forall_fmap, Forall_forall. intros z _. simpl.
    unfold posterior_weight. apply exp_nonneg.
Qed.

#[local] Abbreviation labelled := (all_labelled docs).

Lemma reassign_total st i doc :
  fit_wf docs K0 st.1 → labelled st.1 → docs !! i = Some doc →
  ∃ st', reassign st (i, doc) = Some st' ∧ fit_wf docs K0 st'.1 ∧ labelled st'.1.
Proof.
  destruct st as [s t]. simpl. intros [HK [D HD] [V HV] Hm Hn Hw Hkeys Hlen Hlab Hfreq] Hall Hdoc.
  destruct (Hall i) as [z_old Hz_old]; first by eapply lookup_lt_Some.
  pose proof (Hlab _ _ Hz_old) as Hold.
  destruct (remove_doc_Some z_old doc (self s)) as (m1 & n1 & w1 & Hrem & Hm1 & Hn1 & Hw1 & Hkeys1 & Hfreq1);
    [lia..|done| |].
  { intros w. rewrite Hfreq. by eapply assigned_ge. }
  set (mgp1 := with_stats (self s) m1 n1 w1) in *.
  destruct (score_valid mgp1 D V doc) as (p & Hp & Hplen & Hvalid).
  { split; simpl; [done|done|lia..]. }
  destruct (sampler p (gen s)) as (z_new & g' & Hsample & Hnew); [|done|].
  { rewrite Hplen. simpl. done. }
  destruct (add_doc_Some z_new doc mgp1) as (m2 & n2 & w2 & Hadd & Hm2 & Hn2 & Hw2 & Hkeys2 & Hfreq2);
    [simpl; lia..|].
  unfold reassign. rewrite Hz_old. simpl. rewrite Hrem. simpl. rewrite Hp. simpl.
  rewrite Hsample. simpl. rewrite Hadd. simpl.
  eexists. split; [done|]. subst mgp1. simpl in *. split.
  - split; simpl; [done | by eauto | by eauto | lia | lia | lia | by auto | | |].
    + by rewrite length_insert.
    + intros j z. destruct (decide (i = j)) as [<-|Hne].
      * rewrite list_lookup_insert_eq by (by eapply lookup_lt_Some). by intros [= <-].
      * rewrite list_lookup_insert_ne by done. apply Hlab.
    + intros z w. rewrite Hfreq2. simpl. rewrite Hfreq1, Hfreq.
      rewrite (assigned_insert docs (d_z s) i doc (Some z_old) (Some z_new)) by done.
      repeat case_decide; simplify_eq; lia.
  - intros j Hj. destruct (decide (i = j)) as [<-|Hne].
    + exists z_new. simpl. apply list_lookup_insert_eq. by eapply lookup_lt_Some.
    + destruct (Hall j Hj) as [z Hz]. exists z. simpl. by rewrite list_lookup_insert_ne.
Qed.

Lemma init_doc_total s i doc :
  fit_wf docs K0 s → s.(d_z) !! i = Some None → docs !! i = Some doc →
  ∃ s' z, init_doc s (i, doc) = Some s' ∧ fit_wf docs K0 s'
          ∧ s'.(d_z) = <[i := Some z]> s.(d_z).
Proof.
  intros [HK [D HD] [V HV] Hm Hn Hw Hkeys Hlen Hlab Hfreq] Hnone Hdoc.
  destruct (sampler (replicate K0 (1 / INR K0)%R) (gen s)) as (z & g' & Hsample & Hz).
  { by rewrite length_replicate. }
  { by apply uniform_valid. }
  destruct (add_doc_Some z doc (self s)) as (m2 & n2 & w2 & Hadd & Hm2 & Hn2 & Hw2 & Hkeys2 & Hfreq2);
    [lia..|].
  unfold init_doc. rewrite HK, Hsample. simpl. rewrite Hadd. simpl.
  eexists _, z. split; [done|]. split; [|done].
  split; simpl; [done | by eauto | by eauto | lia | lia | lia | by auto | | |].
  - by rewrite length_insert.
  - intros j z'. destruct (decide (i = j)) as [<-|Hne].
    + rewrite list_lookup_insert_eq by (by eapply lookup_lt_Some). by intros [= <-].
    + rewrite list_lookup_insert_ne by done. apply Hlab.
  - intros z' w. rewrite Hfreq2, Hfreq.
    rewrite (assigned_insert docs (d_z s) i doc None (Some z)) by done.
    repeat case_decide; simplify_eq; lia.
Qed.

(** The initialisation pass from document [k] on: the documents before
    [k] are labelled, the others are not yet. *)
Lemma init_docs_total rest k s :
  (∀ j doc, rest !! j = Some doc → docs !! (k + j)%nat = Some doc) →
  (k + length rest = length docs)%nat →
  fit_wf docs K0 s →
  (∀ i, (i < k)%nat → ∃ z, s.(d_z) !! i = Some (Some z)) →
  (∀ i, (k ≤ i < length docs)%nat → s.(d_z) !! i = Some None) →
  ∃ s', py.foldM init_doc s (imap (λ j, pair (k + j)%nat) rest) = Some s'
        ∧ fit_wf docs K0 s' ∧ labelled s'.
Proof.
  revert k s. induction rest as [|doc rest IH]; intros k s Hrest Hk Hwf Hdone Htodo.
  { exists s. split; [done|]. split; [done|]. intros i Hi. apply Hdone.
    simpl in Hk. lia. }
  simpl in Hk. rewrite imap_cons. cbn [py.foldM]. rewrite Nat.add_0_r.
  destruct (init_doc_total s k doc Hwf) as (s1 & z & -> & Hwf1 & Hd_z).
  { apply Htodo. lia. }
  { rewrite <-(Nat.add_0_r k). by apply Hrest. }
  simpl. rewrite (imap_ext _ (λ j, pair (S k + j)%nat))
    by (intros; simpl; f_equal; lia).
  assert (k < length (d_z s))%nat as Hklen.
  { rewrite (wf_length _ _ _ Hwf). lia. }
  apply IH; [|lia|done| |].
  - intros j doc' Hj. replace (S k + j)%nat with (k + S j)%nat by lia. by apply Hrest.
  - intros i Hi. rewrite Hd_z. destruct (decide (k = i)) as [<-|Hne].
    + exists z. by apply list_lookup_insert_eq.
    + destruct (Hdone i) as [z' Hz']; [lia|]. exists z'.
      by rewrite list_lookup_insert_ne.
  - intros i Hi. rewrite Hd_z, list_lookup_insert_ne by lia. apply Htodo. lia.
Qed.

Lemma sweep_total s :
  fit_wf docs K0 s → labelled s →
  ∃ s' t, sweep docs s = Some (s', t) ∧ fit_wf docs K0 s' ∧ labelled s'.
Proof.
  intros Hwf Hall. unfold sweep.
  destruct (foldM_total reassign (λ st, fit_wf docs K0 st.1 ∧ labelled st.1)
              (py.enumerate docs) (s, 0%nat)) as ([s' t] & Hrun & Hwf' & Hall');
    [|done|by eauto].
  intros st [i doc] (j & doc' & [= -> ->] & Hdoc)%elem_of_lookup_imap_1 [Hwf1 Hall1].
  by apply reassign_total.
Qed.

Lemma sweeps_total iters cluster_count s :
  fit_wf docs K0 s → labelled s →
  ∃ s', sweeps docs iters cluster_count s = Some s' ∧ fit_wf docs K0 s' ∧ labelled s'.
Proof.
  revert cluster_count s.
  induction iters as [|i iters IH]; intros cc s Hwf Hall; first by eauto.
  cbn [sweeps]. destruct (sweep_total s Hwf Hall) as (s1 & t & -> & Hwf1 & Hall1).
  cbn [mbind option_bind]. cbv beta iota zeta.
  assert (∀ e x, fit_wf docs K0 x ∧ labelled x →
            fit_wf docs K0 (print e x) ∧ labelled (print e x)) as Hprint.
  { intros e x [[] ?]. by split. }
  case_decide.
  - eexists. split; [done|]. by apply Hprint, Hprint.
  - by apply IH; apply Hprint.
Qed.

End Returns.

Section FitReturns.
Context `{!np.numpy} `{!np.random}.


End FitReturns.

(** ** Sweeps and transfers *)

Lemma foldM_invariant_elem {A S : Type} (f : S → A → option S) (P : S → Prop) l s s' :
  (∀ s a s', a ∈ l → P s → f s a = Some s' → P s') →
  P s → py.foldM f s l = Some s' → P s'.
Proof.
  revert s. induction l as [|a l IH]; simpl; intros s Hstep Hs Hrun.
  - by simplify_eq.
  - apply bind_Some in Hrun as (s1 & Hf & Hrun).
    apply (IH s1); [|by eapply Hstep; [left|..]|done].
    intros s2 b s3 Hb. apply Hstep. by right.
Qed.

Section ScoreCounts.
Context `{!np.numpy}.

Lemma score_same_counts mgp mgp' doc :
  same_model_counts mgp mgp' → score mgp' doc = score mgp doc.
Proof.
  intros [HK Ha Hb HD HV Hm Hn Hlen Hfreq].
  unfold score, score_unnormalized. rewrite HD, HK, Ha.
  destruct (number_docs mgp) as [D|]; simpl; [|done].
  f_equal. apply foldM_ext. intros p label _. f_equal.
  unfold score_label. rewrite Hm, Hn, HV, Ha, Hb.
  destruct (cluster_doc_count mgp !! label) as [m|]; simpl; [|done].
  f_equal. apply foldM_ext. intros lN2 w _.
  specialize (Hfreq label w). unfold freq in Hfreq.
  destruct (cluster_word_distribution mgp' !! label) as [d'|] eqn:Hd',
           (cluster_word_distribution mgp !! label) as [d|] eqn:Hd; simpl in *.
  - by rewrite Hfreq.
  - apply lookup_lt_Some in Hd'. apply lookup_ge_None in Hd. lia.
  - apply lookup_lt_Some in Hd. apply lookup_ge_None in Hd'. lia.
  - done.
Qed.

End ScoreCounts.

(** What the token loops have done to the tables when they return. *)
Lemma add_words_inv z doc n_z_w n_z_w' :
  py.foldM (add_word z) n_z_w doc = Some n_z_w' →
  length n_z_w' = length n_z_w
  ∧ (Forall (λ d : dict, NoDup d.*1) n_z_w → Forall (λ d : dict, NoDup d.*1) n_z_w')
  ∧ ∀ z' w, table_freq n_z_w' z' w
            = table_freq n_z_w z' w + (if decide (z' = z) then occ w doc else 0).
Proof.
  destruct doc as [|w0 doc].
  { intros [= <-]. repeat split; [done|]. intros z' w. rewrite occ_nil. case_decide; lia. }
  intros Hrun. assert (z < length n_z_w)%nat as Hz.
  { simpl in Hrun. apply bind_Some in Hrun as (n1 & Hn1 & _). rewrite add_word_eq in Hn1.
    apply bind_Some in Hn1 as (d & Hd & _). by eapply lookup_lt_Some. }
  destruct (add_words_freq z (w0 :: doc) n_z_w Hz) as (n' & Hrun' & Hlen & Hkeys & Hfreq).
  by simplify_eq.
Qed.

Lemma remove_words_inv z doc n_z_w n_z_w' :
  py.foldM (remove_word z) n_z_w doc = Some n_z_w' →
  Forall (λ d : dict, NoDup d.*1) n_z_w →
  length n_z_w' = length n_z_w
  ∧ Forall (λ d : dict, NoDup d.*1) n_z_w'
  ∧ ∀ z' w, table_freq n_z_w' z' w
            = table_freq n_z_w z' w - (if decide (z' = z) then occ w doc else 0).
Proof.
  revert n_z_w. induction doc as [|w0 doc IH]; intros n_z_w Hrun Hall; simpl in Hrun.
  { simplify_eq. repeat split; [done|]. intros z' w. rewrite occ_nil. case_decide; lia. }
  apply bind_Some in Hrun as (n1 & Hn1 & Hrun). rewrite remove_word_eq in Hn1.
  apply bind_Some in Hn1 as (d & Hd & Hn1). apply bind_Some in Hn1 as (c & Hget & Hn1).
  simplify_eq. pose proof (Forall_lookup_1 _ _ _ _ Hall Hd) as Hnodup.
  pose proof (lookup_lt_Some _ _ _ Hd) as Hz.
  destruct (IH _ Hrun) as (Hlen & Hkeys & Hfreq).
  { apply Forall_insert; [done|]. by apply count_down_keys. }
  split; [by rewrite Hlen, length_insert|]. split; [done|].
  intros z' w. rewrite Hfreq, table_freq_insert, occ_cons by done.
  case_decide; [subst|lia]. rewrite (count_down_get d w0 c w) by done.
  unfold table_freq. rewrite Hd. simpl. repeat case_decide; lia.
Qed.

Section Steps.
Context `{!np.numpy} `{!np.random}.

(** What a reassignment step that returns has done. *)
Lemma reassign_inv s t i doc s' t' :
  reassign (s, t) (i, doc) = Some (s', t') →
  ∃ z_old z_new n_z_w1,
    s.(d_z) !! i = Some (Some z_old)
    ∧ s'.(d_z) = <[i := Some z_new]> s.(d_z)
    ∧ t' = (if decide (z_new ≠ z_old) then S t else t)
    ∧ s'.(stdout) = s.(stdout)
    ∧ s'.(self).(cluster_doc_count)
      = alter (λ x, x + 1) z_new (alter (λ x, x + -1) z_old s.(self).(cluster_doc_count))
    ∧ s'.(self).(cluster_word_count)
      = alter (λ x, x + Z.of_nat (length doc)) z_new
          (alter (λ x, x + - Z.of_nat (length doc)) z_old s.(self).(cluster_word_count))
    ∧ py.foldM (remove_word z_old) s.(self).(cluster_word_distribution) doc = Some n_z_w1
    ∧ py.foldM (add_word z_new) n_z_w1 doc = Some s'.(self).(cluster_word_distribution)
    ∧ (z_old < length s.(self).(cluster_doc_count))%nat
    ∧ (z_new < length s.(self).(cluster_doc_count))%nat
    ∧ (z_old < length s.(self).(cluster_word_count))%nat
    ∧ (z_new < length s.(self).(cluster_word_count))%nat
    ∧ s'.(self).(K) = s.(self).(K)
    ∧ s'.(self).(alpha) = s.(self).(alpha)
    ∧ s'.(self).(beta) = s.(self).(beta)
    ∧ s'.(self).(number_docs) = s.(self).(number_docs)
    ∧ s'.(self).(vocab_size) = s.(self).(vocab_size).
Proof.
  unfold reassign. intros Hrun.
  apply bind_Some in Hrun as (z_old & Hz & Hrun).
  apply bind_Some in Hrun as (mgp1 & Hrem & Hrun).
  apply bind_Some in Hrun as (p & Hp & Hrun).
  apply bind_Some in Hrun as ([z_new g'] & Hnew & Hrun).
  apply bind_Some in Hrun as (mgp2 & Hadd & Hrun). simplify_eq/=.
  unfold remove_doc in Hrem. unfold add_doc in Hadd.
  apply bind_Some in Hrem as (m1 & Hm1 & Hrem).
  apply bind_Some in Hrem as (n1 & Hn1 & Hrem).
  apply bind_Some in Hrem as (w1 & Hw1 & Hrem).
  apply bind_Some in Hadd as (m2 & Hm2 & Hadd).
  apply bind_Some in Hadd as (n2 & Hn2 & Hadd).
  apply bind_Some in Hadd as (w2 & Hw2 & Hadd). simplify_eq/=.
  exists z_old, z_new, w1.
  destruct (d_z s !! i) as [[z|]|] eqn:Hi; simplify_eq/=.
  pose proof (list_add_length _ _ _ _ Hm1) as Hlen.
  apply list_add_alter in Hm1 as [[x1 Hx1%lookup_lt_Some] ->].
  apply list_add_alter in Hn1 as [[y1 Hy1%lookup_lt_Some] ->].
  apply list_add_alter in Hm2 as [[x2 Hx2%lookup_lt_Some] ->].
  apply list_add_alter in Hn2 as [[y2 Hy2%lookup_lt_Some] ->].
  rewrite length_alter in Hx2, Hy2. by repeat split.
Qed.

Lemma same_model_counts_refl mgp : same_model_counts mgp mgp.
Proof. by split. Qed.

Lemma same_model_counts_trans mgp1 mgp2 mgp3 :
  same_model_counts mgp1 mgp2 → same_model_counts mgp2 mgp3 →
  same_model_counts mgp1 mgp3.
Proof.
  intros [] []. split; try congruence; intros z w; etrans; eauto.
Qed.

Lemma same_counts_refl s : same_counts s s.
Proof. repeat split; done. Qed.

Lemma same_counts_trans s1 s2 s3 :
  same_counts s1 s2 → same_counts s2 s3 → same_counts s1 s3.
Proof.
  intros (Hd & Hm & Hn & Hw) (Hd' & Hm' & Hn' & Hw').
  split; [congruence|]. split; [congruence|]. split; [congruence|].
  intros Hkeys. destruct (Hw Hkeys) as [Hkeys2 Hsame].
  destruct (Hw' Hkeys2) as [Hkeys3 Hsame']. split; [done|].
  by eapply same_model_counts_trans.
Qed.

(** A document that is drawn back into its cluster leaves labels and
    counts as they were. *)
Lemma reassign_same s t i doc s' :
  reassign (s, t) (i, doc) = Some (s', t) → same_counts s s'.
Proof.
  intros (z_old & z_new & w1 & Hi & Hd & Ht & _ & Hm & Hn & Hrem & Hadd & Hold & _ & _ & _
          & HK & Ha & Hb & HD & HV)%reassign_inv.
  assert (z_new = z_old) as ->.
  { destruct (decide (z_new ≠ z_old)) as [?|?%dec_stable]; [lia | done]. }
  assert (s'.(self).(cluster_doc_count) = s.(self).(cluster_doc_count)) as Hm'.
  { rewrite Hm, list_alter_alter_eq. apply list_alter_id. intros x. simpl. lia. }
  assert (s'.(self).(cluster_word_count) = s.(self).(cluster_word_count)) as Hn'.
  { rewrite Hn, list_alter_alter_eq. apply list_alter_id. intros x. simpl. lia. }
  split; [|split; [done|split; [done|]]].
  - rewrite Hd. by apply list_insert_id.
  - intros Hkeys. destruct (remove_words_inv _ _ _ _ Hrem Hkeys) as (Hlen1 & Hkeys1 & Hfreq1).
    destruct (add_words_inv _ _ _ _ Hadd) as (Hlen2 & Hkeys2 & Hfreq2).
    split; [by auto|]. split; try done; [congruence|].
    intros z w. unfold freq. fold (table_freq s'.(self).(cluster_word_distribution) z w).
    fold (table_freq s.(self).(cluster_word_distribution) z w).
    rewrite Hfreq2, Hfreq1. lia.
Qed.

Lemma reassign_transfers st idoc st' :
  reassign st idoc = Some st' → (st.2 ≤ st'.2 ≤ S st.2)%nat.
Proof.
  destruct st as [s t], idoc as [i doc], st' as [s' t'].
  intros (z_old & z_new & w1 & _ & _ & -> & _)%reassign_inv. simpl. case_decide; lia.
Qed.

Lemma reassigns_same l s t s' t' :
  py.foldM reassign (s, t) l = Some (s', t') →
  (t ≤ t')%nat ∧ (t' = t → same_counts s s').
Proof.
  revert s t. induction l as [|[i doc] l IH]; intros s t Hrun; cbn [py.foldM] in Hrun.
  { simplify_eq. split; [done|]. intros _. apply same_counts_refl. }
  apply bind_Some in Hrun as ([s1 t1] & Hstep & Hrun).
  pose proof (reassign_transfers _ _ _ Hstep) as Ht1. simpl in Ht1.
  destruct (IH _ _ Hrun) as [Hle Hsame]. split; [lia|]. intros ->.
  assert (t1 = t) as -> by lia.
  eapply same_counts_trans; [by eapply reassign_same | by apply Hsame].
Qed.

End Steps.

Section Transfers.
Context `{!np.numpy} `{!np.random}.

(** X4. A sweep that reports no transfer has left every label and every
    count as it was: [d_z], [cluster_doc_count] and [cluster_word_count]
    are the lists they were, nothing was printed, and every table holds
    the same count for every token. *)
Theorem sweep_without_transfers docs s s' :
  sweep docs s = Some (s', 0%nat) →
  s'.(d_z) = s.(d_z)
  ∧ s'.(self).(cluster_doc_count) = s.(self).(cluster_doc_count)
  ∧ s'.(self).(cluster_word_count) = s.(self).(cluster_word_count)
  ∧ s'.(stdout) = s.(stdout)
  ∧ (Forall (λ d : dict, NoDup d.*1) s.(self).(cluster_word_distribution) →
     ∀ z w, freq s'.(self) z w = freq s.(self) z w).
Proof.
  intros Hrun. pose proof (sweep_stdout _ _ _ _ Hrun) as Hout.
  destruct (reassigns_same _ _ _ _ _ Hrun) as [_ Hsame].
  destruct (Hsame eq_refl) as (Hd & Hm & Hn & Hw).
  repeat split; [done..|]. intros Hkeys. destruct (Hw Hkeys) as [_ Hcounts].
  apply (smc_freq _ _ Hcounts).
Qed.

(** X14. After a sweep that reports no transfer every document scores
    as before it, and gets the same best label. *)
Theorem quiet_sweep_keeps_scores docs s s' doc :
  sweep docs s = Some (s', 0%nat) →
  Forall (λ d : dict, NoDup d.*1) s.(self).(cluster_word_distribution) →
  score s'.(self) doc = score s.(self) doc
  ∧ choose_best_label s'.(self) doc = choose_best_label s.(self) doc.
Proof.
  intros Hrun Hkeys. destruct (reassigns_same _ _ _ _ _ Hrun) as [_ Hsame].
  destruct (Hsame eq_refl) as (_ & _ & _ & Hw). destruct (Hw Hkeys) as [_ Hcounts].
  pose proof (score_same_counts _ _ doc Hcounts) as Hscore.
  split; [done|]. unfold choose_best_label. by rewrite Hscore.
Qed.

Lemma sweeps_by_transfers_eq docs n k cluster_count s :
  (k ≤ 25)%nat ∨ cluster_count = populated s.(self).(cluster_doc_count) →
  sweeps docs (seq k n) cluster_count s = sweeps_by_transfers docs (seq k n) s.
Proof.
  revert k cluster_count s. induction n as [|n IH]; intros k cc s Hcc; first done.
  cbn [seq sweeps sweeps_by_transfers].
  destruct (sweep docs s) as [[s1 t]|] eqn:Hsweep; [|done].
  cbn [mbind option_bind]. cbv beta iota zeta.
  destruct (decide (t = 0%nat ∧ (25 < k)%nat)) as [[-> Hk]|Hno].
  - destruct (reassigns_same _ _ _ _ _ Hsweep) as [_ Hsame].
    destruct (Hsame eq_refl) as (_ & Hm & _).
    destruct Hcc as [? | ->]; [lia|]. simpl. rewrite Hm.
    by rewrite decide_True.
  - rewrite decide_False by (intros (? & _ & ?); by apply Hno).
    apply IH. by right.
Qed.

(** X5. The comparison of the populated cluster counts in the test that
    ends the loop never decides: [fit] does what it would do if the loop
    ended on a sweep without transfers past sweep 25. *)
Theorem fit_convergence_by_transfers mgp docs V g :
  fit mgp docs V g = fit_by_transfers mgp docs V g.
Proof.
  unfold fit, fit_by_transfers. destruct (initialize mgp docs V g) as [s|]; [|done].
  simpl. apply sweeps_by_transfers_eq. left. lia.
Qed.

End Transfers.

(** ** Labels and counts *)

Lemma foldM_enumerate_from {A St : Type} (f : St → nat * A → option St)
    (P : nat → St → Prop) l k s s' :
  (∀ j a s s', l !! j = Some a → P (k + j)%nat s → f s ((k + j)%nat, a) = Some s' →
     P (S (k + j)) s') →
  P k s → py.foldM f s (imap (λ j, pair (k + j)%nat) l) = Some s' →
  P (k + length l)%nat s'.
Proof.
  revert k s. induction l as [|a l IH]; intros k s Hstep Hs Hrun.
  { simpl in *. simplify_eq. by rewrite Nat.add_0_r. }
  rewrite imap_cons in Hrun. cbn [py.foldM] in Hrun.
  apply bind_Some in Hrun as (s1 & Hf & Hrun).
  rewrite (imap_ext _ (λ j, pair (S k + j)%nat)) in Hrun
    by (intros; simpl; f_equal; lia).
  replace (k + length (a :: l))%nat with (S k + length l)%nat by (simpl; lia).
  apply (IH (S k) s1); [| |done].
  - intros j b s2 s3 Hb. replace (S k + j)%nat with (k + S j)%nat by lia.
    by apply Hstep.
  - specialize (Hstep 0%nat a s s1). rewrite Nat.add_0_r in Hstep, Hf. by apply Hstep.
Qed.

(** A loop over [enumerate(l)] with an invariant that knows how far the
    loop is. *)
Lemma foldM_enumerate_invariant {A St : Type} (f : St → nat * A → option St)
    (P : nat → St → Prop) l s s' :
  (∀ j a s s', l !! j = Some a → P j s → f s (j, a) = Some s' → P (S j) s') →
  P 0%nat s → py.foldM f s (py.enumerate l) = Some s' → P (length l) s'.
Proof.
  intros Hstep Hs Hrun. by apply (foldM_enumerate_from f P l 0 s s').
Qed.

Lemma changed_snoc a b n :
  changed a b (seq 0 (S n))
  = (changed a b (seq 0 n) + (if decide (a !! n = b !! n) then 0 else 1))%nat.
Proof.
  unfold changed. rewrite seq_S, filter_app, length_app. f_equal. simpl.
  rewrite filter_cons, filter_nil. by repeat case_decide.
Qed.

Lemma changed_ext a b b' l :
  (∀ i, i ∈ l → b !! i = b' !! i) → changed a b l = changed a b' l.
Proof.
  unfold changed. induction l as [|i l IH]; intros Hl; first done.
  rewrite !filter_cons, <-(Hl i) by left.
  case_decide; simpl; rewrite IH; try done; intros j Hj; apply Hl; by right.
Qed.

Lemma changed_le a b n : (changed a b (seq 0 n) ≤ n)%nat.
Proof.
  unfold changed. etrans; [apply length_filter|]. by rewrite length_seq.
Qed.

Lemma changed_0 a b n :
  changed a b (seq 0 n) = 0%nat → ∀ i, (i < n)%nat → a !! i = b !! i.
Proof.
  induction n as [|n IH]; intros Hc i Hi; first lia.
  rewrite changed_snoc in Hc. case_decide; [|lia].
  destruct (decide (i = n)) as [->|]; [done|]. apply IH; lia.
Qed.

Lemma labelled_with_insert f docs d_z i doc l l' z :
  docs !! i = Some doc → d_z !! i = Some l →
  labelled_with f docs (<[i := l']> d_z) z
  = labelled_with f docs d_z z
    - (if decide (l = Some z) then f doc else 0)
    + (if decide (l' = Some z) then f doc else 0).
Proof.
  unfold labelled_with, total. revert d_z i.
  induction docs as [|doc0 docs IH]; intros [|l0 d_z] [|i] Hdoc Hl; simplify_eq/=.
  - lia.
  - rewrite (IH d_z i) by done. lia.
Qed.

Lemma labelled_with_unlabelled f docs z :
  labelled_with f docs (replicate (length docs) None) z = 0.
Proof.
  unfold labelled_with, total. induction docs as [|doc docs IH]; simpl; [done | lia].
Qed.

Lemma corpus_tokens_snoc docs doc :
  corpus_tokens (docs ++ [doc]) = corpus_tokens docs + Z.of_nat (length doc).
Proof.
  unfold corpus_tokens, total. induction docs as [|d docs IH]; csimpl; [lia|].
  rewrite IH. lia.
Qed.

Section Labels.
Context `{!np.numpy} `{!np.random}.

(** What an initialisation step that returns has done. *)
Lemma init_doc_inv s i doc s' :
  init_doc s (i, doc) = Some s' →
  ∃ z,
    s'.(d_z) = <[i := Some z]> s.(d_z)
    ∧ s'.(stdout) = s.(stdout)
    ∧ s'.(self).(cluster_doc_count) = alter (λ x, x + 1) z s.(self).(cluster_doc_count)
    ∧ s'.(self).(cluster_word_count)
      = alter (λ x, x + Z.of_nat (length doc)) z s.(self).(cluster_word_count)
    ∧ (z < length s.(self).(cluster_doc_count))%nat
    ∧ (z < length s.(self).(cluster_word_count))%nat.
Proof.
  unfold init_doc. intros Hrun.
  apply bind_Some in Hrun as ([z g'] & Hz & Hrun).
  apply bind_Some in Hrun as (mgp & Hadd & Hrun). simplify_eq/=.
  unfold add_doc in Hadd.
  apply bind_Some in Hadd as (m2 & Hm2 & Hadd).
  apply bind_Some in Hadd as (n2 & Hn2 & Hadd).
  apply bind_Some in Hadd as (w2 & Hw2 & Hadd). simplify_eq/=.
  exists z.
  apply list_add_alter in Hm2 as [[x2 Hx2%lookup_lt_Some] ->].
  apply list_add_alter in Hn2 as [[y2 Hy2%lookup_lt_Some] ->]. by repeat split.
Qed.

(** A count list that follows the labels still does when document [i]
    moves from its label [l] to cluster [z_new]. *)
Lemma labelled_with_move f docs d_z c i doc l z_new z :
  docs !! i = Some doc → d_z !! i = Some l →
  (∀ z_old, l = Some z_old → (z_old < length c)%nat) → (z_new < length c)%nat →
  (z < length c)%nat →
  (∀ z, (z < length c)%nat → c !! z = Some (labelled_with f docs d_z z)) →
  alter (λ x, x + f doc) z_new
    (match l with Some z_old => alter (λ x, x + - f doc) z_old c | None => c end) !! z
  = Some (labelled_with f docs (<[i := Some z_new]> d_z) z).
Proof.
  intros Hdoc Hl Hold Hnew Hz Hc.
  rewrite (labelled_with_insert f docs d_z i doc l (Some z_new)) by done.
  rewrite list_lookup_alter. destruct l as [z_old|].
  - rewrite !list_lookup_alter. specialize (Hold z_old eq_refl).
    repeat case_decide; simplify_eq/=; rewrite ?Hc by done; simpl; f_equal; lia.
  - repeat case_decide; simplify_eq/=; rewrite ?Hc by done; simpl; f_equal; lia.
Qed.

Lemma init_doc_counts_match docs K0 s i doc s' :
  docs !! i = Some doc → s.(d_z) !! i = Some None →
  counts_match docs K0 s → init_doc s (i, doc) = Some s' →
  counts_match docs K0 s' ∧ ∃ z, s'.(d_z) = <[i := Some z]> s.(d_z).
Proof.
  intros Hdoc Hi [Hlen Hm Hn Hlab Hdocs Htok] (z & Hd & _ & Hm' & Hn' & Hz & _)%init_doc_inv.
  split; [|by eauto]. split.
  - by rewrite Hd, length_insert.
  - by rewrite Hm', length_alter.
  - by rewrite Hn', length_alter.
  - intros j z'. rewrite Hd. destruct (decide (i = j)) as [<-|Hne].
    + rewrite list_lookup_insert_eq by (by eapply lookup_lt_Some). intros [= <-]. lia.
    + rewrite list_lookup_insert_ne by done. apply Hlab.
  - intros z' Hz'. rewrite Hm', Hd. unfold docs_in.
    apply (labelled_with_move (λ _, 1) docs (d_z s) _ i doc None z z');
      [done | done | done | lia | lia |].
    intros z0 Hz0. apply Hdocs. lia.
  - intros z' Hz'. rewrite Hn', Hd. unfold tokens_in.
    apply (labelled_with_move (λ doc, Z.of_nat (length doc)) docs (d_z s) _ i doc None z z');
      [done | done | done | lia | lia |].
    intros z0 Hz0. apply Htok. lia.
Qed.

Lemma reassign_counts_match docs K0 st i doc st' :
  docs !! i = Some doc →
  counts_match docs K0 st.1 → reassign st (i, doc) = Some st' →
  counts_match docs K0 st'.1
  ∧ ∃ z, st.1.(d_z) !! i = Some (Some z) ∧ ∃ z', st'.1.(d_z) = <[i := Some z']> st.1.(d_z).
Proof.
  destruct st as [s t], st' as [s' t']. simpl.
  intros Hdoc [Hlen Hm Hn Hlab Hdocs Htok]
    (z_old & z_new & w1 & Hi & Hd & _ & _ & Hm' & Hn' & _ & _ & Hold & Hnew & _)%reassign_inv.
  split; [|by eauto]. split.
  - by rewrite Hd, length_insert.
  - by rewrite Hm', !length_alter.
  - by rewrite Hn', !length_alter.
  - intros j z'. rewrite Hd. destruct (decide (i = j)) as [<-|Hne].
    + rewrite list_lookup_insert_eq by (by eapply lookup_lt_Some). intros [= <-]. lia.
    + rewrite list_lookup_insert_ne by done. apply Hlab.
  - intros z' Hz'. rewrite Hm', Hd. unfold docs_in.
    apply (labelled_with_move (λ _, 1) docs (d_z s) _ i doc (Some z_old) z_new z');
      [done | done | intros ? [= <-]; lia | lia | lia |].
    intros z0 Hz0. apply Hdocs. lia.
  - intros z' Hz'. rewrite Hn', Hd. unfold tokens_in.
    apply (labelled_with_move (λ doc, Z.of_nat (length doc)) docs (d_z s) _ i doc
             (Some z_old) z_new z');
      [done | done | intros ? [= <-]; lia | lia | lia |].
    intros z0 Hz0. apply Htok. lia.
Qed.

(** An invariant of the reassignment steps is an invariant of the
    sweeps. *)
Lemma sweeps_invariant (I : fit_state → Prop) docs iters cluster_count s s' :
  (∀ s t i doc s' t', docs !! i = Some doc → I s →
     reassign (s, t) (i, doc) = Some (s', t') → I s') →
  (∀ e s, I s → I (print e s)) →
  I s → sweeps docs iters cluster_count s = Some s' → I s'.
Proof.
  intros Hstep Hprint. revert cluster_count s.
  induction iters as [|i iters IH]; intros cc s Hs Hrun.
  { by simplify_eq/=. }
  cbn [sweeps] in Hrun. apply bind_Some in Hrun as ([s1 t] & Hsweep & Hrun).
  cbv beta iota zeta in Hrun.
  assert (I s1) as Hs1.
  { apply (foldM_invariant_elem reassign (λ st, I st.1)
             (py.enumerate docs) (s, 0%nat) (s1, t)); [|done|exact Hsweep].
    intros [s2 t2] [j doc] [s3 t3] (j' & doc' & [= -> ->] & Hdoc)%elem_of_lookup_imap_1.
    simpl. by apply Hstep. }
  case_decide.
  - simplify_eq. by apply Hprint, Hprint.
  - eapply IH; [|exact Hrun]. by apply Hprint.
Qed.

Lemma sweeps_counts_match docs K0 iters cluster_count s s' :
  counts_match docs K0 s ∧ all_labelled docs s →
  sweeps docs iters cluster_count s = Some s' →
  counts_match docs K0 s' ∧ all_labelled docs s'.
Proof.
  apply (sweeps_invariant (λ s, counts_match docs K0 s ∧ all_labelled docs s)).
  - intros s1 t i doc s2 t' Hdoc [Hcm Hall] Hstep.
    destruct (reassign_counts_match _ _ (s1, t) _ _ (s2, t') Hdoc Hcm Hstep)
      as (Hcm' & z & Hz & z' & Hd). simpl in *.
    split; [done|]. intros k Hk. rewrite Hd. destruct (decide (i = k)) as [<-|Hne].
    + exists z'. apply list_lookup_insert_eq. by eapply lookup_lt_Some.
    + rewrite list_lookup_insert_ne by done. by apply Hall.
  - intros e x [[] ?]. by split.
Qed.

Lemma initialize_counts_match K0 alpha beta n_iters docs V g s :
  initialize (__init__ K0 alpha beta n_iters) docs V g = Some s →
  counts_match docs K0 s ∧ all_labelled docs s.
Proof.
  unfold initialize. set (s_init := Build_fit_state _ _ _ _). intros Hrun.
  pose (P := λ (j : nat) (s : fit_state),
    counts_match docs K0 s
    ∧ (∀ i, (i < j)%nat → ∃ z, s.(d_z) !! i = Some (Some z))
    ∧ (∀ i, (j ≤ i < length docs)%nat → s.(d_z) !! i = Some None)).
  cut (P (length docs) s); [by intros (? & ? & _)|].
  apply (foldM_enumerate_invariant init_doc P docs s_init); [| |exact Hrun].
  - clear. intros j doc s1 s2 Hdoc (Hcm & Hdone & Htodo) Hstep.
    pose proof (lookup_lt_Some _ _ _ Hdoc) as Hj.
    destruct (init_doc_counts_match docs K0 s1 j doc s2) as (Hcm' & z & Hd);
      [done | apply Htodo; lia | done | done |].
    assert (j < length (d_z s1))%nat by (rewrite (cm_length _ _ _ Hcm); lia).
    split; [done|]. split.
    + intros i Hi. rewrite Hd. destruct (decide (j = i)) as [<-|Hne].
      * exists z. by apply list_lookup_insert_eq.
      * rewrite list_lookup_insert_ne by done. apply Hdone. lia.
    + intros i Hi. rewrite Hd, list_lookup_insert_ne by lia. apply Htodo. lia.
  - split; [|split].
    + split; simpl; [by rewrite length_replicate..| | |].
      * intros i z [[=] _]%lookup_replicate.
      * intros z Hz. unfold docs_in. rewrite labelled_with_unlabelled.
        by apply lookup_replicate_2.
      * intros z Hz. unfold tokens_in. rewrite labelled_with_unlabelled.
        by apply lookup_replicate_2.
    + intros i Hi. lia.
    + intros i Hi. simpl. apply lookup_replicate_2. lia.
Qed.

(** X2. When [fit] on a fresh model returns, every document has a label
    in [range(K)], [cluster_doc_count[z]] is the number of documents
    labelled [z] and [cluster_word_count[z]] the number of their
    tokens. *)
Theorem fit_counts_match_labels K0 alpha beta n_iters docs V g s :
  fit (__init__ K0 alpha beta n_iters) docs V g = Some s →
  length s.(d_z) = length docs
  ∧ (∀ i, (i < length docs)%nat → ∃ z, s.(d_z) !! i = Some (Some z) ∧ (z < K0)%nat)
  ∧ length s.(self).(cluster_doc_count) = K0
  ∧ length s.(self).(cluster_word_count) = K0
  ∧ ∀ z, (z < K0)%nat →
      s.(self).(cluster_doc_count) !! z = Some (docs_in docs s.(d_z) z)
      ∧ s.(self).(cluster_word_count) !! z = Some (tokens_in docs s.(d_z) z).
Proof.
  unfold fit. intros Hrun. apply bind_Some in Hrun as (s0 & Hinit & Hrun).
  apply initialize_counts_match in Hinit.
  destruct (sweeps_counts_match _ _ _ _ _ _ Hinit Hrun) as [[Hlen Hm Hn Hlab Hdocs Htok] Hall].
  repeat split; [done| |done|done|by apply Hdocs|by apply Htok].
  intros i Hi. destruct (Hall i Hi) as [z Hz]. exists z. split; [done|]. by eapply Hlab.
Qed.

(** X15. [fit] adds the tokens of the corpus to the word counts: at
    return [sum(cluster_word_count)] is what it was at entry plus the
    number of tokens of [docs]. *)
Theorem fit_counts_tokens mgp docs V g s :
  fit mgp docs V g = Some s →
  total s.(self).(cluster_word_count)
  = total mgp.(cluster_word_count) + corpus_tokens docs.
Proof.
  unfold fit. intros Hrun. apply bind_Some in Hrun as (s0 & Hinit & Hrun).
  assert (total s0.(self).(cluster_word_count)
          = total mgp.(cluster_word_count) + corpus_tokens docs) as Hs0.
  { unfold initialize in Hinit.
    pose (P := λ (j : nat) (s : fit_state),
      total s.(self).(cluster_word_count)
      = total mgp.(cluster_word_count) + corpus_tokens (take j docs)).
    cut (P (length docs) s0); [unfold P; by rewrite firstn_all|].
    eapply (foldM_enumerate_invariant init_doc P docs); [|clear Hinit|exact Hinit].
    - clear. intros j doc s1 s2 Hdoc Hs1
        (z & _ & _ & _ & Hn & _ & [x Hx]%lookup_lt_is_Some)%init_doc_inv.
      unfold P in *. rewrite Hn, (total_alter _ _ _ x), Hs1 by done.
      rewrite (take_S_r _ _ doc), corpus_tokens_snoc by done. lia.
    - unfold P. simpl. unfold corpus_tokens, total. simpl. lia. }
  rewrite <-Hs0.
  eapply (sweeps_invariant
           (λ x, total x.(self).(cluster_word_count) = total s0.(self).(cluster_word_count))
           docs _ _ s0 s); [| |done|exact Hrun].
  - clear. intros s1 t i doc s2 t' _ Hs1
      (z_old & z_new & _ & _ & _ & _ & _ & _ & Hn & _ & _ & _ & _
       & [x Hx]%lookup_lt_is_Some & Hnew & _)%reassign_inv.
    rewrite <-(length_alter (λ x, x + - Z.of_nat (length doc)) _ z_old) in Hnew.
    apply lookup_lt_is_Some in Hnew as [y Hy].
    rewrite Hn, (total_alter _ _ _ y), (total_alter _ _ _ x), Hs1 by done. lia.
  - done.
Qed.

(** X3. [total_transfers] of a sweep is the number of documents whose
    label after the sweep is not the label they had before it. *)
Theorem sweep_counts_transfers docs s s' total_transfers :
  sweep docs s = Some (s', total_transfers) →
  total_transfers = changed s.(d_z) s'.(d_z) (seq 0 (length docs))
  ∧ (total_transfers ≤ length docs)%nat
  ∧ (total_transfers = 0%nat → ∀ i, (i < length docs)%nat → s'.(d_z) !! i = s.(d_z) !! i).
Proof.
  intros Hrun.
  cut (total_transfers = changed s.(d_z) s'.(d_z) (seq 0 (length docs))).
  { intros ->. split; [done|]. split; [apply changed_le|].
    intros Hzero i Hi. symmetry. by eapply changed_0. }
  pose (P := λ (j : nat) (st : fit_state * nat),
    st.2 = changed s.(d_z) st.1.(d_z) (seq 0 j)
    ∧ ∀ i, (j ≤ i)%nat → st.1.(d_z) !! i = s.(d_z) !! i).
  cut (P (length docs) (s', total_transfers)); [by intros [? _]|].
  apply (foldM_enumerate_invariant reassign P docs (s, 0%nat)); [|done|exact Hrun].
  clear. intros j doc [s1 t1] [s2 t2] _ [Ht Hrest]
    (z_old & z_new & w1 & Hj & Hd & -> & _)%reassign_inv. simpl in *.
  split; cbn [fst snd].
  - rewrite changed_snoc, Hd, <-(Hrest j), Hj by done.
    rewrite list_lookup_insert_eq by (by eapply lookup_lt_Some).
    rewrite (changed_ext _ _ (d_z s1)).
    + rewrite <-Ht. repeat case_decide; simplify_eq; lia.
    + intros i [_ Hi]%elem_of_seq. rewrite list_lookup_insert_ne by lia. done.
  - intros i Hi. rewrite Hd, list_lookup_insert_ne by lia. apply Hrest. lia.
Qed.

End Labels.

(** ** The sampler *)

Lemma first_nonzero_from k (draw : list Z) :
  match head ((filter (λ ie : nat * Z, ie.2 ≠ 0) (imap (λ j, pair (k + j)%nat) draw)).*1) with
  | None => Forall (λ e, e = 0) draw
  | Some i => ∃ j, i = (k + j)%nat ∧ first_nonzero draw j
  end.
Proof.
  revert k. induction draw as [|e draw IH]; intros k; first by constructor.
  rewrite imap_cons, filter_cons. cbn [snd]. case_decide as He.
  - csimpl. exists 0%nat. split; [lia|]. split; [by exists e | intros; lia].
  - subst e.
    rewrite (imap_ext _ (λ j, pair (S k + j)%nat)) by (intros; simpl; f_equal; lia).
    specialize (IH (S k)). destruct (head _) as [i|].
    + destruct IH as (j & -> & [Hj Hbefore]). exists (S j). split; [lia|].
      split; [done|]. intros [|j'] Hj'; [done|]. apply Hbefore. lia.
    + by constructor.
Qed.

Section Sampler.
Context `{!np.random}.

(** X6. [_sample] returns the index of the first non-zero entry of the
    draw, with the generator as [multinomial] left it, and raises exactly
    when [multinomial] does or the draw has no non-zero entry. *)
Theorem sample_first_nonzero p g :
  match np.multinomial 1 p g with
  | None => _sample p g = None
  | Some (draw, g') =>
      (∀ i, _sample p g = Some (i, g') ↔ first_nonzero draw i)
      ∧ (_sample p g = None ↔ Forall (λ e, e = 0) draw)
  end.
Proof.
  unfold _sample. destruct (np.multinomial 1 p g) as [[draw g']|]; [|done]. simpl.
  pose proof (first_nonzero_from 0 draw) as Hhead. unfold py.enumerate.
  destruct (head _) as [i|]; simpl.
  - destruct Hhead as (j & -> & [(e & Hj & He) Hbefore]). simpl. split.
    + intros i. split.
      * intros [= <-]. split; [by exists e | done].
      * intros [(e' & Hi & He') Hbefore']. do 2 f_equal.
        destruct (lt_eq_lt_dec i j) as [[Hlt| ->]|Hlt]; [|done|].
        -- specialize (Hbefore i Hlt). congruence.
        -- specialize (Hbefore' j Hlt). congruence.
    + split; [done|]. intros Hall. destruct He.
      by apply (Forall_lookup_1 _ _ _ _ Hall Hj).
  - split; [|done]. intros i. split; [done|].
    intros [(e & Hi & He) _]. destruct He. by apply (Forall_lookup_1 _ _ _ _ Hhead Hi).
Qed.

End Sampler.

(** ** The order of the summary *)

Lemma StronglySorted_reverse {A : Type} (R : A → A → Prop) (l : list A) :
  StronglySorted R l → StronglySorted (flip R) (reverse l).
Proof.
  induction 1 as [|x l Hl IH Hx]; first by constructor.
  rewrite reverse_cons. apply StronglySorted_app_2; [|done|by repeat constructor].
  intros a b Ha ->%list_elem_of_singleton. rewrite elem_of_reverse in Ha.
  by apply (proj1 (Forall_forall _ _) Hx).
Qed.

Lemma slice_from_drop {A : Type} (k : nat) (a : list A) :
  py.slice_from (- Z.of_nat k) a
  = drop (length a - (if decide (k = 0%nat) then length a else k `min` length a)) a.
Proof.
  unfold py.slice_from. destruct (Z.ltb_spec (- Z.of_nat k) 0).
  - rewrite decide_False by lia. f_equal. lia.
  - rewrite decide_True by lia. replace (- Z.of_nat k) with 0 by lia.
    by rewrite Nat.sub_diag.
Qed.

(** A stable sort keeps the entries of one count in their order. *)
Lemma insert_desc_filter {Key : Type} (x : Key * Z) (l : list (Key * Z)) c :
  filter (λ y, y.2 = c) (py.insert_desc x l) = filter (λ y, y.2 = c) (x :: l).
Proof.
  induction l as [|y l IH]; simpl; first done.
  destruct (Z.ltb_spec x.2 y.2) as [Hlt|Hge]; [|done].
  rewrite (filter_cons _ y), IH, !filter_cons.
  repeat case_decide; try done; lia.
Qed.

Lemma sorted_desc_filter {Key : Type} (l : list (Key * Z)) c :
  filter (λ y, y.2 = c) (py.sorted_desc l) = filter (λ y, y.2 = c) l.
Proof.
  induction l as [|x l IH]; simpl; first done.
  by rewrite insert_desc_filter, !filter_cons, IH.
Qed.

Lemma slice_to_take {A : Type} (k_words : Z) (a : list A) :
  py.slice_to k_words a = take (kept k_words (length a)) a.
Proof.
  unfold py.slice_to, kept. destruct (k_words <? 0); [done|].
  destruct (decide (Z.to_nat k_words ≤ length a)%nat).
  - by rewrite Nat.min_l.
  - rewrite Nat.min_r, firstn_all by lia. apply take_ge. lia.
Qed.

Section Order.
Context `{!np.numpy}.

Lemma get_top_words_on mgp k_words merge_token :
  let top_index :=
    reverse (py.slice_from (- Z.of_nat mgp.(K)) (np.argsort mgp.(cluster_doc_count))) in
  NoDup top_index →
  (∀ z, z ∈ top_index → (z < length mgp.(cluster_word_distribution))%nat) →
  get_top_words mgp k_words merge_token
  = Some ((λ z, (z, String.concat merge_token
                      (top_words k_words
                         (default [] (mgp.(cluster_word_distribution) !! z))).*1))
          <$> top_index).
Proof.
  intros top_index Hnodup Hcover. unfold get_top_words. fold top_index.
  rewrite <-(foldM_dict_fill
    (λ z, d ← mgp.(cluster_word_distribution) !! z;
          Some (String.concat merge_token (top_words k_words d).*1))).
  - apply foldM_ext. intros out z _.
    by destruct (cluster_word_distribution mgp !! z).
  - done.
  - intros z Hz.
    by destruct (lookup_lt_is_Some_2 mgp.(cluster_word_distribution) z) as [d ->];
      first by apply Hcover.
Qed.

(** X7. With an [argsort] that returns the indices of its argument in
    ascending order of value, and a table for every cluster counted,
    [get_top_words] lists the clusters from the most populated down:
    the keys are distinct, in descending order of [cluster_doc_count],
    and no cluster left out holds more documents than a listed one. All
    clusters are listed when [K] is 0 or exceeds their number, the [K]
    most populated otherwise. *)
Theorem get_top_words_order mgp k_words merge_token :
  np.argsort mgp.(cluster_doc_count) ≡ₚ seq 0 (length mgp.(cluster_doc_count)) →
  StronglySorted (λ a b, doc_count_of mgp a ≤ doc_count_of mgp b)
    (np.argsort mgp.(cluster_doc_count)) →
  (length mgp.(cluster_doc_count) ≤ length mgp.(cluster_word_distribution))%nat →
  ∃ topic_words,
    get_top_words mgp k_words merge_token = Some topic_words
    ∧ length topic_words = listed_clusters mgp
    ∧ NoDup topic_words.*1
    ∧ StronglySorted (λ a b, doc_count_of mgp b ≤ doc_count_of mgp a) topic_words.*1
    ∧ ∀ a b, a ∈ topic_words.*1 → (b < length mgp.(cluster_doc_count))%nat →
        b ∉ topic_words.*1 → doc_count_of mgp b ≤ doc_count_of mgp a.
Proof.
  intros Hperm Hsorted Hcover.
  pose proof (get_top_words_on mgp k_words merge_token) as Heq. cbv zeta in Heq.
  assert (length (np.argsort mgp.(cluster_doc_count)) = length mgp.(cluster_doc_count))
    as Hlen by (by rewrite Hperm, length_seq).
  set (k := (length mgp.(cluster_doc_count) - listed_clusters mgp)%nat).
  assert (py.slice_from (- Z.of_nat mgp.(K)) (np.argsort mgp.(cluster_doc_count))
          = drop k (np.argsort mgp.(cluster_doc_count))) as Hslice.
  { by rewrite slice_from_drop, Hlen. }
  rewrite Hslice in Heq.
  assert (listed_clusters mgp ≤ length mgp.(cluster_doc_count))%nat as Hle.
  { unfold listed_clusters. case_decide; lia. }
  pose proof (take_drop k (np.argsort mgp.(cluster_doc_count))) as Hsplit.
  assert (NoDup (np.argsort mgp.(cluster_doc_count))) as Hnodup.
  { rewrite Hperm. apply NoDup_seq. }
  rewrite <-Hsplit in Hnodup, Hsorted.
  apply NoDup_app in Hnodup as (_ & Hdisj & Hnodup).
  eexists. split.
  { apply Heq.
    - by rewrite reverse_Permutation.
    - intros z Hz. rewrite elem_of_reverse in Hz.
      assert (z ∈ np.argsort mgp.(cluster_doc_count)) as Hin.
      { rewrite <-Hsplit. apply elem_of_app. by right. }
      rewrite Hperm, elem_of_seq in Hin. lia. }
  assert (∀ (g : nat → string) l, ((λ z, (z, g z)) <$> l).*1 = l) as Hkeys.
  { intros g l. rewrite <-list_fmap_compose. apply list_fmap_id. }
  rewrite Hkeys, length_fmap, length_reverse, length_drop, Hlen.
  split; [lia|]. split; [by rewrite reverse_Permutation|]. split.
  - apply (StronglySorted_reverse _ _ (StronglySorted_app_1_r _ _ _ Hsorted)).
  - intros a b Ha Hb Hnot. rewrite elem_of_reverse in Ha.
    assert (b ∈ take k (np.argsort mgp.(cluster_doc_count))) as Hb'.
    { assert (b ∈ np.argsort mgp.(cluster_doc_count)) as Hin.
      { rewrite Hperm, elem_of_seq. lia. }
      rewrite <-Hsplit in Hin. apply elem_of_app in Hin as [Hin|Hin]; [done|].
      destruct Hnot. by apply elem_of_reverse. }
    by apply (StronglySorted_app_1_elem_of _ _ _ b a Hsorted).
Qed.

(** X8. For any [k_words], negative ones included, the value of a
    cluster joins the first entries of its table sorted by descending
    count, as many as the slice [[:k_words]] keeps; among the tokens of
    one count the listed ones are those inserted first, in the order of
    insertion. *)
Theorem get_top_words_ties mgp k_words merge_token :
  np.argsort mgp.(cluster_doc_count) ≡ₚ seq 0 (length mgp.(cluster_doc_count)) →
  length mgp.(cluster_doc_count) = mgp.(K) →
  (mgp.(K) ≤ length mgp.(cluster_word_distribution))%nat →
  ∃ topic_words,
    get_top_words mgp k_words merge_token = Some topic_words
    ∧ ∀ z d, (z < mgp.(K))%nat → mgp.(cluster_word_distribution) !! z = Some d →
        ∃ top rest,
          py.dict_get topic_words z = Some (String.concat merge_token top.*1)
          ∧ top ++ rest ≡ₚ d
          ∧ StronglySorted (λ a b, b.2 ≤ a.2) (top ++ rest)
          ∧ length top = kept k_words (length d)
          ∧ ∀ c, filter (λ x, x.2 = c) top `prefix_of` filter (λ x, x.2 = c) d.
Proof.
  intros Hperm Hlen Hcover. eexists. split; first by apply get_top_words_eq.
  intros z d Hz Hd.
  rewrite (dict_get_fmap_keys _ _ z)
    by (rewrite elem_of_reverse, Hperm, elem_of_seq; lia).
  rewrite Hd. simpl. unfold top_words. rewrite slice_to_take.
  set (n := kept k_words (length (py.sorted_desc d))).
  exists (take n (py.sorted_desc d)), (drop n (py.sorted_desc d)).
  assert (kept k_words (length d) ≤ length d)%nat as Hkept.
  { unfold kept. destruct (Z.ltb_spec k_words 0); lia. }
  assert (length (py.sorted_desc d) = length d) as Hlen' by (by rewrite sorted_desc_perm).
  split; [done|]. rewrite take_drop.
  split; [apply sorted_desc_perm|]. split; [apply sorted_desc_sorted|].
  split.
  - unfold n. rewrite length_take, Hlen'. lia.
  - intros c. rewrite <-(sorted_desc_filter d c).
    rewrite <-(take_drop n (py.sorted_desc d)) at 2. rewrite filter_app.
    by apply prefix_app_r.
Qed.

End Order.

(** ** Edge cases of [fit] *)

Section Edges.
Context `{!np.numpy} `{!np.random}.

Lemma sweeps_empty_corpus n k s :
  (k ≤ 26)%nat →
  ∃ s', sweeps_by_transfers [] (seq k n) s = Some s'
    ∧ s'.(self) = s.(self) ∧ s'.(d_z) = s.(d_z) ∧ s'.(gen) = s.(gen)
    ∧ s'.(stdout)
      = s.(stdout)
        ++ ((λ i, Stage i 0 (populated s.(self).(cluster_doc_count)))
              <$> seq k (n `min` (27 - k)))
        ++ (if decide (27 - k ≤ n)%nat then [Converged] else []).
Proof.
  revert k s. induction n as [|n IH]; intros k s Hk.
  { exists s. rewrite decide_False by lia. simpl. by rewrite app_nil_r. }
  cbn [seq sweeps_by_transfers]. unfold sweep. cbn [py.enumerate imap py.foldM].
  cbn [mbind option_bind]. cbv beta iota zeta.
  destruct (decide (0%nat = 0%nat ∧ (25 < k)%nat)) as [[_ Hk']|Hno].
  - assert (k = 26)%nat as -> by lia. eexists. split; [reflexivity|].
    rewrite decide_True by lia. replace (S n `min` (27 - 26))%nat with 1%nat by lia.
    simpl. repeat split. by rewrite <-app_assoc.
  - destruct (IH (S k) (print (Stage k 0 (populated s.(self).(cluster_doc_count))) s))
      as (s' & -> & Hself & Hd & Hg & Hout); [lia|].
    exists s'. split; [done|]. split; [done|]. split; [done|]. split; [done|].
    rewrite Hout.
    replace (S n `min` (27 - k))%nat with (S (n `min` (27 - S k)))%nat by lia.
    cbn [print stdout self seq]. rewrite fmap_cons, <-!app_assoc. cbn [app].
    do 3 f_equal.
    destruct (decide (27 - S k ≤ n)%nat), (decide (27 - k ≤ S n)%nat); try done; lia.
Qed.

(** X9. On an empty corpus [fit] returns without drawing: no labels, the
    generator and the statistics untouched, [number_docs] set to 0 and
    [vocab_size] to the argument; it prints one line without transfers
    for each of the sweeps [0..26] that [n_iters] allows, and stops at
    sweep 26 when [n_iters] goes that far. *)
Theorem fit_empty_corpus mgp V g :
  ∃ s, fit mgp [] V g = Some s
    ∧ s.(d_z) = [] ∧ s.(gen) = g
    ∧ s.(self) = set_computed mgp (Some 0) (Some V) mgp.(cluster_doc_count)
                   mgp.(cluster_word_count) mgp.(cluster_word_distribution)
    ∧ s.(stdout)
      = empty_corpus_output (populated mgp.(cluster_doc_count)) mgp.(n_iters).
Proof.
  unfold fit, initialize. cbn [py.enumerate imap py.foldM length mbind option_bind].
  rewrite sweeps_by_transfers_eq by (left; lia).
  edestruct (sweeps_empty_corpus mgp.(n_iters) 0) as (s & -> & Hself & Hd & Hg & Hout);
    [lia|].
  exists s. rewrite Hself, Hd, Hg, Hout. simpl. by repeat split.
Qed.

(** X10. A model without clusters cannot take a document: on a
    non-empty corpus [fit] raises, whatever the generator draws. *)
Theorem fit_without_clusters mgp docs V g :
  mgp.(cluster_doc_count) = [] → docs ≠ [] → fit mgp docs V g = None.
Proof.
  intros Hm Hdocs. destruct docs as [|doc docs]; [done|].
  unfold fit, initialize, py.enumerate. rewrite imap_cons. cbn [py.foldM].
  unfold init_doc at 2. cbn [self gen].
  destruct (_sample _ g) as [[z g']|]; [|done]. cbn [mbind option_bind].
  unfold add_doc, list_add. simpl. by rewrite Hm.
Qed.

End Edges.

(** ** When the scorer raises *)

Lemma foldM_None_all {A St : Type} (f : St → A → option St) l s :
  (∀ s a, f s a = None) → l ≠ [] → py.foldM f s l = None.
Proof.
  intros Hf Hl. destruct l as [|a l]; [done|]. simpl. by rewrite Hf.
Qed.

Lemma foldM_Some_all {A St : Type} (f : St → A → option St) l s :
  (∀ s a, is_Some (f s a)) → is_Some (py.foldM f s l).
Proof.
  intros Hf. revert s. induction l as [|a l IH]; intros s; simpl; first by eauto.
  destruct (Hf s a) as [s1 ->]. apply IH.
Qed.

Lemma foldM_fill_None {A : Type} (f : nat → option A) (p : list A) l :
  py.foldM (λ p i, w ← f i; Some (<[i := w]> p)) p l = None ↔ ∃ i, i ∈ l ∧ f i = None.
Proof.
  revert p. induction l as [|i l IH]; intros p; simpl.
  { split; [done|]. by intros (i & ?%elem_of_nil & _). }
  destruct (f i) as [w|] eqn:Hi; simpl.
  - rewrite IH. split.
    + intros (j & Hj & Hnone). exists j. split; [by right | done].
    + intros (j & [->|Hj]%elem_of_cons & Hnone); [congruence|]. by exists j.
  - split; [|done]. intros _. exists i. split; [by left | done].
Qed.

Lemma foldM_fill_length {A : Type} (f : nat → option A) (p p' : list A) l :
  py.foldM (λ p i, w ← f i; Some (<[i := w]> p)) p l = Some p' → length p' = length p.
Proof.
  revert p. induction l as [|i l IH]; intros p Hrun; simpl in Hrun; first by simplify_eq.
  apply bind_Some in Hrun as (p1 & Hp1 & Hrun).
  apply bind_Some in Hp1 as (w & _ & [= <-]).
  rewrite (IH _ Hrun). by rewrite length_insert.
Qed.

Section Raises.
Context `{!np.numpy}.

Lemma score_label_None mgp doc lD1 label :
  score_label mgp doc lD1 label = None
  ↔ mgp.(cluster_doc_count) !! label = None
    ∨ doc ≠ [] ∧ (mgp.(cluster_word_distribution) !! label = None
                  ∨ mgp.(cluster_word_count) !! label = None
                  ∨ mgp.(vocab_size) = None).
Proof.
  unfold score_label.
  destruct (cluster_doc_count mgp !! label) as [m|]; simpl; [|by split; [left|]].
  assert (seq 1 (length doc) ≠ [] ↔ doc ≠ []) as Hseq by (by destruct doc).
  destruct (cluster_word_distribution mgp !! label) as [d|]; simpl.
  - rewrite foldM_accumulate. simpl.
    destruct (cluster_word_count mgp !! label) as [n|]; simpl.
    + destruct (vocab_size mgp) as [V|]; simpl.
      * rewrite foldM_accumulate. simpl. split; [done|]. intros [?|[_ [?|[?|?]]]]; done.
      * destruct doc as [|w doc]; simpl.
        -- split; [done|]. intros [?|[? _]]; done.
        -- split; [|done]. intros _. right. split; [done|]. by right; right.
    + destruct doc as [|w doc]; simpl.
      * split; [done|]. intros [?|[? _]]; done.
      * split; [|done]. intros _. right. split; [done|]. by right; left.
  - destruct doc as [|w doc]; simpl.
    + destruct (cluster_word_count mgp !! label), (vocab_size mgp); simpl;
        (split; [done|]; intros [?|[? _]]; done).
    + split; [|done]. intros _. right. split; [done|]. by left.
Qed.

Lemma score_unnormalized_length mgp doc p :
  score_unnormalized mgp doc = Some p → length p = mgp.(K).
Proof.
  unfold score_unnormalized. intros Hrun. apply bind_Some in Hrun as (D & _ & Hrun).
  apply foldM_fill_length in Hrun. by rewrite Hrun, length_replicate.
Qed.

Lemma score_None mgp doc : score mgp doc = None ↔ score_lookup_raises mgp doc.
Proof.
  unfold score, score_lookup_raises.
  destruct (score_unnormalized mgp doc) as [p|] eqn:Hp; simpl.
  - split; [done|]. intros Hraises. exfalso. unfold score_unnormalized in Hp.
    destruct (number_docs mgp) as [D|]; simpl in Hp; [|done].
    destruct Hraises as [?|(label & Hlabel & Hnone)]; [done|].
    assert (py.foldM (λ p label,
              w ← score_label mgp doc
                    (np.log (IZR D - 1 + INR (K mgp) * alpha mgp)) label;
              Some (<[label := w]> p))
            (replicate (K mgp) 0%R) (seq 0 (K mgp)) = None) as Hnone'.
    { apply foldM_fill_None. exists label. split; [apply elem_of_seq; lia|].
      by apply score_label_None. }
    congruence.
  - split; [|done]. intros _. unfold score_unnormalized in Hp.
    destruct (number_docs mgp) as [D|]; simpl in Hp; [|by left].
    apply foldM_fill_None in Hp as (label & Hlabel%elem_of_seq & Hnone).
    right. exists label. split; [lia|]. by apply score_label_None in Hnone.
Qed.

Lemma score_Some_length mgp doc p : score mgp doc = Some p → length p = mgp.(K).
Proof.
  unfold score. intros Hrun. apply bind_Some in Hrun as (w & Hw & [= <-]).
  unfold normalize. rewrite length_map. by eapply score_unnormalized_length.
Qed.

(** X11. [score] raises on the states of [score_lookup_raises]: when
    [number_docs] is not set, or a cluster of [range(K)] has no document
    count, or the document has a token and a cluster of [range(K)] has no
    table or no word count, or [vocab_size] is not set. When the integers
    it combines with floats are within the range of [float], these are
    the only states on which it raises. What it returns has [K]
    entries. *)
Theorem score_raises_iff mgp doc :
  (score_lookup_raises mgp doc → score mgp doc = None)
  ∧ (float_operands mgp doc → score mgp doc = None → score_lookup_raises mgp doc)
  ∧ ∀ p, score mgp doc = Some p → length p = mgp.(K).
Proof.
  split; [apply score_None|]. split; [intros _; apply score_None|].
  apply score_Some_length.
Qed.

(** X12. [choose_best_label] raises when [score] does or the model has
    no cluster ([argmax] and [max] of an empty vector); when the integers
    [score] combines with floats are within the range of [float], it
    raises in no other state. *)
Theorem choose_best_label_raises_iff mgp doc :
  (score_lookup_raises mgp doc ∨ mgp.(K) = 0%nat → choose_best_label mgp doc = None)
  ∧ (float_operands mgp doc → choose_best_label mgp doc = None →
     score_lookup_raises mgp doc ∨ mgp.(K) = 0%nat).
Proof.
  cut (choose_best_label mgp doc = None ↔ score_lookup_raises mgp doc ∨ mgp.(K) = 0%nat).
  { intros Hiff. split; [apply Hiff | intros _; apply Hiff]. }
  rewrite <-score_None. unfold choose_best_label.
  destruct (score mgp doc) as [p|] eqn:Hp; simpl; [|by split; [left|]].
  apply score_Some_length in Hp. destruct p as [|x p]; simpl in *.
  - split; [by right | done].
  - split; [done|]. intros [?|?]; [done | lia].
Qed.

(** X13. [score] reads the tables through the counts only: two models
    with the same parameters, the same [cluster_doc_count] and
    [cluster_word_count], as many tables and the same count for every
    cluster and token give the same result, whatever the order of the
    tokens in the tables. *)
Theorem score_depends_on_counts mgp mgp' doc :
  same_model_counts mgp mgp' →
  score mgp' doc = score mgp doc
  ∧ choose_best_label mgp' doc = choose_best_label mgp doc.
Proof.
  intros Hsame. pose proof (score_same_counts _ _ doc Hsame) as Hscore.
  split; [done|]. unfold choose_best_label. by rewrite Hscore.
Qed.

End Raises.

(** ** What [fit] leaves alone *)

Lemma same_shape_trans mgp1 mgp2 mgp3 :
  same_shape mgp1 mgp2 → same_shape mgp2 mgp3 → same_shape mgp1 mgp3.
Proof. intros [] []. split; congruence. Qed.

Lemma remove_words_length z doc n_z_w n_z_w' :
  py.foldM (remove_word z) n_z_w doc = Some n_z_w' → length n_z_w' = length n_z_w.
Proof.
  apply (foldM_invariant (remove_word z) (λ n, length n = length n_z_w)); [|done].
  intros n w n' Hn Hstep. rewrite remove_word_eq in Hstep.
  apply bind_Some in Hstep as (d & _ & Hstep).
  apply bind_Some in Hstep as (c & _ & [= <-]). by rewrite length_insert.
Qed.

Lemma add_doc_shape z doc mgp mgp' :
  add_doc z doc mgp = Some mgp' → same_shape mgp mgp'.
Proof.
  intros Hadd. destruct (add_doc_config _ _ _ _ Hadd) as (? & ? & ? & ? & ? & ?).
  unfold add_doc in Hadd.
  apply bind_Some in Hadd as (m & Hm%list_add_length & Hadd).
  apply bind_Some in Hadd as (n & Hn%list_add_length & Hadd).
  apply bind_Some in Hadd as (w & (Hw & _)%add_words_inv & [= <-]). by split.
Qed.

Lemma remove_doc_shape z doc mgp mgp' :
  remove_doc z doc mgp = Some mgp' → same_shape mgp mgp'.
Proof.
  intros Hrem. destruct (remove_doc_config _ _ _ _ Hrem) as (? & ? & ? & ? & ? & ?).
  unfold remove_doc in Hrem.
  apply bind_Some in Hrem as (m & Hm%list_add_length & Hrem).
  apply bind_Some in Hrem as (n & Hn%list_add_length & Hrem).
  apply bind_Some in Hrem as (w & Hw%remove_words_length & [= <-]). by split.
Qed.

Section Shape.
Context `{!np.numpy} `{!np.random}.

Lemma init_doc_shape s idoc s' :
  init_doc s idoc = Some s' → same_shape s.(self) s'.(self).
Proof.
  destruct idoc as [i doc]. unfold init_doc. intros Hrun.
  apply bind_Some in Hrun as ([z g'] & _ & Hrun).
  apply bind_Some in Hrun as (mgp & Hadd & [= <-]). simpl. by eapply add_doc_shape.
Qed.

Lemma reassign_shape s t i doc s' t' :
  reassign (s, t) (i, doc) = Some (s', t') → same_shape s.(self) s'.(self).
Proof.
  unfold reassign. intros Hrun.
  apply bind_Some in Hrun as (z_old & _ & Hrun).
  apply bind_Some in Hrun as (mgp1 & Hrem & Hrun).
  apply bind_Some in Hrun as (p & _ & Hrun).
  apply bind_Some in Hrun as ([z_new g'] & _ & Hrun).
  apply bind_Some in Hrun as (mgp2 & Hadd & [= <- <-]). simpl.
  eapply same_shape_trans; [by eapply remove_doc_shape | by eapply add_doc_shape].
Qed.

(** X16. [fit] leaves the parameters and the size of the statistics
    alone: at return [K], [alpha], [beta] and [n_iters] are what they
    were, [vocab_size] is the argument, and the three statistics have as
    many slots as at entry. *)
Theorem fit_keeps_parameters mgp docs V g s :
  fit mgp docs V g = Some s →
  s.(self).(K) = mgp.(K) ∧ s.(self).(alpha) = mgp.(alpha)
  ∧ s.(self).(beta) = mgp.(beta) ∧ s.(self).(n_iters) = mgp.(n_iters)
  ∧ s.(self).(vocab_size) = Some V
  ∧ length s.(self).(cluster_doc_count) = length mgp.(cluster_doc_count)
  ∧ length s.(self).(cluster_word_count) = length mgp.(cluster_word_count)
  ∧ length s.(self).(cluster_word_distribution) = length mgp.(cluster_word_distribution).
Proof.
  unfold fit. intros Hrun. apply bind_Some in Hrun as (s0 & Hinit & Hrun).
  unfold initialize in Hinit.
  set (mgp0 := set_computed mgp _ _ _ _ _) in Hinit.
  assert (same_shape mgp0 s0.(self)) as Hs0.
  { refine (foldM_invariant init_doc (λ x, same_shape mgp0 x.(self)) _ _ _ _ _ Hinit);
      [|by split].
    intros x idoc x' Hx Hstep.
    eapply same_shape_trans; [exact Hx | by eapply init_doc_shape]. }
  assert (same_shape mgp0 s.(self)) as [].
  { eapply (sweeps_invariant (λ x, same_shape mgp0 x.(self))); [| |exact Hs0|exact Hrun].
    - intros s1 t i doc s2 t' _ Hs1 Hstep.
      eapply same_shape_trans; [exact Hs1 | by eapply reassign_shape].
    - done. }
  by repeat split.
Qed.

End Shape.

(** ** The score as a distribution *)

Lemma Rsum_pos l : l ≠ [] → Forall (λ x, (0 < x)%R) l → (0 < Rsum l)%R.
Proof.
  intros Hl Hpos. destruct Hpos as [|x l Hx Hpos]; [done|]. simpl.
  assert (0 <= Rsum l)%R; [|lra].
  apply Rsum_nonneg. eapply Forall_impl; [exact Hpos|]. simpl. intros; lra.
Qed.

Lemma Rsum_le_max l v :
  (∀ j x, l !! j = Some x → (x <= v)%R) → (Rsum l <= INR (length l) * v)%R.
Proof.
  induction l as [|y l IH]; intros Hle; [simpl; lra|].
  rewrite length_cons, S_INR. simpl.
  pose proof (Hle 0%nat y eq_refl).
  assert (Rsum l <= INR (length l) * v)%R.
  { apply IH. intros j x Hj. by apply (Hle (S j)). }
  lra.
Qed.

Section Distribution.
Context `{!np.numpy}.

(** X17. When the weights [score] has computed are not negative and
    their sum is positive, what it returns is a probability vector: [K]
    entries between 0 and 1 that sum to 1; and [choose_best_label]
    returns a cluster of [range(K)] with a probability of at least
    [1 / K]. *)
Theorem score_is_distribution mgp doc w :
  score_unnormalized mgp doc = Some w →
  Forall (λ x, (0 <= x)%R) w → (0 < Rsum w)%R →
  ∃ p i v, score mgp doc = Some p
    ∧ length p = mgp.(K)
    ∧ Forall (λ x, (0 <= x <= 1)%R) p
    ∧ Rsum p = 1%R
    ∧ choose_best_label mgp doc = Some (i, v)
    ∧ (i < mgp.(K))%nat ∧ p !! i = Some v
    ∧ (1 / INR mgp.(K) <= v <= 1)%R.
Proof.
  intros Hw Hnonneg Hsum. unfold choose_best_label, score. rewrite Hw. simpl.
  pose proof (score_unnormalized_length _ _ _ Hw) as Hlen.
  assert (normalize w = (λ x, x / Rsum w)%R <$> w) as Hnorm.
  { unfold normalize. rewrite py_sum_Rsum. by destruct (Rlt_dec 0 (Rsum w)). }
  destruct (normalize_valid w Hnonneg) as [Hp _].
  rewrite Hnorm in Hp |- *. set (p := (λ x, x / Rsum w)%R <$> w) in *.
  assert (length p = K mgp) as Hplen by (unfold p; by rewrite length_fmap).
  assert (Rsum p = 1%R) as Hone.
  { unfold p. rewrite Rsum_scale. field. lra. }
  assert (p ≠ []) as Hne.
  { intros Hnil. rewrite Hnil in Hone. simpl in Hone. lra. }
  destruct (argmax_max_spec p Hne) as (i & v & Hi & Hv & Hpi & Hmax & _).
  exists p, i, v. rewrite Hi, Hv. simpl.
  split; [done|]. split; [done|]. split; [done|]. split; [done|]. split; [done|].
  split; [rewrite <-Hplen; by eapply lookup_lt_Some|]. split; [done|].
  pose proof (Rsum_le_max p v Hmax) as Hle. rewrite Hone, Hplen in Hle.
  assert (0 < INR (K mgp))%R as HK'.
  { apply (lt_INR 0). destruct p; [done|]. simpl in Hplen. lia. }
  split.
  - apply (Rmult_le_reg_l (INR (K mgp))); [done|]. field_simplify; lra.
  - apply (proj1 (Forall_forall _ _) Hp). by eapply list_elem_of_lookup_2.
Qed.

End Distribution.

(** * The theorems at concrete inputs *)

Lemma fit_preserves_invariants_witness :
  ∃ h, @fit_history example.numpy example.random
         (__init__ 2 (1/10) (1/10) 1) example.docs 3 0%nat = Some h
    ∧ length h = 2%nat
    ∧ Forall (λ s,
        total s.(self).(cluster_doc_count) = 2
        ∧ s.(self).(number_docs) = Some 2
        ∧ s.(self).(cluster_word_count)
          = dict_total <$> s.(self).(cluster_word_distribution)
        ∧ Forall (Forall (λ wc, 0 < wc.2)) s.(self).(cluster_word_distribution)) h.
Proof.
  eexists. split; [lazy; reflexivity|]. split; [reflexivity|].
  apply (@fit_preserves_invariants example.numpy example.random
           2 (1/10)%R (1/10)%R 1 example.docs 3 0%nat).
  lazy; reflexivity.
Defined.

Lemma example_fitted_scorable : scorable example.fitted 3 3.
Proof. split; simpl; [reflexivity | reflexivity | lia..]. Defined.

Lemma score_computes_posterior_witness :
  scorable example.fitted 3 3
  ∧ @score example.numpy example.fitted ["a"; "x"]%string
    = Some (normalize (@posterior_weight example.numpy example.fitted 3 3
                         ["a"; "x"]%string <$> [0; 1; 2]%nat)).
Proof.
  split; [exact example_fitted_scorable|].
  exact (proj1 (proj2 (@score_computes_posterior example.numpy example.fitted 3 3
                         ["a"; "x"]%string example_fitted_scorable))).
Defined.

Lemma score_normalizes_witness :
  scorable example.fitted 3 3
  ∧ ∃ p, @score example.numpy example.fitted ["a"; "x"]%string = Some p
         ∧ length p = 3%nat.
Proof.
  split; [exact example_fitted_scorable|].
  destruct (@score_normalizes example.numpy example.fitted 3 3 ["a"; "x"]%string
              example_fitted_scorable) as (w & p & _ & Hp & _ & Hlen & _).
  exists p. split; [exact Hp | exact Hlen].
Defined.

Lemma fit_convergence_rule_witness :
  ∃ s, @fit example.numpy example.random (__init__ 2 (1/10) (1/10) 30)
         example.docs 3 0%nat = Some s
    ∧ ∃ stages (broke : bool),
        s.(stdout) = stages ++ (if broke then [Converged] else [])
        ∧ stage_index <$> stages = Some <$> seq 0 (length stages)
        ∧ (length stages ≤ 30)%nat
        ∧ if broke then (26 < length stages)%nat else length stages = 30%nat.
Proof.
  eexists. split; [lazy; reflexivity|].
  apply (proj2 (@fit_convergence_rule example.numpy example.random
                  (__init__ 2 (1/10) (1/10) 30) example.docs 3 0%nat)).
  lazy; reflexivity.
Defined.

Lemma example_argsort_perm :
  @np.argsort example.numpy example.fitted.(cluster_doc_count)
  ≡ₚ seq 0 (length example.fitted.(cluster_doc_count)).
Proof.
  change ([1; 2; 0]%nat ≡ₚ [0; 1; 2]%nat). compute_done.
Defined.

Lemma get_top_words_spec_witness :
  ∃ topic_words,
    @get_top_words example.numpy example.fitted 1 ", " = Some topic_words
    ∧ NoDup topic_words.*1
    ∧ py.dict_get topic_words 0%nat = Some "a"%string
    ∧ py.dict_get topic_words 1%nat = Some ""%string.
Proof.
  destruct (@get_top_words_spec example.numpy example.fitted 1 ", "
              example_argsort_perm eq_refl ltac:(simpl; lia) ltac:(lia))
    as (tw & Hrun & Hnodup & _).
  exists tw. split; [exact Hrun|]. split; [exact Hnodup|].
  vm_compute in Hrun. injection Hrun as <-. split; reflexivity.
Defined.

Lemma choose_best_label_spec_witness :
  scorable example.fitted 3 3 ∧ (0 < example.fitted.(K))%nat
  ∧ ∃ p i v, @score example.numpy example.fitted ["x"]%string = Some p
      ∧ @choose_best_label example.numpy example.fitted ["x"]%string = Some (i, v)
      ∧ p !! i = Some v.
Proof.
  split; [exact example_fitted_scorable|]. split; [simpl; lia|].
  destruct (@choose_best_label_spec example.numpy example.fitted 3 3 ["x"]%string
              example_fitted_scorable ltac:(simpl; lia))
    as (p & i & v & Hp & Hbest & Hv & _).
  exists p, i, v. split; [exact Hp|]. split; [exact Hbest | exact Hv].
Defined.

Lemma example_same_draws : same_draws example.random example.random eq.
Proof. intros n pvals g1 g2 <-. simpl. split; reflexivity. Defined.

Lemma fit_deterministic_witness :
  same_draws example.random example.random eq
  ∧ option_rel (λ s1 s2,
        s1.(d_z) = s2.(d_z) ∧ s1.(self) = s2.(self) ∧ s1.(stdout) = s2.(stdout)
        ∧ s1.(gen) = s2.(gen))
      (@fit example.numpy example.random (__init__ 2 (1/10) (1/10) 30)
         example.docs 3 0%nat)
      (@fit example.numpy example.random (__init__ 2 (1/10) (1/10) 30)
         example.docs 3 0%nat).
Proof.
  split; [exact example_same_draws|].
  exact (@fit_deterministic example.numpy example.random example.random eq
           example_same_draws (__init__ 2 (1/10) (1/10) 30) example.docs 3
           0%nat 0%nat eq_refl).
Defined.

Lemma example_fitted_alpha_0_scorable : scorable example.fitted_alpha_0 3 3.
Proof. split; simpl; [reflexivity | reflexivity | lia..]. Defined.


Lemma fit_accumulates_counts_witness :
  @fit example.numpy example.random (__init__ 2 (1/10) (1/10) 1)
    example.docs 3 0%nat = Some example.after_first_fit
  ∧ ∃ s, @fit example.numpy example.random example.after_first_fit.(self)
           example.docs 3 example.after_first_fit.(gen) = Some s
      ∧ s.(self).(number_docs) = Some 2
      ∧ total s.(self).(cluster_doc_count) = 4.
Proof.
  split; [lazy; reflexivity|]. eexists. split; [lazy; reflexivity|].
  match goal with
  | |- number_docs (self ?s) = _ ∧ _ =>
      assert (@fit example.numpy example.random example.after_first_fit.(self)
                example.docs 3 example.after_first_fit.(gen) = Some s) as Hfit
        by (lazy; reflexivity);
      destruct (@fit_accumulates_counts example.numpy example.random
                  example.after_first_fit.(self) example.docs 3
                  example.after_first_fit.(gen) s (or_intror Hfit))
        as (HD & Hn & _)
  end.
  split; [exact HD | exact Hn].
Defined.

Lemma example_sampler_ok : @sampler_ok example.random 2.
Proof.
  intros p g Hp _. unfold _sample.
  cbn [np.multinomial example.random]. unfold example.multinomial. rewrite Hp.
  assert (g mod 2 < 2)%nat as Hg by (apply Nat.mod_upper_bound; lia).
  destruct (g mod 2)%nat as [|[|n]]; [simpl; eauto..| lia].
Defined.

Lemma example_exp_nonneg : ∀ x, (0 <= @np.exp example.numpy x)%R.
Proof. intros x. apply Rlt_le, exp_pos. Defined.


Lemma fit_counts_match_labels_witness :
  @fit example.numpy example.random (__init__ 2 (1/10) (1/10) 1)
    example.docs 3 0%nat = Some example.after_first_fit
  ∧ example.after_first_fit.(self).(cluster_doc_count) !! 0%nat
    = Some (docs_in example.docs example.after_first_fit.(d_z) 0)
  ∧ example.after_first_fit.(self).(cluster_word_count) !! 0%nat
    = Some (tokens_in example.docs example.after_first_fit.(d_z) 0).
Proof.
  assert (@fit example.numpy example.random (__init__ 2 (1/10) (1/10) 1)
            example.docs 3 0%nat = Some example.after_first_fit) as Hfit
    by (lazy; reflexivity).
  split; [exact Hfit|].
  destruct (@fit_counts_match_labels example.numpy example.random 2 (1/10)%R (1/10)%R 1
              example.docs 3 0%nat _ Hfit) as (_ & _ & _ & _ & Hz).
  exact (Hz 0%nat ltac:(lia)).
Defined.

Lemma sweep_counts_transfers_witness :
  ∃ s', @sweep example.numpy example.random example.docs more_examples.moving
        = Some (s', 2%nat)
    ∧ 2%nat = changed more_examples.moving.(d_z) s'.(d_z) (seq 0 2)
    ∧ s'.(d_z) = [Some 1%nat; Some 0%nat].
Proof.
  eexists. split; [lazy; reflexivity|].
  match goal with
  | |- _ = changed _ (d_z ?s) _ ∧ _ =>
      assert (@sweep example.numpy example.random example.docs more_examples.moving
              = Some (s, 2%nat)) as Hsweep by (lazy; reflexivity);
      destruct (@sweep_counts_transfers example.numpy example.random example.docs
                  more_examples.moving s 2%nat Hsweep) as (Hcount & _)
  end.
  split; [exact Hcount | reflexivity].
Defined.

Lemma sweep_without_transfers_witness :
  ∃ s', @sweep example.numpy example.random example.docs example.after_first_fit
        = Some (s', 0%nat)
    ∧ s'.(d_z) = example.after_first_fit.(d_z)
    ∧ s'.(self).(cluster_doc_count) = [1; 1].
Proof.
  eexists. split; [lazy; reflexivity|].
  match goal with
  | |- d_z ?s = _ ∧ _ =>
      assert (@sweep example.numpy example.random example.docs example.after_first_fit
              = Some (s, 0%nat)) as Hsweep by (lazy; reflexivity);
      destruct (@sweep_without_transfers example.numpy example.random example.docs
                  example.after_first_fit s Hsweep) as (Hd & Hm & _)
  end.
  split; [exact Hd | exact Hm].
Defined.

Lemma example_keys_nodup :
  Forall (λ d : dict, NoDup d.*1)
    example.after_first_fit.(self).(cluster_word_distribution).
Proof. compute_done. Defined.

Lemma quiet_sweep_keeps_scores_witness :
  ∃ s', @sweep example.numpy example.random example.docs example.after_first_fit
        = Some (s', 0%nat)
    ∧ @score example.numpy s'.(self) ["a"; "x"]%string
      = @score example.numpy example.after_first_fit.(self) ["a"; "x"]%string.
Proof.
  eexists. split; [lazy; reflexivity|].
  match goal with
  | |- score (self ?s) _ = _ =>
      assert (@sweep example.numpy example.random example.docs example.after_first_fit
              = Some (s, 0%nat)) as Hsweep by (lazy; reflexivity);
      exact (proj1 (@quiet_sweep_keeps_scores example.numpy example.random example.docs
                      example.after_first_fit s ["a"; "x"]%string Hsweep
                      example_keys_nodup))
  end.
Defined.

Lemma fit_counts_tokens_witness :
  @fit example.numpy example.random (__init__ 2 (1/10) (1/10) 1)
    example.docs 3 0%nat = Some example.after_first_fit
  ∧ total example.after_first_fit.(self).(cluster_word_count) = 0 + 4.
Proof.
  assert (@fit example.numpy example.random (__init__ 2 (1/10) (1/10) 1)
            example.docs 3 0%nat = Some example.after_first_fit) as Hfit
    by (lazy; reflexivity).
  split; [exact Hfit|].
  exact (@fit_counts_tokens example.numpy example.random (__init__ 2 (1/10) (1/10) 1)
           example.docs 3 0%nat _ Hfit).
Defined.

Lemma example_argsort_sorted :
  StronglySorted (λ a b, doc_count_of example.fitted a ≤ doc_count_of example.fitted b)
    (@np.argsort example.numpy example.fitted.(cluster_doc_count)).
Proof.
  change (StronglySorted
            (λ a b, doc_count_of example.fitted a ≤ doc_count_of example.fitted b)
            [1; 2; 0]%nat).
  repeat constructor; compute_done.
Defined.

Lemma get_top_words_order_witness :
  ∃ topic_words,
    @get_top_words example.numpy example.fitted 1 ", " = Some topic_words
    ∧ length topic_words = 3%nat
    ∧ topic_words.*1 = [0; 2; 1]%nat.
Proof.
  destruct (@get_top_words_order example.numpy example.fitted 1 ", "
              example_argsort_perm example_argsort_sorted ltac:(simpl; lia))
    as (tw & Hrun & Hlen & _).
  exists tw. split; [exact Hrun|]. split; [exact Hlen|].
  vm_compute in Hrun. injection Hrun as <-. reflexivity.
Defined.

Lemma example_tied_argsort_perm :
  @np.argsort example.numpy more_examples.tied.(cluster_doc_count)
  ≡ₚ seq 0 (length more_examples.tied.(cluster_doc_count)).
Proof. change ([0%nat] ≡ₚ [0%nat]). done. Defined.

Lemma get_top_words_ties_witness :
  ∃ topic_words,
    @get_top_words example.numpy more_examples.tied (-1) " " = Some topic_words
    ∧ py.dict_get topic_words 0%nat = Some "b d a"%string.
Proof.
  destruct (@get_top_words_ties example.numpy more_examples.tied (-1) " "
              example_tied_argsort_perm eq_refl ltac:(simpl; lia))
    as (tw & Hrun & _).
  exists tw. split; [exact Hrun|].
  vm_compute in Hrun. injection Hrun as <-. reflexivity.
Defined.

Lemma fit_without_clusters_witness :
  @fit example.numpy example.random (__init__ 0 (1/10) (1/10) 30) example.docs 3 0%nat
  = None.
Proof.
  apply (@fit_without_clusters example.numpy example.random
           (__init__ 0 (1/10) (1/10) 30) example.docs 3 0%nat); [reflexivity | done].
Defined.

Lemma example_reordered_counts : same_model_counts example.fitted more_examples.reordered.
Proof.
  split; try reflexivity.
  intros [|[|[|z]]] w; unfold freq; simpl; repeat case_decide; simplify_eq; done.
Defined.

Lemma score_depends_on_counts_witness :
  same_model_counts example.fitted more_examples.reordered
  ∧ @score example.numpy more_examples.reordered ["b"; "a"]%string
    = @score example.numpy example.fitted ["b"; "a"]%string.
Proof.
  split; [exact example_reordered_counts|].
  exact (proj1 (@score_depends_on_counts example.numpy example.fitted
                  more_examples.reordered ["b"; "a"]%string example_reordered_counts)).
Defined.

Lemma fit_keeps_parameters_witness :
  @fit example.numpy example.random (__init__ 2 (1/10) (1/10) 1)
    example.docs 3 0%nat = Some example.after_first_fit
  ∧ example.after_first_fit.(self).(K) = 2%nat
  ∧ example.after_first_fit.(self).(vocab_size) = Some 3.
Proof.
  assert (@fit example.numpy example.random (__init__ 2 (1/10) (1/10) 1)
            example.docs 3 0%nat = Some example.after_first_fit) as Hfit
    by (lazy; reflexivity).
  split; [exact Hfit|].
  destruct (@fit_keeps_parameters example.numpy example.random
              (__init__ 2 (1/10) (1/10) 1) example.docs 3 0%nat _ Hfit)
    as (HK & _ & _ & _ & HV & _).
  split; [exact HK | exact HV].
Defined.

Lemma example_float_operands : float_operands example.fitted ["x"]%string.
Proof. unfold float_operands, in_float_range. simpl. compute_done. Defined.

Lemma score_raises_iff_witness :
  float_operands example.fitted ["x"]%string
  ∧ (@score example.numpy example.fitted ["x"]%string = None →
     score_lookup_raises example.fitted ["x"]%string)
  ∧ @score example.numpy (__init__ 3 (1/10) (1/10) 30) ["x"]%string = None.
Proof.
  split; [exact example_float_operands|]. split.
  - exact (proj1 (proj2 (@score_raises_iff example.numpy example.fitted ["x"]%string))
             example_float_operands).
  - apply (proj1 (@score_raises_iff example.numpy (__init__ 3 (1/10) (1/10) 30)
                    ["x"]%string)).
    by left.
Defined.

Lemma choose_best_label_raises_iff_witness :
  float_operands example.fitted ["x"]%string
  ∧ (@choose_best_label example.numpy example.fitted ["x"]%string = None →
     score_lookup_raises example.fitted ["x"]%string ∨ example.fitted.(K) = 0%nat)
  ∧ @choose_best_label example.numpy
      (from_data 0 (1/10) (1/10) (Some 1) (Some 1) [] [] []) ["x"]%string = None.
Proof.
  split; [exact example_float_operands|]. split.
  - exact (proj2 (@choose_best_label_raises_iff example.numpy example.fitted
                    ["x"]%string) example_float_operands).
  - apply (proj1 (@choose_best_label_raises_iff example.numpy
                    (from_data 0 (1/10) (1/10) (Some 1) (Some 1) [] [] [])
                    ["x"]%string)).
    by right.
Defined.

Lemma score_is_distribution_witness :
  ∃ w p, @score_unnormalized example.numpy example.fitted ["x"]%string = Some w
    ∧ Forall (λ x, (0 <= x)%R) w ∧ (0 < Rsum w)%R
    ∧ @score example.numpy example.fitted ["x"]%string = Some p
    ∧ length p = 3%nat ∧ Rsum p = 1%R.
Proof.
  pose proof (@score_unnormalized_spec example.numpy example.fitted 3 3 ["x"]%string
                example_fitted_scorable) as Hw.
  assert (Forall (λ x, (0 < x)%R)
            (@posterior_weight example.numpy example.fitted 3 3 ["x"]%string
               <$> seq 0 example.fitted.(K))) as Hpos.
  { apply Forall_fmap, Forall_forall. intros z _. apply exp_pos. }
  assert (Forall (λ x, (0 <= x)%R)
            (@posterior_weight example.numpy example.fitted 3 3 ["x"]%string
               <$> seq 0 example.fitted.(K))) as Hnonneg.
  { eapply Forall_impl; [exact Hpos|]. intros x Hx. apply Rlt_le, Hx. }
  assert (0 < Rsum (@posterior_weight example.numpy example.fitted 3 3 ["x"]%string
                      <$> seq 0 example.fitted.(K)))%R as Hsum.
  { apply Rsum_pos; [discriminate | exact Hpos]. }
  destruct (@score_is_distribution example.numpy example.fitted ["x"]%string _
              Hw Hnonneg Hsum) as (p & i & v & Hp & Hlen & _ & Hone & _).
  eexists _, p. split; [exact Hw|]. split; [exact Hnonneg|]. split; [exact Hsum|].
  split; [exact Hp|]. split; [exact Hlen | exact Hone].
Defined.

